(** * NEAT Flappy Bird: the evaluation loop, its physics and its obstacles

    A shallow embedding of [flappy_ai/game/bird.py], [flappy_ai/game/pipe.py],
    [flappy_ai/game/base.py] and [flappy_ai/ai/trainer.py].

    Conventions of the embedding.
    - Python [int] is [Z].  A Python [float] is a binary64, that is a
      rational [Q] with a significand of 53 bits.  The positions and
      displacements of the physics (350, 0.5, 3.0, -10.5, 16 and their sums
      and products) are multiples of 0.5 of small size, on which the
      floating point operations are exact: there the operations are those
      of [Q], and equality is [Qeq] ([==]).  The fitness arithmetic is not
      exact (0.1 is not a binary64): there every operation rounds its exact
      result to the nearest binary64, as [to_float] does.
    - A [pygame.Surface] is its size together with the opacity of its pixels,
      which is all the simulation reads from it (size and collision mask).
    - Genomes are mutable objects shared between the library's population and
      the trainer's [genome_list]: they are references into a store of fitness
      values, so that a genome dropped from [genome_list] keeps its fitness.
    - A raised exception is a value of [result]; the external collaborators
      (event pump, random source, network construction, the evolution driver
      and the file system) are inputs of the functions that call them. *)

From Stdlib Require Import ZArith QArith Qround Qabs Qpower Lqa Lia Sorted.
From stdpp Require Import base list gmap strings.

Local Open Scope Z_scope.

(** ** Python values *)

Definition Qltb (a b : Q) : bool := negb (Qle_bool b a).

(** [round(x)] on a float: to the nearest integer, ties to the even one. *)
Definition py_round (q : Q) : Z :=
  let f := Qfloor q in
  let r := (q - inject_Z f)%Q in
  if Qltb r 0.5 then f
  else if Qltb 0.5 r then f + 1
  else if Z.even f then f else f + 1.

(** ** Floating point

    The exponent [e] of the binary64 grid around [q]: the binary64 numbers
    near [q] are the multiples of [2 ^ e], where the significand
    [|q| / 2 ^ e] lies in [2 ^ 52, 2 ^ 53), and [e] is at least -1074
    (below [2 ^ -1022] the numbers are subnormal). *)
Definition binade (q : Q) : Z :=
  let a := Qabs q in
  let e := Z.log2 (Qnum a) - Z.log2 (Zpos (Qden a)) - 52 in
  Z.max (-1074) (if Qltb (a / 2 ^ e) (2 ^ 52) then e - 1 else e).

(** The binary64 nearest to [q], ties to the even significand: the value
    of the literal [q] and the rounding of every operation.  (No value of
    this program comes near the overflow threshold [2 ^ 1024].) *)
Definition to_float (q : Q) : Q :=
  if Qeq_bool q 0 then 0%Q
  else Qred (inject_Z (py_round (q / 2 ^ binade q)) * 2 ^ binade q).

(** [a + b] and [a - b] on floats. *)
Definition float_add (a b : Q) : Q := to_float (a + b).
Definition float_sub (a b : Q) : Q := to_float (a - b).

(** The exceptions the modelled code can meet.  [KeyboardInterrupt] derives
    from [BaseException] only; the others derive from [Exception]. *)
Inductive exn : Type :=
  | KeyboardInterrupt
  | IndexError
  | AttributeError
  | OSError (msg : string)
  | PicklingError (msg : string).

Definition is_Exception (e : exn) : bool :=
  match e with
  | KeyboardInterrupt => false
  | _ => true
  end.

Inductive result (A : Type) : Type :=
  | Ok (a : A)
  | Raise (e : exn).
Arguments Ok {A} a.
Arguments Raise {A} e.

#[global] Instance result_ret : MRet result := fun A a => Ok a.

#[global] Instance result_bind : MBind result := fun A B k m =>
  match m with
  | Ok a => k a
  | Raise e => Raise e
  end.

(** [l[i]] for an index that the code only ever takes non-negative. *)
Definition getitem {A : Type} (l : list A) (i : nat) : result A :=
  match l !! i with
  | Some a => Ok a
  | None => Raise IndexError
  end.

(** [l.pop(i)], with Python's reading of negative indices. *)
Definition pop {A : Type} (l : list A) (i : Z) : result (list A) :=
  let n := Z.of_nat (length l) in
  let j := if i <? 0 then i + n else i in
  if (0 <=? j) && (j <? n) then Ok (delete (Z.to_nat j) l)
  else Raise IndexError.

(** ** Surfaces and masks (the part of pygame the simulation reads) *)

Record Surface : Type := {
  surf_w : nat;
  surf_h : nat;
  surf_opaque : Z -> Z -> bool
}.

Definition get_width (s : Surface) : Z := Z.of_nat (surf_w s).
Definition get_height (s : Surface) : Z := Z.of_nat (surf_h s).

(** [pygame.transform.flip(img, False, True)]: mirror top to bottom. *)
Definition flip_vertical (s : Surface) : Surface :=
  {| surf_w := surf_w s;
     surf_h := surf_h s;
     surf_opaque := fun px py => surf_opaque s px (get_height s - 1 - py) |}.

Record Mask : Type := {
  mask_w : nat;
  mask_h : nat;
  mask_bit : Z -> Z -> bool
}.

Definition from_surface (s : Surface) : Mask :=
  {| mask_w := surf_w s; mask_h := surf_h s; mask_bit := surf_opaque s |}.

Definition get_at (m : Mask) (px py : Z) : bool :=
  (0 <=? px) && (px <? Z.of_nat (mask_w m)) &&
  (0 <=? py) && (py <? Z.of_nat (mask_h m)) && mask_bit m px py.

(** All pixel positions of a [w] by [h] mask. *)
Definition grid (w h : nat) : list (Z * Z) :=
  px ← seq 0 w; py ← seq 0 h; [(Z.of_nat px, Z.of_nat py)].

(** [self.overlap(other, offset)]: a point set in both masks, [other] being
    placed at [offset] in the coordinates of [self]; [None] without one. *)
Definition overlap (m other : Mask) (offset : Z * Z) : option (Z * Z) :=
  find (fun p => get_at m p.1 p.2 &&
                 get_at other (p.1 - offset.1) (p.2 - offset.2))
       (grid (mask_w m) (mask_h m)).

(** Truth value of an optional result ([None] is false, a point is true). *)
Definition truthy {A : Type} (o : option A) : bool :=
  match o with Some _ => true | None => false end.

(** ** bird.py *)

Module Bird.

Definition MAX_ROTATION : Z := 25.
Definition ROT_VEL : Z := 20.
Definition ANIMATION_TIME : Z := 5.
Definition JUMP_VELOCITY : Q := (-10.5)%Q.
Definition GRAVITY : Q := 3.0%Q.

(** The engine always builds the animation from three images. *)
Record t : Type := {
  x : Z;
  y : Q;
  tilt : Z;
  tick_count : Z;
  vel : Q;
  height : Q;
  img_count : Z;
  images : Surface * Surface * Surface;
  img : Surface
}.

Definition image (b : t) (i : nat) : Surface :=
  match i with
  | O => (images b).1.1
  | S O => (images b).1.2
  | _ => (images b).2
  end.

Definition init (x0 y0 : Z) (imgs : Surface * Surface * Surface) : t :=
  {| x := x0; y := inject_Z y0; tilt := 0; tick_count := 0; vel := 0%Q;
     height := inject_Z y0; img_count := 0; images := imgs;
     img := imgs.1.1 |}.

Definition jump (b : t) : t :=
  {| x := x b; y := y b; tilt := tilt b;
     tick_count := 0;
     vel := JUMP_VELOCITY;
     height := y b;
     img_count := img_count b; images := images b; img := img b |}.

(** The three stages of the displacement computed by [move], for a
    velocity [v] and the tick count [tc] already incremented. *)
Definition raw_displacement (v : Q) (tc : Z) : Q :=
  (v * inject_Z tc + 0.5 * GRAVITY * inject_Z tc ^ 2)%Q.

Definition terminal (d : Q) : Q :=
  if Qle_bool 16 d then ((d / Qabs d) * 16)%Q else d.

Definition boost (d : Q) : Q :=
  if Qltb d 0 then (d - 2)%Q else d.

Definition displacement (b : t) : Q :=
  boost (terminal (raw_displacement (vel b) (tick_count b + 1))).

Definition move (b : t) : t :=
  let tc := tick_count b + 1 in
  let d := boost (terminal (raw_displacement (vel b) tc)) in
  let y' := (y b + d)%Q in
  let tilt' :=
    if Qltb d 0 || Qltb y' (height b + 50)
    then (if tilt b <? MAX_ROTATION then MAX_ROTATION else tilt b)
    else (if -90 <? tilt b then tilt b - ROT_VEL else tilt b) in
  {| x := x b; y := y'; tilt := tilt';
     tick_count := tc;
     vel := vel b; height := height b;
     img_count := img_count b; images := images b; img := img b |}.

(** [draw], without the blit: the animation frame it selects is the image
    whose height and mask the evaluation loop reads on the next tick. *)
Definition draw (b : t) : t :=
  let c := img_count b + 1 in
  let '(c1, i1) :=
    if c <=? ANIMATION_TIME then (c, image b 0)
    else if c <=? ANIMATION_TIME * 2 then (c, image b 1)
    else if c <=? ANIMATION_TIME * 3 then (c, image b 2)
    else if c <=? ANIMATION_TIME * 4 then (c, image b 1)
    else if c =? ANIMATION_TIME * 4 + 1 then (0, image b 0)
    else (c, img b) in
  let '(c2, i2) :=
    if tilt b <=? -80 then (ANIMATION_TIME * 2, image b 1) else (c1, i1) in
  {| x := x b; y := y b; tilt := tilt b; tick_count := tick_count b;
     vel := vel b; height := height b;
     img_count := c2; images := images b; img := i2 |}.

Definition get_mask (b : t) : Mask := from_surface (img b).

Definition reset (x0 y0 : Z) (b : t) : t :=
  {| x := x0; y := inject_Z y0; tilt := 0; tick_count := 0; vel := 0%Q;
     height := inject_Z y0; img_count := 0; images := images b;
     img := image b 0 |}.

End Bird.

(** ** pipe.py *)

(** [random.randrange(lo, hi)] for [lo < hi]: the library's contract is a
    value of [lo, hi); [raw] is what the generator's state yields. *)
Definition randrange (lo hi raw : Z) : Z := lo + raw mod (hi - lo).

Module Pipe.

Definition GAP : Z := 200.
Definition VEL : Z := 5.
Definition MIN_HEIGHT : Z := 50.
Definition MAX_HEIGHT : Z := 450.

Record t : Type := {
  x : Z;
  height : Z;
  top : Z;
  bottom : Z;
  PIPE_TOP : Surface;
  PIPE_BOTTOM : Surface;
  passed : bool
}.

Definition set_height (raw : Z) (p : t) : t :=
  let h := randrange MIN_HEIGHT MAX_HEIGHT raw in
  {| x := x p;
     height := h;
     top := h - get_height (PIPE_TOP p);
     bottom := h + GAP;
     PIPE_TOP := PIPE_TOP p; PIPE_BOTTOM := PIPE_BOTTOM p;
     passed := passed p |}.

Definition init (x0 : Z) (pipe_img : Surface) (raw : Z) : t :=
  set_height raw
    {| x := x0; height := 0; top := 0; bottom := 0;
       PIPE_TOP := flip_vertical pipe_img; PIPE_BOTTOM := pipe_img;
       passed := false |}.

Definition move (p : t) : t :=
  {| x := x p - VEL; height := height p; top := top p; bottom := bottom p;
     PIPE_TOP := PIPE_TOP p; PIPE_BOTTOM := PIPE_BOTTOM p;
     passed := passed p |}.

Definition collide (p : t) (bird : Bird.t) : bool :=
  let bird_mask := Bird.get_mask bird in
  let top_mask := from_surface (PIPE_TOP p) in
  let bottom_mask := from_surface (PIPE_BOTTOM p) in
  let top_offset := (x p - Bird.x bird, top p - py_round (Bird.y bird)) in
  let bottom_offset :=
    (x p - Bird.x bird, bottom p - py_round (Bird.y bird)) in
  let top_collision := overlap bird_mask top_mask top_offset in
  let bottom_collision := overlap bird_mask bottom_mask bottom_offset in
  truthy top_collision || truthy bottom_collision.

Definition is_off_screen (p : t) : bool :=
  x p + get_width (PIPE_TOP p) <? 0.

Definition has_passed (p : t) (bird_x : Z) : bool :=
  negb (passed p) && (x p <? bird_x).

Definition mark_passed (p : t) : t :=
  {| x := x p; height := height p; top := top p; bottom := bottom p;
     PIPE_TOP := PIPE_TOP p; PIPE_BOTTOM := PIPE_BOTTOM p;
     passed := true |}.

(** The pair [(gap_x, gap_y)]; [//] is the floor division of [Z]. *)
Definition get_gap_center (p : t) : Z * Z :=
  let gap_y := height p + GAP / 2 in
  let gap_x := x p + get_width (PIPE_TOP p) / 2 in
  (gap_x, gap_y).

End Pipe.

(** ** base.py *)

Module Base.

Definition VEL : Z := 5.

Record t : Type := { y : Z; width : Z; x1 : Z; x2 : Z }.

Definition init (y0 : Z) (image : Surface) : t :=
  {| y := y0; width := get_width image; x1 := 0; x2 := get_width image |}.

Definition move (b : t) : t :=
  let a1 := x1 b - VEL in
  let a2 := x2 b - VEL in
  let a1' := if a1 + width b <? 0 then a2 + width b else a1 in
  let a2' := if a2 + width b <? 0 then a1' + width b else a2 in
  {| y := y b; width := width b; x1 := a1'; x2 := a2' |}.

Definition get_collision_y (b : t) : Z := y b.

Definition reset (b : t) : t :=
  {| y := y b; width := width b; x1 := 0; x2 := width b |}.

End Base.

(** ** utils/helpers.py *)

Module Helpers.

(** [min(a, b)] and [max(a, b)] of two numbers: the first argument unless
    the second is strictly smaller, respectively strictly larger. *)
Definition py_min (a b : Q) : Q := if Qltb b a then b else a.
Definition py_max (a b : Q) : Q := if Qltb a b then b else a.

Definition clamp (value min_value max_value : Q) : Q :=
  py_max min_value (py_min max_value value).

End Helpers.

(** ** utils/config.py and the engine's factory methods *)

Module Config.
Definition WIN_WIDTH : Z := 600.
Definition WIN_HEIGHT : Z := 800.
Definition FLOOR_Y : Z := 730.
Definition MAX_GENERATIONS : Z := 50.
End Config.

Module GameEngine.

(** The images [_load_assets] reads from disk. *)
Record t : Type := {
  bird_images : Surface * Surface * Surface;
  pipe_image : Surface;
  base_image : Surface
}.

Definition create_bird (game : t) : Bird.t :=
  Bird.init 230 350 (bird_images game).

Definition create_pipe (game : t) (x : Z) (raw : Z) : Pipe.t :=
  Pipe.init x (pipe_image game) raw.

Definition create_base (game : t) : Base.t :=
  Base.init Config.FLOOR_Y (base_image game).

(** Of [draw_window] only [bird.draw] changes the state of the game. *)
Definition draw_window (birds : list Bird.t) : list Bird.t :=
  Bird.draw <$> birds.

End GameEngine.

(** ** trainer.py *)

(** A genome is an object of the evolution library; the trainer reads it to
    build a network and writes its [fitness] attribute. *)
Definition genome : Type := nat.

(** The fitness attribute of every genome object. *)
Abbreviation fitness_store := (gmap genome Q).

(** [net.activate(inputs)] of a feed-forward network. *)
Definition Net : Type := Q * Q * Q -> list Q.

(** What one generation receives from outside: the network the library
    builds for a genome, the answer of each poll of the event queue and the
    values the random generator yields. *)
Record Env : Type := {
  create_net : genome -> Net;
  handle_events : nat -> bool;
  entropy : nat -> Z
}.

Module Trainer.

(** [genome.fitness = op(genome.fitness)] *)
Definition update_fitness (g : genome) (op : Q -> Q)
    (fit : fitness_store) : result fitness_store :=
  match fit !! g with
  | Some f => Ok (<[g := op f]> fit)
  | None => Raise AttributeError
  end.

Definition _remove_bird {A B C : Type} (index : Z)
    (birds : list A) (networks : list B) (genomes : list C)
    : result (list A * list B * list C) :=
  if (0 <=? index) && (index <? Z.of_nat (length birds)) then
    birds' ← pop birds index;
    networks' ← pop networks index;
    genomes' ← pop genomes index;
    Ok (birds', networks', genomes')
  else Ok (birds, networks, genomes).

(** The state of the loop of [_eval_genomes].  [polls] counts the calls of
    [handle_events] and [draws] the pipes created so far. *)
Record state : Type := {
  birds : list Bird.t;
  networks : list Net;
  genome_list : list genome;
  fitness : fitness_store;
  pipes : list Pipe.t;
  floor : Base.t;
  score : Z;
  polls : nat;
  draws : nat
}.

(** Lines 132-147: one network and one bird per genome, fitness 0. *)
Fixpoint init_population (env : Env) (game : GameEngine.t)
    (genomes : list (Z * genome)) (fit : fitness_store)
    : list Bird.t * list Net * list genome * fitness_store :=
  match genomes with
  | [] => ([], [], [], fit)
  | (genome_id, g) :: rest =>
      let fit := <[g := 0%Q]> fit in
      let net := create_net env g in
      let '(birds, networks, genome_list, fit) :=
        init_population env game rest fit in
      (GameEngine.create_bird game :: birds, net :: networks,
       g :: genome_list, fit)
  end.

Definition init_state (env : Env) (game : GameEngine.t)
    (genomes : list (Z * genome)) (fit : fitness_store) : state :=
  let '(birds, networks, genome_list, fit) :=
    init_population env game genomes fit in
  {| birds := birds; networks := networks; genome_list := genome_list;
     fitness := fit;
     pipes := [GameEngine.create_pipe game 700 (entropy env 0)];
     floor := GameEngine.create_base game;
     score := 0; polls := 0; draws := 1 |}.

(** Lines 159-163. *)
Definition select_pipe (birds : list Bird.t) (pipes : list Pipe.t) : nat :=
  match birds, pipes with
  | b0 :: _, p0 :: _ :: _ =>
      if Pipe.x p0 + get_width (Pipe.PIPE_TOP p0) <? Bird.x b0
      then 1%nat else 0%nat
  | _, _ => 0%nat
  end.

Definition sensors (bird : Bird.t) (p : Pipe.t) : Q * Q * Q :=
  (Bird.y bird,
   Qabs (Bird.y bird - inject_Z (Pipe.height p)),
   Qabs (Bird.y bird - inject_Z (Pipe.bottom p))).

(** Lines 166-179, from position [i] on; [todo] is what is left of
    [birds], which this loop does not shorten. *)
Fixpoint move_birds (i : nat) (todo : list Bird.t) (networks : list Net)
    (genome_list : list genome) (pipes : list Pipe.t) (pipe_index : nat)
    (fit : fitness_store) : result (list Bird.t * fitness_store) :=
  match todo with
  | [] => Ok ([], fit)
  | bird :: rest =>
      let bird := Bird.move bird in
      g ← getitem genome_list i;
      fit ← update_fitness g (fun f => float_add f (to_float 0.1)) fit;
      net ← getitem networks i;
      p ← getitem pipes pipe_index;
      let output := net (sensors bird p) in
      o ← getitem output 0;
      let bird := if Qltb 0.5 o then Bird.jump bird else bird in
      '(rest, fit) ← move_birds (S i) rest networks genome_list
                        pipes pipe_index fit;
      Ok (bird :: rest, fit)
  end.

(** Lines 192-195: [enumerate(birds)] walks the positions 0, 1, 2, ... of
    a list that [_remove_bird] shortens meanwhile; [k] is the position the
    iterator is at, and at most [n] positions are left to visit. *)
Fixpoint check_collisions (n k : nat) (pipe : Pipe.t)
    (birds : list Bird.t) (networks : list Net) (genome_list : list genome)
    (fit : fitness_store)
    : result (list Bird.t * list Net * list genome * fitness_store) :=
  match n with
  | O => Ok (birds, networks, genome_list, fit)
  | S n =>
      match birds !! k with
      | None => Ok (birds, networks, genome_list, fit)
      | Some bird =>
          if Pipe.collide pipe bird then
            g ← getitem genome_list k;
            fit ← update_fitness g (fun f => float_sub f 1) fit;
            '(birds, networks, genome_list) ←
              _remove_bird (Z.of_nat k) birds networks genome_list;
            check_collisions n (S k) pipe birds networks genome_list fit
          else
            check_collisions n (S k) pipe birds networks genome_list fit
      end
  end.

(** Lines 188-204, from position [i] of [pipes] on.  The result lists the
    pipes as the loop leaves them and the positions of those put into
    [pipes_to_remove] (an object of [pipes] is named by its position). *)
Fixpoint process_pipes (i : nat) (todo : list Pipe.t)
    (birds : list Bird.t) (networks : list Net) (genome_list : list genome)
    (fit : fitness_store) (add_pipe : bool)
    : result (list Pipe.t * list nat *
              (list Bird.t * list Net * list genome * fitness_store) *
              bool) :=
  match todo with
  | [] => Ok ([], [], (birds, networks, genome_list, fit), add_pipe)
  | pipe :: rest =>
      let pipe := Pipe.move pipe in
      '(birds, networks, genome_list, fit) ←
        check_collisions (length birds) 0 pipe
                         birds networks genome_list fit;
      let here := if Pipe.is_off_screen pipe then [i] else [] in
      let pass :=
        negb (Pipe.passed pipe) &&
        match birds with
        | b0 :: _ => Pipe.x pipe <? Bird.x b0
        | [] => false
        end in
      let pipe := if pass then Pipe.mark_passed pipe else pipe in
      let add_pipe := if pass then true else add_pipe in
      '(rest, pipes_to_remove, flock, add_pipe) ←
        process_pipes (S i) rest birds networks genome_list fit add_pipe;
      Ok (pipe :: rest, here ++ pipes_to_remove, flock, add_pipe)
  end.

(** Lines 212-213. *)
Fixpoint reward_all (genome_list : list genome) (fit : fitness_store)
    : result fitness_store :=
  match genome_list with
  | [] => Ok fit
  | g :: rest =>
      fit ← update_fitness g (fun f => float_add f 5) fit;
      reward_all rest fit
  end.

(** Lines 218-219: the collected objects leave [pipes]; their positions
    are in increasing order, so the last one is deleted first. *)
Definition remove_pipes (pipes_to_remove : list nat)
    (pipes : list Pipe.t) : list Pipe.t :=
  foldr delete pipes pipes_to_remove.

Definition out_of_bounds (bird : Bird.t) : bool :=
  Qle_bool (inject_Z Config.FLOOR_Y)
           (Bird.y bird + inject_Z (get_height (Bird.img bird))) ||
  Qltb (Bird.y bird) (-50).

(** Lines 222-225: positions [n - 1] down to 0. *)
Fixpoint check_bounds (n : nat)
    (birds : list Bird.t) (networks : list Net) (genome_list : list genome)
    : result (list Bird.t * list Net * list genome) :=
  match n with
  | O => Ok (birds, networks, genome_list)
  | S i =>
      bird ← getitem birds i;
      '(birds, networks, genome_list) ←
        (if out_of_bounds bird
         then _remove_bird (Z.of_nat i) birds networks genome_list
         else Ok (birds, networks, genome_list));
      check_bounds i birds networks genome_list
  end.

(** Lines 159-235: one pass through the body of the loop once the poll of
    the event queue has let it go on. *)
Definition tick (env : Env) (game : GameEngine.t) (s : state)
    : result state :=
  let pipe_index := select_pipe (birds s) (pipes s) in
  '(birds1, fit1) ←
    move_birds 0 (birds s) (networks s) (genome_list s)
               (pipes s) pipe_index (fitness s);
  let floor1 := Base.move (floor s) in
  '(pipes1, pipes_to_remove, (birds2, networks2, genome_list2, fit2),
    add_pipe) ←
    process_pipes 0 (pipes s) birds1 (networks s) (genome_list s)
                  fit1 false;
  '(score3, fit3, pipes3, draws3) ←
    (if add_pipe : bool then
       fit3 ← reward_all genome_list2 fit2;
       Ok (score s + 1, fit3,
           pipes1 ++ [GameEngine.create_pipe game Config.WIN_WIDTH
                        (entropy env (draws s))],
           S (draws s))
     else Ok (score s, fit2, pipes1, draws s));
  let pipes4 := remove_pipes pipes_to_remove pipes3 in
  '(birds5, networks5, genome_list5) ←
    check_bounds (length birds2) birds2 networks2 genome_list2;
  Ok {| birds := GameEngine.draw_window birds5;
        networks := networks5; genome_list := genome_list5;
        fitness := fit3; pipes := pipes4; floor := floor1;
        score := score3; polls := S (polls s); draws := draws3 |}.

(** Lines 150-157: the loop.  [None] when [fuel] passes did not end it. *)
Fixpoint game_loop (fuel : nat) (env : Env) (game : GameEngine.t)
    (s : state) : result (option state) :=
  match fuel with
  | O => Ok None
  | S fuel =>
      match birds s with
      | [] => Ok (Some s)
      | _ :: _ =>
          if handle_events env (polls s) then
            s' ← tick env game s;
            game_loop fuel env game s'
          else
            Ok (Some {| birds := birds s; networks := networks s;
                        genome_list := genome_list s;
                        fitness := fitness s;
                        pipes := pipes s; floor := floor s;
                        score := score s; polls := S (polls s);
                        draws := draws s |})
      end
  end.

(** [float('-inf')] or a fitness. *)
Inductive best_so_far : Type :=
  | NegInf
  | Fitness (f : Q).

Definition exceeds (f : Q) (best : best_so_far) : bool :=
  match best with
  | NegInf => true
  | Fitness b => Qltb b f
  end.

(** The attributes of [NEATTrainer] that change. *)
Record t : Type := {
  generation : Z;
  best_genome : option genome;
  best_fitness : best_so_far
}.

Definition init : t :=
  {| generation := 0; best_genome := None; best_fitness := NegInf |}.

(** Lines 238-242. *)
Fixpoint track_best (genome_list : list genome) (fit : fitness_store)
    (self : t) : result t :=
  match genome_list with
  | [] => Ok self
  | g :: rest =>
      match fit !! g with
      | None => Raise AttributeError
      | Some f =>
          let self :=
            if exceeds f (best_fitness self)
            then {| generation := generation self;
                    best_genome := Some g;
                    best_fitness := Fitness f |}
            else self in
          track_best rest fit self
      end
  end.

(** [_eval_genomes]: the trainer and the genomes' fitness after one
    generation; [None] when [fuel] passes of the loop did not end it. *)
Definition _eval_genomes (fuel : nat) (env : Env) (game : GameEngine.t)
    (self : t) (genomes : list (Z * genome)) (fit : fitness_store)
    : result (option (t * state)) :=
  let self := {| generation := generation self + 1;
                 best_genome := best_genome self;
                 best_fitness := best_fitness self |} in
  r ← game_loop fuel env game (init_state env game genomes fit);
  match r with
  | None => Ok None
  | Some s =>
      self ← track_best (genome_list s) (fitness s) self;
      Ok (Some (self, s))
  end.

End Trainer.

(** ** trainer.py: [train] and [_save_genome] *)

Inductive log_record : Type :=
  | Info_starting (max_generations : Z)
  | Info_completed (winner : genome)
  | Info_interrupted
  | Info_saved (filepath : string)
  | Error_training_failed (e : exn)
  | Error_save_failed (e : exn).

(** What [train] leaves behind: the records it logged and the genomes whose
    dump to a file went through, in order. *)
Record World : Type := {
  log : list log_record;
  saved : list (string * genome)
}.

Definition logged (r : log_record) (w : World) : World :=
  {| log := log w ++ [r]; saved := saved w |}.

Section Train.

(** The evolution library: lines 64-78 build the population from the
    configuration file; [population.run] calls the fitness function
    generation after generation and hands back the winner, or stops on an
    exception, leaving the trainer as the calls made so far left it. *)
Context {Population : Type}.
Variable neat_setup : string -> result Population.
Variable population_run :
  Population -> Trainer.t -> Z -> result genome * Trainer.t.

(** [open(filepath, 'wb')] followed by [pickle.dump]: the exception they
    end with, if any. *)
Variable dump : string -> genome -> option exn.

Definition get_checkpoint_path (filename : string) : string :=
  "checkpoints/" +:+ filename.

(** The exception [_save_genome] lets through, if any, and the world. *)
Definition _save_genome (g : genome) (name : string) (w : World)
    : option exn * World :=
  let filepath := get_checkpoint_path (name +:+ ".pickle") in
  match dump filepath g with
  | None =>
      (None, logged (Info_saved filepath)
               {| log := log w; saved := saved w ++ [(filepath, g)] |})
  | Some e =>
      if is_Exception e
      then (None, logged (Error_save_failed e) w)
      else (Some e, w)
  end.

Definition train (self : Trainer.t) (neat_config_path : string)
    (max_generations : option Z) (w : World)
    : result genome * Trainer.t * World :=
  let max_generations :=
    match max_generations with
    | None => Config.MAX_GENERATIONS
    | Some n => n
    end in
  match neat_setup neat_config_path with
  | Raise e => (Raise e, self, w)
  | Ok population =>
      let w := logged (Info_starting max_generations) w in
      (* the body of [try] *)
      let '(r, self, w) :=
        match population_run population self max_generations with
        | (Ok winner, self) =>
            match _save_genome winner "winner" w with
            | (None, w) => (Ok winner, self, logged (Info_completed winner) w)
            | (Some e, w) => (Raise e, self, w)
            end
        | (Raise e, self) => (Raise e, self, w)
        end in
      match r with
      | Ok winner => (Ok winner, self, w)
      | Raise KeyboardInterrupt =>
          let w := logged Info_interrupted w in
          match Trainer.best_genome self with
          | Some g =>
              match _save_genome g "interrupted_best" w with
              | (None, w) => (Raise KeyboardInterrupt, self, w)
              | (Some e, w) => (Raise e, self, w)
              end
          | None => (Raise KeyboardInterrupt, self, w)
          end
      | Raise e =>
          (Raise e, self, logged (Error_training_failed e) w)
      end
  end.

End Train.

(** ** Scenarios *)

(** A bird of the engine, two ticks after a jump. *)
Definition blank : Surface :=
  {| surf_w := 2; surf_h := 2; surf_opaque := fun _ _ => true |}.

Definition risen : Bird.t :=
  Bird.move (Bird.jump (Bird.init 230 350 (blank, blank, blank))).

(** A trainer that holds a best genome when the run is interrupted. *)
Definition interrupted_trainer : Trainer.t :=
  {| Trainer.generation := 3;
     Trainer.best_genome := Some 4%nat;
     Trainer.best_fitness := Trainer.Fitness 12.5%Q |}.

(** ** A bird that never jumps

    The y of a bird spawned at 350 after [n] moves without a jump: the
    displacements are 1.5, 6 and 13.5, then 16 on every tick. *)
Definition fall_y (n : nat) : Q :=
  match n with
  | 0%nat => 350
  | 1%nat => 351.5
  | 2%nat => 357.5
  | S (S (S k)) => 371 + 16 * inject_Z (Z.of_nat k)
  end%Q.

(** A bird image of height [h], narrow enough to stay clear of the first
    pipe during the fall. *)
Definition sprite_fits (h : nat) (i : Surface) : Prop :=
  surf_h i = h /\ (surf_w i <= 340)%nat.

(** A network whose first output never exceeds the threshold. *)
Definition never_jumps (net : Net) : Prop :=
  forall v, exists o os, net v = o :: os /\ (o <= 0.5)%Q.

(** The floor test of lines 222-225 after [n] moves, for an image of
    height [h]. *)
Definition hits_floor (h : nat) (n : nat) : bool :=
  Qle_bool (inject_Z Config.FLOOR_Y) (fall_y n + inject_Z (Z.of_nat h)).

(** The fitness of a genome that line 168 has rewarded [n] times and that
    nothing else has touched: [n] floating point additions of 0.1 to 0. *)
Definition survival (n : nat) : Q :=
  Nat.iter n (fun f => float_add f (to_float 0.1)) 0%Q.

(** The loop state after [n] ticks of a generation of one genome [g] whose
    bird is still falling. *)
Record falling (env : Env) (game : GameEngine.t) (g : genome) (h n : nat)
    (s : Trainer.state) : Prop := {
  fl_bird : exists b,
    Trainer.birds s = [b] /\ Bird.x b = 230 /\ Bird.vel b = 0%Q /\
    Bird.tick_count b = Z.of_nat n /\ (Bird.y b == fall_y n)%Q /\
    Bird.images b = GameEngine.bird_images game /\
    sprite_fits h (Bird.img b);
  fl_networks : Trainer.networks s = [create_net env g];
  fl_genomes : Trainer.genome_list s = [g];
  fl_fitness : Trainer.fitness s !! g = Some (survival n);
  fl_pipe : exists p,
    Trainer.pipes s = [p] /\ Pipe.x p = 700 - 5 * Z.of_nat n /\
    Pipe.passed p = false;
  fl_polls : Trainer.polls s = n;
  fl_score : Trainer.score s = 0
}.

(** The loop state once that bird has been removed at tick [n]. *)
Record fallen (g : genome) (n : nat) (s : Trainer.state) : Prop := {
  fn_birds : Trainer.birds s = [];
  fn_networks : Trainer.networks s = [];
  fn_genomes : Trainer.genome_list s = [];
  fn_fitness : Trainer.fitness s !! g = Some (survival n);
  fn_polls : Trainer.polls s = n;
  fn_score : Trainer.score s = 0
}.

(** The first tick, from [n] on, at which the floor test holds. *)
Fixpoint first_hit (h fuel n : nat) : nat :=
  match fuel with
  | O => n
  | S fuel => if hits_floor h n then n else first_hit h fuel (S n)
  end.

Definition floor_tick (h : nat) : nat := first_hit h 25 1.

(** Opaque rectangles of the size of the shipped sprites, a network that
    always answers 0, no quit event, and a generator stuck on one value. *)
Definition solid (w h : nat) : Surface :=
  {| surf_w := w; surf_h := h; surf_opaque := fun _ _ => true |}.

Definition game0 : GameEngine.t :=
  {| GameEngine.bird_images := (solid 68 48, solid 68 48, solid 68 48);
     GameEngine.pipe_image := solid 104 640;
     GameEngine.base_image := solid 672 224 |}.

Definition env0 : Env :=
  {| create_net := fun _ _ => [0%Q];
     handle_events := fun _ => true;
     entropy := fun _ => 250 |}.

(** ** Pass events

    The pipes of a list that no bird has passed yet. *)
Fixpoint unpassed (pipes : list Pipe.t) : nat :=
  match pipes with
  | [] => 0
  | p :: rest => (if Pipe.passed p then 0 else 1) + unpassed rest
  end%nat.

(** One bird in front of a pipe that the next move takes behind it. *)
Definition tiny_game : GameEngine.t :=
  {| GameEngine.bird_images := (blank, blank, blank);
     GameEngine.pipe_image := blank;
     GameEngine.base_image := blank |}.

Definition about_to_pass : Trainer.state :=
  {| Trainer.birds := [GameEngine.create_bird tiny_game];
     Trainer.networks := [create_net env0 7%nat];
     Trainer.genome_list := [7%nat];
     Trainer.fitness := {[7%nat := 0%Q]};
     Trainer.pipes := [GameEngine.create_pipe tiny_game 234 250];
     Trainer.floor := GameEngine.create_base tiny_game;
     Trainer.score := 0; Trainer.polls := 0; Trainer.draws := 1 |}.

(** ** What the loop maintains

    The three lists run in parallel, every genome left has a fitness, every
    network left answers with at least one output, the birds stand at
    x = 230, and while a bird is left the last pipe is one that the birds
    have not reached yet. *)
Record well_formed (s : Trainer.state) : Prop := {
  wf_networks :
    length (Trainer.networks s) = length (Trainer.birds s);
  wf_genomes :
    length (Trainer.genome_list s) = length (Trainer.birds s);
  wf_fitness :
    forall g, g ∈ Trainer.genome_list s -> is_Some (Trainer.fitness s !! g);
  wf_answers :
    forall net v, net ∈ Trainer.networks s -> net v <> [];
  wf_birds :
    forall b, b ∈ Trainer.birds s -> Bird.x b = 230;
  wf_pipes :
    exists front p,
      Trainer.pipes s = front ++ [p] /\
      (Trainer.birds s <> [] -> Pipe.passed p = false /\ 230 <= Pipe.x p)
}.

(** * Properties *)

(** ** Comparisons of rationals *)

Lemma Qltb_lt (a b : Q) : Qltb a b = true <-> (a < b)%Q.
Proof.
  unfold Qltb. rewrite negb_true_iff. split.
  - intros H. apply Qnot_le_lt. intros Hle.
    apply Qle_bool_iff in Hle. congruence.
  - intros H. destruct (Qle_bool b a) eqn:E; [|reflexivity].
    apply Qle_bool_iff in E. lra.
Qed.

Lemma Qltb_ge (a b : Q) : Qltb a b = false <-> (b <= a)%Q.
Proof.
  unfold Qltb. rewrite negb_false_iff. apply Qle_bool_iff.
Qed.

Lemma Qle_bool_gt (a b : Q) : Qle_bool a b = false <-> (b < a)%Q.
Proof.
  split.
  - intros H. apply Qnot_le_lt. intros Hle.
    apply Qle_bool_iff in Hle. congruence.
  - intros H. destruct (Qle_bool a b) eqn:E; [|reflexivity].
    apply Qle_bool_iff in E. lra.
Qed.

(** ** Floating point: [to_float] rounds to the nearest binary64 *)

Lemma py_round_near (q : Q) : (Qabs (inject_Z (py_round q) - q) <= 1 # 2)%Q.
Proof.
  unfold py_round.
  pose proof (Qfloor_le q) as Hlo. pose proof (Qlt_floor q) as Hhi.
  rewrite inject_Z_plus in Hhi. change (inject_Z 1) with 1%Q in Hhi.
  set (f := Qfloor q) in *.
  assert (Hcase : forall z : Q,
            (- (1 # 2) <= z)%Q -> (z <= 1 # 2)%Q -> (Qabs z <= 1 # 2)%Q).
  { intros z H1 H2. apply Qabs_Qle_condition. split; assumption. }
  destruct (Qltb (q - inject_Z f) 0.5) eqn:E1.
  - apply Qltb_lt in E1. apply Hcase; lra.
  - apply Qltb_ge in E1.
    destruct (Qltb 0.5 (q - inject_Z f)) eqn:E2.
    + apply Qltb_lt in E2. rewrite inject_Z_plus.
      change (inject_Z 1) with 1%Q. apply Hcase; lra.
    + apply Qltb_ge in E2.
      destruct (Z.even f); [apply Hcase; lra|].
      rewrite inject_Z_plus. change (inject_Z 1) with 1%Q. apply Hcase; lra.
Qed.

Lemma py_round_tie (q : Q) :
  (q - inject_Z (Qfloor q) == 1 # 2)%Q -> Z.even (py_round q) = true.
Proof.
  intros H. unfold py_round.
  replace (Qltb (q - inject_Z (Qfloor q)) 0.5) with false
    by (symmetry; apply Qltb_ge; lra).
  replace (Qltb 0.5 (q - inject_Z (Qfloor q))) with false
    by (symmetry; apply Qltb_ge; lra).
  destruct (Z.even (Qfloor q)) eqn:E; [exact E|].
  rewrite Z.even_add, E. reflexivity.
Qed.

Lemma Qpower2_pos (e : Z) : (0 < 2 ^ e)%Q.
Proof. apply Qpower_0_lt. reflexivity. Qed.

Lemma Qpower2_shift (k e : Z) : (2 ^ (k - e) == 2 ^ k / 2 ^ e)%Q.
Proof. apply Qpower_minus. discriminate. Qed.

Lemma Qdiv_lt_pos (x y c : Q) : (0 < c)%Q -> (x < y)%Q -> (x / c < y / c)%Q.
Proof.
  intros Hc H. unfold Qdiv. apply Qmult_lt_compat_r; [|exact H].
  now apply Qinv_lt_0_compat.
Qed.

Lemma Qdiv_le_pos (x y c : Q) : (0 < c)%Q -> (x <= y)%Q -> (x / c <= y / c)%Q.
Proof.
  intros Hc H. unfold Qdiv. apply Qmult_le_compat_r; [exact H|].
  apply Qlt_le_weak. now apply Qinv_lt_0_compat.
Qed.

(** The significand that [binade] leaves is below [2 ^ 53], and at least
    [2 ^ 52] unless the number is subnormal. *)
Lemma binade_spec (q : Q) :
  ~ (q == 0)%Q ->
  (Qabs q / 2 ^ binade q < 2 ^ 53)%Q /\
  (-1074 < binade q -> (2 ^ 52 <= Qabs q / 2 ^ binade q)%Q).
Proof.
  intros Hq. unfold binade.
  set (a := Qabs q).
  assert (Ha : (0 < a)%Q).
  { apply Qnot_le_lt. intros Hle. apply Hq.
    pose proof (Qle_Qabs q) as H1. pose proof (Qle_Qabs (- q)) as H2.
    rewrite Qabs_opp in H2. fold a in H1, H2. lra. }
  set (N := Qnum a). set (D := Z.pos (Qden a)).
  assert (HN : 0 < N). { unfold Qlt in Ha. cbn in Ha. fold N in Ha. lia. }
  assert (HD : 0 < D) by (unfold D; lia).
  assert (Hrep : (a == inject_Z N / inject_Z D)%Q).
  { unfold N, D. rewrite <- Qmake_Qdiv. now destruct a. }
  destruct (Z.log2_spec N HN) as [HN1 HN2].
  destruct (Z.log2_spec D HD) as [HD1 HD2].
  pose proof (Z.log2_nonneg N) as HlN. pose proof (Z.log2_nonneg D) as HlD.
  set (ln := Z.log2 N) in *. set (ld := Z.log2 D) in *.
  assert (QN1 : (2 ^ ln <= inject_Z N)%Q).
  { change 2%Q with (inject_Z 2). rewrite <- Zpower_Qpower by lia.
    now rewrite <- Zle_Qle. }
  assert (QN2 : (inject_Z N < 2 ^ (ln + 1))%Q).
  { change 2%Q with (inject_Z 2). rewrite <- Zpower_Qpower by lia.
    rewrite <- Zlt_Qlt. unfold Z.succ in HN2. exact HN2. }
  assert (QD1 : (2 ^ ld <= inject_Z D)%Q).
  { change 2%Q with (inject_Z 2). rewrite <- Zpower_Qpower by lia.
    now rewrite <- Zle_Qle. }
  assert (QD2 : (inject_Z D < 2 ^ (ld + 1))%Q).
  { change 2%Q with (inject_Z 2). rewrite <- Zpower_Qpower by lia.
    rewrite <- Zlt_Qlt. unfold Z.succ in HD2. exact HD2. }
  pose proof (Qpower2_pos ln) as Pln. pose proof (Qpower2_pos ld) as Pld.
  pose proof (Qpower2_pos (ln + 1)) as Pln1.
  pose proof (Qpower2_pos (ld + 1)) as Pld1.
  assert (HDq : (0 < inject_Z D)%Q) by lra.
  (* a between consecutive powers of two, up to a factor 2 *)
  assert (Hx : (a * inject_Z D == inject_Z N)%Q)
    by (rewrite Hrep; field; lra).
  assert (Hup : (a * 2 ^ ld < 2 ^ (ln + 1))%Q) by nra.
  assert (Hdn : (2 ^ ln < a * 2 ^ (ld + 1))%Q) by nra.
  set (e0 := ln - ld - 52).
  assert (Hs1 : (a / 2 ^ e0 < 2 ^ 53)%Q).
  { apply Qlt_shift_div_r; [apply Qpower2_pos|].
    assert (Hp : (2 ^ 53 * 2 ^ e0 * 2 ^ ld == 2 ^ (ln + 1))%Q).
    { rewrite <- !Qpower_plus by discriminate. f_equiv. unfold e0. lia. }
    pose proof (Qpower2_pos e0). pose proof (Qpower2_pos 53).
    apply Qnot_le_lt. intros Hc.
    assert (2 ^ 53 * 2 ^ e0 * 2 ^ ld <= a * 2 ^ ld)%Q by nra. lra. }
  assert (Hs0 : (2 ^ 51 < a / 2 ^ e0)%Q).
  { apply Qlt_shift_div_l; [apply Qpower2_pos|].
    assert (Hp : (2 ^ 51 * 2 ^ e0 * 2 ^ (ld + 1) == 2 ^ ln)%Q).
    { rewrite <- !Qpower_plus by discriminate. f_equiv. unfold e0. lia. }
    pose proof (Qpower2_pos e0). pose proof (Qpower2_pos 51).
    apply Qnot_le_lt. intros Hc.
    assert (a * 2 ^ (ld + 1) <= 2 ^ 51 * 2 ^ e0 * 2 ^ (ld + 1))%Q by nra.
    lra. }
  (* one step of adjustment *)
  set (e1 := if Qltb (a / 2 ^ e0) (2 ^ 52) then e0 - 1 else e0).
  assert (He1 : (2 ^ 52 <= a / 2 ^ e1 /\ a / 2 ^ e1 < 2 ^ 53)%Q).
  { unfold e1. destruct (Qltb (a / 2 ^ e0) (2 ^ 52)) eqn:E.
    - apply Qltb_lt in E.
      assert (Hh : (a / 2 ^ (e0 - 1) == 2 * (a / 2 ^ e0))%Q).
      { rewrite Qpower2_shift. change (2 ^ 1)%Q with 2%Q.
        pose proof (Qpower2_pos e0). field. lra. }
      rewrite Hh.
      change (2 ^ 52)%Q with (2 * 2 ^ 51)%Q.
      change (2 ^ 53)%Q with (2 * 2 ^ 52)%Q in *.
      split; lra.
    - apply Qltb_ge in E. split; assumption. }
  destruct (Z.max_spec (-1074) e1) as [[Hlt ->]|[Hge ->]].
  - split; [apply He1|]. intros _. apply He1.
  - split; [|lia].
    eapply Qle_lt_trans; [|apply He1].
    pose proof (Qpower2_pos e1). pose proof (Qpower2_pos (-1074)).
    assert (2 ^ e1 <= 2 ^ (-1074))%Q
      by (apply Qpower_le_compat_l; [lia|lra]).
    apply Qle_shift_div_r; [assumption|].
    assert (Hxe : (a / 2 ^ e1 * 2 ^ e1 == a)%Q) by (field; lra).
    assert (0 < a / 2 ^ e1)%Q
      by (destruct He1; pose proof (Qpower2_pos 52); lra).
    nra.
Qed.

(** [to_float q] is the multiple of [2 ^ binade q] nearest to [q], the one
    with the even significand when [q] lies halfway between two of them. *)
Lemma to_float_nearest (q : Q) :
  let e := binade q in
  let m := py_round (q / 2 ^ e) in
  (to_float q == inject_Z m * 2 ^ e)%Q /\
  (Qabs (to_float q - q) <= 2 ^ e / 2)%Q /\
  ((Qabs (to_float q - q) == 2 ^ e / 2)%Q -> Z.even m = true).
Proof.
  intros e m. pose proof (Qpower2_pos e) as He.
  assert (Hval : (to_float q == inject_Z m * 2 ^ e)%Q).
  { unfold to_float. destruct (Qeq_bool q 0) eqn:E.
    - apply Qeq_bool_iff in E. subst m.
      assert (Hm : py_round (q / 2 ^ e) = 0).
      { assert (Hz : (q / 2 ^ e == 0)%Q) by (rewrite E; field; lra).
        unfold py_round. rewrite (Qfloor_comp _ _ Hz).
        change (Qfloor 0) with 0.
        replace (Qltb (q / 2 ^ e - inject_Z 0) 0.5) with true; [reflexivity|].
        symmetry. apply Qltb_lt. rewrite Hz. reflexivity. }
      rewrite Hm. change (inject_Z 0) with 0%Q. ring.
    - apply Qred_correct. }
  assert (Hq : (q == q / 2 ^ e * 2 ^ e)%Q) by (field; lra).
  assert (Herr : (to_float q - q == (inject_Z m - q / 2 ^ e) * 2 ^ e)%Q).
  { rewrite Hval. rewrite Hq at 1. ring. }
  assert (Habs : (Qabs (to_float q - q)
                  == Qabs (inject_Z m - q / 2 ^ e) * 2 ^ e)%Q).
  { rewrite Herr, Qabs_Qmult, (Qabs_pos (2 ^ e)) by lra. reflexivity. }
  split; [exact Hval|]. split.
  - rewrite Habs. pose proof (py_round_near (q / 2 ^ e)) as Hn. fold m in Hn.
    unfold Qdiv at 2. rewrite (Qmult_comm (2 ^ e)).
    apply Qmult_le_compat_r; [|lra]. exact Hn.
  - intros Htie. rewrite Habs in Htie.
    assert (Hhalf : (Qabs (inject_Z m - q / 2 ^ e) == 1 # 2)%Q).
    { apply (Qmult_inj_r _ _ (2 ^ e)); [lra|]. rewrite Htie. field. }
    subst m. set (x := (q / 2 ^ e)%Q) in *.
    pose proof (Qfloor_le x) as Hlo. pose proof (Qlt_floor x) as Hhi.
    rewrite inject_Z_plus in Hhi. change (inject_Z 1) with 1%Q in Hhi.
    destruct (Qlt_le_dec (x - inject_Z (Qfloor x)) (1 # 2)) as [Hl|Hl].
    + exfalso. unfold py_round in Hhalf.
      replace (Qltb (x - inject_Z (Qfloor x)) 0.5) with true in Hhalf
        by (symmetry; apply Qltb_lt; lra).
      rewrite Qabs_neg in Hhalf by lra. lra.
    + destruct (Qle_lt_or_eq _ _ Hl) as [Hgt|Heq].
      * exfalso. unfold py_round in Hhalf.
        replace (Qltb (x - inject_Z (Qfloor x)) 0.5) with false in Hhalf
          by (symmetry; apply Qltb_ge; lra).
        replace (Qltb 0.5 (x - inject_Z (Qfloor x))) with true in Hhalf
          by (symmetry; apply Qltb_lt; lra).
        rewrite inject_Z_plus in Hhalf.
        change (inject_Z 1) with 1%Q in Hhalf.
        rewrite Qabs_pos in Hhalf by lra. lra.
      * apply py_round_tie. symmetry. exact Heq.
Qed.

(** The literal 0.1, three rewards (0.30000000000000004 in Python), a tie
    resolved to the even significand on either side, and a subnormal. *)
Example to_float_values :
  to_float 0.1 = (3602879701896397 # 36028797018963968)%Q /\
  Nat.iter 3 (fun f => float_add f (to_float 0.1)) 0%Q =
    (1351079888211149 # 4503599627370496)%Q /\
  to_float (inject_Z (2 ^ 53 + 1)) = inject_Z (2 ^ 53) /\
  to_float (inject_Z (2 ^ 53 + 3)) = inject_Z (2 ^ 53 + 4) /\
  to_float (3 * 2 ^ (-1075)) = Qred (2 * 2 ^ (-1074)) /\
  float_add (to_float 0.1) 5 = to_float 5.1 /\
  float_sub (to_float 0.1) 1 = to_float (-0.9).
Proof. vm_compute. repeat split. Qed.

(** ** The physics of the bird *)

(** C8.  Whatever the state of the bird, [jump] sets the vertical velocity to
    the impulse -10.5, the tick counter to 0 and the reference height to the
    current vertical position; position, tilt and image are left alone. *)
Theorem jump_sets_impulse (b : Bird.t) :
  Bird.vel (Bird.jump b) = Bird.JUMP_VELOCITY /\
  Bird.JUMP_VELOCITY = (-10.5)%Q /\
  Bird.tick_count (Bird.jump b) = 0 /\
  Bird.height (Bird.jump b) = Bird.y b /\
  Bird.y (Bird.jump b) = Bird.y b /\
  Bird.x (Bird.jump b) = Bird.x b.
Proof. repeat split. Qed.

Lemma terminal_upper (d : Q) : (Bird.terminal d <= 16)%Q.
Proof.
  unfold Bird.terminal. destruct (Qle_bool 16 d) eqn:E.
  - apply Qle_bool_iff in E.
    assert (H : (d / Qabs d * 16 == 16)%Q).
    { rewrite Qabs_pos by lra. field. lra. }
    rewrite H. lra.
  - apply Qle_bool_gt in E. lra.
Qed.

Lemma terminal_clamped (d : Q) : (16 <= d)%Q -> (Bird.terminal d == 16)%Q.
Proof.
  intros H. unfold Bird.terminal.
  destruct (Qle_bool 16 d) eqn:E.
  - rewrite Qabs_pos by lra. field. lra.
  - apply Qle_bool_gt in E. lra.
Qed.

Lemma terminal_below (d : Q) : (d < 16)%Q -> Bird.terminal d = d.
Proof.
  intros H. unfold Bird.terminal.
  destruct (Qle_bool 16 d) eqn:E; [|reflexivity].
  apply Qle_bool_iff in E. lra.
Qed.

Lemma boost_negative (d : Q) : (d < 0)%Q -> Bird.boost d = (d - 2)%Q.
Proof.
  intros H. unfold Bird.boost. apply Qltb_lt in H. now rewrite H.
Qed.

Lemma boost_nonnegative (d : Q) : (0 <= d)%Q -> Bird.boost d = d.
Proof.
  intros H. unfold Bird.boost. apply Qltb_ge in H. now rewrite H.
Qed.

Lemma boost_le (d : Q) : (Bird.boost d <= d)%Q.
Proof.
  unfold Bird.boost. destruct (Qltb d 0); lra.
Qed.

(** C2, as stated, fails: one tick after a jump the displacement before the
    boost is -15, inside [-16, 16], and the displacement added to the
    position is -17. *)
Lemma risen_displacement_exceeds_16 :
  (Bird.terminal
     (Bird.raw_displacement (Bird.vel risen) (Bird.tick_count risen + 1))
   == -15)%Q /\
  (Bird.displacement risen == -17)%Q /\
  (Bird.y (Bird.move risen) == Bird.y risen - 17)%Q /\
  ~ (Qabs (Bird.displacement risen) <= 16)%Q.
Proof.
  assert (Hd : (Bird.displacement risen == -17)%Q) by reflexivity.
  repeat split; try reflexivity.
  rewrite Hd. intros H. revert H. apply Qlt_not_le. reflexivity.
Qed.

(** C2, amended.  The displacement [move] adds to the vertical position is
    at most 16: a displacement of 16 or more becomes exactly 16, one in
    [0, 16) is added as it is, and a negative one has the boost 2
    subtracted, which for a displacement in [-16, 0) gives a value in
    [-18, -2). *)
Theorem move_displacement_capped (b : Bird.t) :
  let raw := Bird.raw_displacement (Bird.vel b) (Bird.tick_count b + 1) in
  Bird.y (Bird.move b) = (Bird.y b + Bird.displacement b)%Q /\
  (Bird.displacement b <= 16)%Q /\
  ((16 <= raw)%Q -> (Bird.displacement b == 16)%Q) /\
  ((0 <= raw)%Q -> (raw < 16)%Q -> Bird.displacement b = raw) /\
  ((-16 <= raw)%Q -> (raw < 0)%Q ->
     Bird.displacement b = (raw - 2)%Q /\
     (-18 <= Bird.displacement b)%Q /\ (Bird.displacement b < -2)%Q).
Proof.
  intros raw. unfold Bird.displacement. fold raw.
  split; [reflexivity|]. split; [|split; [|split]].
  - eapply Qle_trans; [apply boost_le | apply terminal_upper].
  - intros H. unfold Bird.boost.
    pose proof (terminal_clamped raw H) as Ht.
    destruct (Qltb (Bird.terminal raw) 0) eqn:E; [|exact Ht].
    apply Qltb_lt in E. lra.
  - intros H0 H16. rewrite terminal_below by exact H16.
    now apply boost_nonnegative.
  - intros Hlo Hneg. rewrite terminal_below by lra.
    rewrite boost_negative by exact Hneg. split; [reflexivity|]. lra.
Qed.

Lemma move_displacement_capped_witness :
  Bird.displacement risen = (Bird.raw_displacement (Bird.vel risen)
                               (Bird.tick_count risen + 1) - 2)%Q /\
  (Bird.displacement risen <= 16)%Q.
Proof.
  pose proof (move_displacement_capped risen) as (_ & Hle & _ & _ & Hneg).
  split; [|exact Hle].
  apply Hneg; vm_compute; [discriminate | reflexivity].
Defined.

(** ** The pipes *)

Lemma randrange_bounds (lo hi raw : Z) :
  lo < hi -> lo <= randrange lo hi raw < hi.
Proof.
  intros H. unfold randrange.
  pose proof (Z.mod_pos_bound raw (hi - lo)). lia.
Qed.

(** C7.  Whatever the random generator yields, [set_height] leaves the
    start of the gap in [50, 450]; the top pipe is drawn from the gap start
    minus the height of its image, so that it ends where the gap starts; the
    bottom pipe starts at the gap start plus 200, where the gap ends; a gap
    start of 300 puts the bottom pipe at 500. *)
Theorem set_height_gap (raw : Z) (p0 : Pipe.t) (x0 : Z) (pipe_img : Surface) :
  let p := Pipe.set_height raw p0 in
  50 <= Pipe.height p <= 450 /\
  Pipe.top p = Pipe.height p - get_height (Pipe.PIPE_TOP p) /\
  Pipe.top p + get_height (Pipe.PIPE_TOP p) = Pipe.height p /\
  Pipe.bottom p = Pipe.height p + 200 /\
  Pipe.height p < Pipe.bottom p /\
  50 <= Pipe.height (Pipe.init x0 pipe_img raw) <= 450 /\
  Pipe.x (Pipe.init x0 pipe_img raw) = x0 /\
  Pipe.passed (Pipe.init x0 pipe_img raw) = false /\
  Pipe.height (Pipe.init 700 pipe_img 250) = 300 /\
  Pipe.top (Pipe.init 700 pipe_img 250) = 300 - get_height pipe_img /\
  Pipe.bottom (Pipe.init 700 pipe_img 250) = 500.
Proof.
  assert (Hr : 50 <= randrange Pipe.MIN_HEIGHT Pipe.MAX_HEIGHT raw < 450)
    by (apply randrange_bounds; reflexivity).
  cbn. unfold Pipe.GAP. repeat split; try lia; reflexivity.
Qed.

(** ** Removing a bird *)

Lemma pop_in_range {A : Type} (l : list A) (i : Z) :
  0 <= i < Z.of_nat (length l) -> pop l i = Ok (delete (Z.to_nat i) l).
Proof.
  intros H. unfold pop.
  destruct (i <? 0) eqn:E; [apply Z.ltb_lt in E; lia|].
  replace (0 <=? i) with true by (symmetry; apply Z.leb_le; lia).
  replace (i <? Z.of_nat (length l)) with true
    by (symmetry; apply Z.ltb_lt; lia).
  reflexivity.
Qed.

Lemma remove_bird_in_range {A B C : Type} (i : nat)
    (birds : list A) (networks : list B) (genomes : list C) :
  length networks = length birds -> length genomes = length birds ->
  (i < length birds)%nat ->
  Trainer._remove_bird (Z.of_nat i) birds networks genomes =
  Ok (delete i birds, delete i networks, delete i genomes).
Proof.
  intros Hn Hg Hi. unfold Trainer._remove_bird.
  replace (0 <=? Z.of_nat i) with true by (symmetry; apply Z.leb_le; lia).
  replace (Z.of_nat i <? Z.of_nat (length birds)) with true
    by (symmetry; apply Z.ltb_lt; lia).
  cbn -[pop].
  rewrite !pop_in_range by lia. rewrite Nat2Z.id. reflexivity.
Qed.

(** C1.  For three lists of equal length and an index [i] in range,
    [_remove_bird] returns the three lists without their element at [i]:
    they have equal length again, every position below [i] holds what it
    held, and every position from [i] on holds, in all three lists, what
    position [j + 1] held. *)
Theorem remove_bird_keeps_correspondence {A B C : Type} (i : Z)
    (birds : list A) (networks : list B) (genomes : list C) :
  length networks = length birds -> length genomes = length birds ->
  0 <= i < Z.of_nat (length birds) ->
  exists birds' networks' genomes',
    Trainer._remove_bird i birds networks genomes =
      Ok (birds', networks', genomes') /\
    S (length birds') = length birds /\
    length networks' = length birds' /\
    length genomes' = length birds' /\
    forall j : nat,
      ((j < Z.to_nat i)%nat ->
         birds' !! j = birds !! j /\
         networks' !! j = networks !! j /\
         genomes' !! j = genomes !! j) /\
      ((Z.to_nat i <= j)%nat ->
         birds' !! j = birds !! S j /\
         networks' !! j = networks !! S j /\
         genomes' !! j = genomes !! S j).
Proof.
  intros Hn Hg Hi.
  exists (delete (Z.to_nat i) birds), (delete (Z.to_nat i) networks),
         (delete (Z.to_nat i) genomes).
  split.
  { rewrite <- (remove_bird_in_range (Z.to_nat i)) by lia.
    now rewrite Z2Nat.id by lia. }
  rewrite !length_delete by (apply lookup_lt_is_Some; lia).
  repeat split; try lia.
  - now apply list_lookup_delete_lt.
  - now apply list_lookup_delete_lt.
  - now apply list_lookup_delete_lt.
  - now apply list_lookup_delete_ge.
  - now apply list_lookup_delete_ge.
  - now apply list_lookup_delete_ge.
Qed.

Lemma remove_bird_keeps_correspondence_witness :
  exists birds' networks' genomes',
    Trainer._remove_bird 1 [10; 11; 12] [20; 21; 22] [30; 31; 32] =
      Ok (birds', networks', genomes') /\
    birds' !! 1%nat = Some 12 /\ networks' !! 1%nat = Some 22 /\
    genomes' !! 1%nat = Some 32.
Proof.
  destruct (remove_bird_keeps_correspondence 1
              [10; 11; 12] [20; 21; 22] [30; 31; 32])
    as (b & n & g & Heq & _ & _ & _ & Hj);
    [reflexivity | reflexivity | simpl; lia |].
  exists b, n, g. split; [exact Heq|].
  destruct (Hj 1%nat) as [_ Hge].
  destruct Hge as (Hb & Hn & Hg); [simpl; lia|].
  rewrite Hb, Hn, Hg. repeat split.
Defined.

(** C10.  For an index below 0, or at or beyond the number of birds,
    [_remove_bird] returns the three lists as they were, whatever they
    hold, and raises nothing. *)
Theorem remove_bird_out_of_range {A B C : Type} (i : Z)
    (birds : list A) (networks : list B) (genomes : list C) :
  i < 0 \/ Z.of_nat (length birds) <= i ->
  Trainer._remove_bird i birds networks genomes =
    Ok (birds, networks, genomes).
Proof.
  intros H. unfold Trainer._remove_bird.
  destruct ((0 <=? i) && (i <? Z.of_nat (length birds))) eqn:E;
    [|reflexivity].
  apply andb_true_iff in E as [E1 E2].
  apply Z.leb_le in E1. apply Z.ltb_lt in E2. lia.
Qed.

Lemma remove_bird_out_of_range_witness :
  Trainer._remove_bird (-1) [10; 11] [20] [30; 31; 32] =
    Ok ([10; 11], [20], [30; 31; 32]) /\
  Trainer._remove_bird 2 [10; 11] [20] [30; 31; 32] =
    Ok ([10; 11], [20], [30; 31; 32]).
Proof.
  split.
  - apply (remove_bird_out_of_range (-1)). left. lia.
  - apply (remove_bird_out_of_range 2). right. simpl. lia.
Defined.

(** ** Interrupted training *)

(** C9.  When [population.run] ends with [KeyboardInterrupt] and the trainer
    holds a best genome, [train] logs the interruption, saves that genome as
    [interrupted_best.pickle] and raises [KeyboardInterrupt] again; when the
    save fails with an [Exception], the failure is logged, nothing else is
    raised in its place and the interruption is still what the caller
    receives.  Without a best genome nothing is saved. *)
Theorem interrupt_saves_best {Population : Type}
    (neat_setup : string -> result Population)
    (population_run : Population -> Trainer.t -> Z -> result genome * Trainer.t)
    (dump : string -> genome -> option exn)
    (self self' : Trainer.t) (path : string) (max_generations : option Z)
    (w : World) (population : Population) :
  neat_setup path = Ok population ->
  population_run population self
    (match max_generations with
     | None => Config.MAX_GENERATIONS
     | Some n => n
     end) = (Raise KeyboardInterrupt, self') ->
  let file := "checkpoints/interrupted_best.pickle"%string in
  let w1 :=
    logged Info_interrupted
      (logged (Info_starting (match max_generations with
                              | None => Config.MAX_GENERATIONS
                              | Some n => n
                              end)) w) in
  let run := train neat_setup population_run dump self path max_generations w in
  (forall g, Trainer.best_genome self' = Some g -> dump file g = None ->
     run = (Raise KeyboardInterrupt, self',
            logged (Info_saved file)
              {| log := log w1; saved := saved w ++ [(file, g)] |})) /\
  (forall g e, Trainer.best_genome self' = Some g -> dump file g = Some e ->
     is_Exception e = true ->
     run = (Raise KeyboardInterrupt, self',
            logged (Error_save_failed e) w1)) /\
  (Trainer.best_genome self' = None ->
     run = (Raise KeyboardInterrupt, self', w1)).
Proof.
  intros Hsetup Hrun file w1 run. subst run. unfold train.
  rewrite Hsetup, Hrun. cbn -[get_checkpoint_path].
  repeat split.
  - intros g Hg Hd. rewrite Hg. unfold _save_genome.
    change (get_checkpoint_path ("interrupted_best" +:+ ".pickle")) with file.
    rewrite Hd. reflexivity.
  - intros g e Hg Hd He. rewrite Hg. unfold _save_genome.
    change (get_checkpoint_path ("interrupted_best" +:+ ".pickle")) with file.
    rewrite Hd, He. reflexivity.
  - intros Hg. rewrite Hg. reflexivity.
Qed.

Lemma interrupt_saves_best_witness :
  train (fun _ => Ok tt)
        (fun _ _ _ => (Raise KeyboardInterrupt, interrupted_trainer))
        (fun _ _ => Some (OSError "No space left on device"))
        Trainer.init "config-feedforward.txt" None
        {| log := []; saved := [] |} =
  (Raise KeyboardInterrupt, interrupted_trainer,
   {| log := [Info_starting 50; Info_interrupted;
              Error_save_failed (OSError "No space left on device")];
      saved := [] |}).
Proof.
  pose proof (interrupt_saves_best (fun _ => Ok tt)
                (fun _ _ _ => (Raise KeyboardInterrupt, interrupted_trainer))
                (fun _ _ => Some (OSError "No space left on device"))
                Trainer.init interrupted_trainer "config-feedforward.txt"
                None {| log := []; saved := [] |} tt
                eq_refl eq_refl) as (_ & Hfail & _).
  apply (Hfail 4%nat (OSError "No space left on device"));
    reflexivity.
Defined.

(** ** The decisions of the birds *)

Lemma getitem_Some {A : Type} (l : list A) (i : nat) (a : A) :
  l !! i = Some a -> getitem l i = Ok a.
Proof. intros H. unfold getitem. now rewrite H. Qed.

Lemma update_fitness_Some (g : genome) (op : Q -> Q) (fit : fitness_store)
    (f : Q) :
  fit !! g = Some f ->
  Trainer.update_fitness g op fit = Ok (<[g := op f]> fit).
Proof. intros H. unfold Trainer.update_fitness. now rewrite H. Qed.

Lemma is_Some_insert_store (fit : fitness_store) (g h : genome) (q : Q) :
  is_Some (fit !! g) ->
  is_Some (<[g := q]> fit !! h) <-> is_Some (fit !! h).
Proof.
  intros Hg. destruct (decide (g = h)) as [->|Hne].
  - rewrite lookup_insert_eq. split; [intros _; exact Hg | eauto].
  - now rewrite lookup_insert_ne.
Qed.

Lemma move_birds_from (pipes : list Pipe.t) (k : nat) (p : Pipe.t)
    (networks : list Net) (genome_list : list genome) :
  pipes !! k = Some p ->
  (forall net v, net ∈ networks -> net v <> []) ->
  forall (todo : list Bird.t) (i : nat) (fit : fitness_store),
    length networks = (i + length todo)%nat ->
    length genome_list = (i + length todo)%nat ->
    (forall g, g ∈ genome_list -> is_Some (fit !! g)) ->
    exists birds' fit',
      Trainer.move_birds i todo networks genome_list pipes k fit =
        Ok (birds', fit') /\
      length birds' = length todo /\
      (forall g, is_Some (fit' !! g) <-> is_Some (fit !! g)) /\
      forall j bird, todo !! j = Some bird ->
        exists net o,
          networks !! (i + j)%nat = Some net /\
          net (Trainer.sensors (Bird.move bird) p) !! 0%nat = Some o /\
          birds' !! j =
            Some (if Qltb 0.5 o then Bird.jump (Bird.move bird)
                  else Bird.move bird).
Proof.
  intros Hp Hout todo.
  induction todo as [|bird rest IH]; intros i fit Hn Hg Hfit.
  - exists [], fit. repeat split; try tauto. intros j b Hj. discriminate.
  - cbn [length] in Hn, Hg.
    destruct (lookup_lt_is_Some_2 genome_list i) as [g Hgi]; [lia|].
    destruct (lookup_lt_is_Some_2 networks i) as [net Hni]; [lia|].
    destruct (Hfit g) as [f Hf]; [eapply list_elem_of_lookup_2; eauto|].
    assert (Hnet : net ∈ networks) by (eapply list_elem_of_lookup_2; eauto).
    destruct (net (Trainer.sensors (Bird.move bird) p)) as [|o os] eqn:Eo;
      [exfalso; eapply Hout; eauto|].
    destruct (IH (S i) (<[g := (float_add f (to_float 0.1))]> fit))
      as (birds' & fit' & Hrun & Hlen & Hdom & Hall); try lia.
    { intros h Hh. apply is_Some_insert_store; eauto. }
    eexists _, fit'. split; [|split; [|split]].
    + cbn [Trainer.move_birds].
      rewrite (getitem_Some _ _ _ Hgi). cbn [mbind result_bind].
      rewrite (update_fitness_Some _ _ _ _ Hf). cbn [mbind result_bind].
      rewrite (getitem_Some _ _ _ Hni). cbn [mbind result_bind].
      rewrite (getitem_Some _ _ _ Hp). cbn [mbind result_bind].
      rewrite Eo. cbn [getitem lookup list_lookup mbind result_bind].
      rewrite Hrun. cbn [mbind result_bind]. reflexivity.
    + cbn [length]. now rewrite Hlen.
    + intros h. rewrite Hdom. apply is_Some_insert_store. eauto.
    + intros [|j] b Hj.
      * cbn in Hj. injection Hj as <-. exists net, o.
        rewrite Nat.add_0_r, Eo. repeat split; assumption.
      * cbn in Hj. destruct (Hall j b Hj) as (net' & o' & H1 & H2 & H3).
        exists net', o'. rewrite <- Nat.add_succ_comm. repeat split; assumption.
Qed.

Lemma select_pipe_second (birds : list Bird.t) (pipes : list Pipe.t) :
  Trainer.select_pipe birds pipes = 1%nat <->
  exists b0 bs p0 p1 ps,
    birds = b0 :: bs /\ pipes = p0 :: p1 :: ps /\
    Pipe.x p0 + get_width (Pipe.PIPE_TOP p0) < Bird.x b0.
Proof.
  unfold Trainer.select_pipe. split.
  - destruct birds as [|b0 bs]; [discriminate|].
    destruct pipes as [|p0 [|p1 ps]]; try discriminate.
    destruct (_ <? _) eqn:E; [|discriminate].
    intros _. apply Z.ltb_lt in E. now exists b0, bs, p0, p1, ps.
  - intros (b0 & bs & p0 & p1 & ps & -> & -> & H).
    apply Z.ltb_lt in H. now rewrite H.
Qed.

Lemma select_pipe_in_range (birds : list Bird.t) (pipes : list Pipe.t) :
  pipes <> [] -> is_Some (pipes !! Trainer.select_pipe birds pipes).
Proof.
  intros Hne. unfold Trainer.select_pipe.
  destruct pipes as [|p0 [|p1 ps]]; [congruence| |];
    destruct birds as [|b0 bs]; cbn; eauto.
  destruct (_ <? _); cbn; eauto.
Qed.

(** C6.  In the first phase of a tick the targeted pipe is the first one,
    unless there is a second one and the x of the first bird exceeds the x
    of the first pipe plus the width of its image, in which case it is the
    second; every bird, once moved, has its own network activated on (its
    y, the absolute distance from y to the height of the targeted pipe, the
    absolute distance from y to the bottom of the targeted pipe) and jumps
    exactly when the first output exceeds 0.5. *)
Theorem birds_fed_sensors (birds : list Bird.t) (networks : list Net)
    (genome_list : list genome) (pipes : list Pipe.t) (fit : fitness_store) :
  length networks = length birds ->
  length genome_list = length birds ->
  (forall g, g ∈ genome_list -> is_Some (fit !! g)) ->
  (forall net v, net ∈ networks -> net v <> []) ->
  pipes <> [] ->
  let pipe_index := Trainer.select_pipe birds pipes in
  (pipe_index = 1%nat <->
     exists b0 bs p0 p1 ps,
       birds = b0 :: bs /\ pipes = p0 :: p1 :: ps /\
       Pipe.x p0 + get_width (Pipe.PIPE_TOP p0) < Bird.x b0) /\
  (pipe_index <> 1%nat -> pipe_index = 0%nat) /\
  exists p birds' fit',
    pipes !! pipe_index = Some p /\
    Trainer.move_birds 0 birds networks genome_list pipes pipe_index fit =
      Ok (birds', fit') /\
    length birds' = length birds /\
    forall i bird, birds !! i = Some bird ->
      let moved := Bird.move bird in
      exists net o,
        networks !! i = Some net /\
        net (Bird.y moved,
             Qabs (Bird.y moved - inject_Z (Pipe.height p)),
             Qabs (Bird.y moved - inject_Z (Pipe.bottom p))) !! 0%nat
          = Some o /\
        ((0.5 < o)%Q -> birds' !! i = Some (Bird.jump moved)) /\
        ((o <= 0.5)%Q -> birds' !! i = Some moved).
Proof.
  intros Hn Hg Hfit Hout Hne pipe_index.
  split; [apply select_pipe_second|]. split.
  { subst pipe_index. unfold Trainer.select_pipe.
    destruct birds as [|b0 bs]; [reflexivity|].
    destruct pipes as [|p0 [|p1 ps]]; try reflexivity.
    destruct (_ <? _); [congruence | reflexivity]. }
  destruct (select_pipe_in_range birds pipes Hne) as [p Hp].
  destruct (move_birds_from pipes pipe_index p networks genome_list Hp Hout
              birds 0%nat fit) as (birds' & fit' & Hrun & Hlen & _ & Hall);
    try assumption.
  exists p, birds', fit'. repeat split; try assumption.
  intros i bird Hi moved.
  destruct (Hall i bird Hi) as (net & o & H1 & H2 & H3).
  exists net, o. repeat split; try assumption.
  - intros Hlt. apply Qltb_lt in Hlt. now rewrite Hlt in H3.
  - intros Hle. apply Qltb_ge in Hle. now rewrite Hle in H3.
Qed.

Lemma birds_fed_sensors_witness :
  exists p birds' fit',
    [GameEngine.create_pipe game0 700 250] !! 0%nat = Some p /\
    Trainer.move_birds 0 [GameEngine.create_bird game0] [create_net env0 7%nat]
      [7%nat] [GameEngine.create_pipe game0 700 250] 0
      ({[7%nat := 0%Q]} : fitness_store) = Ok (birds', fit') /\
    length birds' = 1%nat.
Proof.
  destruct (birds_fed_sensors [GameEngine.create_bird game0]
              [create_net env0 7%nat] [7%nat]
              [GameEngine.create_pipe game0 700 250]
              ({[7%nat := 0%Q]} : fitness_store))
    as (_ & _ & p & birds' & fit' & Hp & Hrun & Hlen & _).
  - reflexivity.
  - reflexivity.
  - intros g Hg. apply list_elem_of_singleton in Hg. subst g.
    rewrite lookup_singleton_eq. eauto.
  - intros net v Hnet. apply list_elem_of_singleton in Hnet. subst net.
    discriminate.
  - discriminate.
  - exists p, birds', fit'. repeat split; assumption.
Defined.

(** ** Pipes out of reach *)

Lemma grid_spec (w h : nat) (p : Z * Z) :
  p ∈ grid w h -> 0 <= p.1 < Z.of_nat w /\ 0 <= p.2 < Z.of_nat h.
Proof.
  unfold grid. intros Hp.
  apply list_elem_of_bind in Hp as (px & Hp & Hpx).
  apply list_elem_of_bind in Hp as (py & Hp & Hpy).
  apply list_elem_of_singleton in Hp. subst p.
  apply elem_of_seq in Hpx. apply elem_of_seq in Hpy. cbn. lia.
Qed.

Lemma find_none_all {A : Type} (f : A -> bool) (l : list A) :
  (forall a, a ∈ l -> f a = false) -> find f l = None.
Proof.
  induction l as [|a l IH]; intros H; [reflexivity|].
  cbn. rewrite (H a) by constructor. apply IH.
  intros b Hb. apply H. now constructor.
Qed.

Lemma overlap_apart (m other : Mask) (ox oy : Z) :
  Z.of_nat (mask_w m) <= ox -> overlap m other (ox, oy) = None.
Proof.
  intros H. unfold overlap. apply find_none_all.
  intros p Hp. apply grid_spec in Hp as [Hx _]. cbn.
  unfold get_at at 2.
  replace (0 <=? p.1 - ox) with false by (symmetry; apply Z.leb_gt; lia).
  cbn. apply andb_false_r.
Qed.

Lemma collide_apart (p : Pipe.t) (bird : Bird.t) :
  Bird.x bird + get_width (Bird.img bird) <= Pipe.x p ->
  Pipe.collide p bird = false.
Proof.
  intros H. unfold Pipe.collide.
  rewrite !overlap_apart; [reflexivity | |];
    unfold Bird.get_mask, from_surface, get_width in *; cbn; lia.
Qed.

(** ** The fall of a bird that never jumps *)

Lemma Qle_bool_proper (a a' b b' : Q) :
  (a == a')%Q -> (b == b')%Q -> Qle_bool a b = Qle_bool a' b'.
Proof.
  intros Ha Hb. destruct (Qle_bool a' b') eqn:E.
  - apply Qle_bool_iff in E. apply Qle_bool_iff. lra.
  - apply Qle_bool_gt in E. apply Qle_bool_gt. lra.
Qed.

Lemma Qltb_proper (a a' b b' : Q) :
  (a == a')%Q -> (b == b')%Q -> Qltb a b = Qltb a' b'.
Proof.
  intros Ha Hb. unfold Qltb. f_equal. now apply Qle_bool_proper.
Qed.

Lemma raw_fall (tc : Z) :
  (Bird.raw_displacement 0 tc == 1.5 * inject_Z tc * inject_Z tc)%Q.
Proof.
  unfold Bird.raw_displacement, Bird.GRAVITY.
  change (inject_Z tc ^ 2)%Q with (inject_Z tc * inject_Z tc)%Q.
  field.
Qed.

Lemma displacement_fall (n : nat) (b : Bird.t) :
  Bird.vel b = 0%Q -> Bird.tick_count b = Z.of_nat n ->
  (Bird.displacement b == fall_y (S n) - fall_y n)%Q.
Proof.
  intros Hv Ht. unfold Bird.displacement. rewrite Hv, Ht.
  destruct n as [|[|[|k]]]; try reflexivity.
  assert (H4 : (4 <= inject_Z (Z.of_nat (S (S (S k))) + 1))%Q).
  { change 4%Q with (inject_Z 4). rewrite <- Zle_Qle. lia. }
  assert (Hraw :
    (16 <= Bird.raw_displacement 0 (Z.of_nat (S (S (S k))) + 1))%Q).
  { rewrite raw_fall. nra. }
  pose proof (terminal_clamped _ Hraw) as Hterm.
  rewrite boost_nonnegative by lra.
  rewrite Hterm. cbn [fall_y].
  rewrite (Nat2Z.inj_succ k). unfold Z.succ. rewrite inject_Z_plus.
  change (inject_Z 1) with 1%Q. lra.
Qed.

Lemma fall_y_ge (n : nat) : (350 <= fall_y n)%Q.
Proof.
  destruct n as [|[|[|k]]]; cbn [fall_y]; try lra.
  assert (0 <= inject_Z (Z.of_nat k))%Q.
  { change 0%Q with (inject_Z 0). rewrite <- Zle_Qle. lia. }
  lra.
Qed.

Lemma draw_keeps (P : Surface -> Prop) (b : Bird.t) :
  P (Bird.img b) -> P (Bird.images b).1.1 -> P (Bird.images b).1.2 ->
  P (Bird.images b).2 -> P (Bird.img (Bird.draw b)).
Proof.
  intros H H0 H1 H2. unfold Bird.draw.
  repeat match goal with
         | |- context [if ?c then _ else _] => destruct c
         end; cbn; assumption.
Qed.

Lemma draw_frame (b : Bird.t) :
  Bird.x (Bird.draw b) = Bird.x b /\ Bird.y (Bird.draw b) = Bird.y b /\
  Bird.vel (Bird.draw b) = Bird.vel b /\
  Bird.tick_count (Bird.draw b) = Bird.tick_count b /\
  Bird.images (Bird.draw b) = Bird.images b /\
  Bird.height (Bird.draw b) = Bird.height b /\
  Bird.tilt (Bird.draw b) = Bird.tilt b.
Proof.
  unfold Bird.draw.
  repeat match goal with
         | |- context [if ?c then _ else _] => destruct c
         end; cbn; repeat split.
Qed.

Section Faller.

Variables (env : Env) (game : GameEngine.t) (g : genome) (h : nat).

Hypothesis Hsprites :
  sprite_fits h (GameEngine.bird_images game).1.1 /\
  sprite_fits h (GameEngine.bird_images game).1.2 /\
  sprite_fits h (GameEngine.bird_images game).2.
Hypothesis Hnet : never_jumps (create_net env g).

Lemma falling_tick (n : nat) (s : Trainer.state) :
  falling env game g h n s -> (n < 26)%nat ->
  exists s',
    Trainer.tick env game s = Ok s' /\
    if hits_floor h (S n) then fallen g (S n) s'
    else falling env game g h (S n) s'.
Proof.
  intros [ (b & Hb & Hx & Hv & Ht & Hy & Him & Hfit) Hnets Hgl
           Hf (p & Hp & Hpx & Hpp) Hpolls Hscore ] Hn.
  destruct s as [birds networks genome_list fit pipes floor score polls draws].
  cbn in Hb, Hnets, Hgl, Hf, Hp, Hpolls, Hscore. subst.
  destruct (Hnet (Trainer.sensors (Bird.move b) p)) as (o & os & Ho & Hole).
  assert (Hcol : Pipe.collide (Pipe.move p) (Bird.move b) = false).
  { apply collide_apart. destruct Hfit as [_ Hw].
    cbn. unfold get_width. unfold Pipe.VEL. lia. }
  assert (Hjump : Qltb 0.5 o = false) by now apply Qltb_ge.
  assert (Hy1 : (Bird.y (Bird.move b) == fall_y (S n))%Q).
  { change (Bird.y (Bird.move b)) with (Bird.y b + Bird.displacement b)%Q.
    rewrite (displacement_fall n b Hv Ht). lra. }
  assert (Hoob : Trainer.out_of_bounds (Bird.move b) = hits_floor h (S n)).
  { unfold Trainer.out_of_bounds, hits_floor.
    replace (Qltb (Bird.y (Bird.move b)) (-50)) with false.
    2:{ symmetry. apply Qltb_ge. pose proof (fall_y_ge (S n)). lra. }
    rewrite orb_false_r. apply Qle_bool_proper; [reflexivity|].
    destruct Hfit as [Hh _]. change (Bird.img (Bird.move b)) with (Bird.img b).
    unfold get_height. rewrite Hh, Hy1. reflexivity. }
  assert (Hpass : negb (Pipe.passed (Pipe.move p)) &&
                  (Pipe.x (Pipe.move p) <? Bird.x (Bird.move b)) = false).
  { apply andb_false_iff. right. apply Z.ltb_ge. cbn. unfold Pipe.VEL. lia. }
  assert (Hoff : Pipe.is_off_screen (Pipe.move p) = false).
  { unfold Pipe.is_off_screen. apply Z.ltb_ge. cbn.
    unfold get_width, Pipe.VEL. lia. }
  assert (Hrun : Trainer.tick env game
            {| Trainer.birds := [b]; Trainer.networks := [create_net env g];
               Trainer.genome_list := [g]; Trainer.fitness := fit;
               Trainer.pipes := [p]; Trainer.floor := floor;
               Trainer.score := 0; Trainer.polls := n;
               Trainer.draws := draws |} =
          '(birds5, networks5, genome_list5) ←
             Trainer.check_bounds 1 [Bird.move b] [create_net env g] [g];
          Ok {| Trainer.birds := GameEngine.draw_window birds5;
                Trainer.networks := networks5;
                Trainer.genome_list := genome_list5;
                Trainer.fitness := <[g := survival (S n)]> fit;
                Trainer.pipes := [Pipe.move p];
                Trainer.floor := Base.move floor;
                Trainer.score := 0; Trainer.polls := S n;
                Trainer.draws := draws |}).
  { unfold Trainer.tick.
    cbn [Trainer.birds Trainer.networks Trainer.genome_list Trainer.fitness
         Trainer.pipes Trainer.floor Trainer.score Trainer.polls
         Trainer.draws Trainer.select_pipe Trainer.move_birds].
    cbn [getitem lookup list_lookup mbind result_bind].
    rewrite (update_fitness_Some _ _ _ _ Hf).
    cbn [mbind result_bind]. rewrite Ho.
    cbn [getitem lookup list_lookup mbind result_bind]. rewrite Hjump.
    cbn [Trainer.process_pipes length Trainer.check_collisions
         lookup list_lookup mbind result_bind].
    rewrite Hcol.
    cbn [Trainer.process_pipes length Trainer.check_collisions
         lookup list_lookup mbind result_bind].
    rewrite Hpass, Hoff. reflexivity. }
  rewrite Hrun. clear Hrun.
  cbn [Trainer.check_bounds getitem lookup list_lookup mbind result_bind].
  rewrite Hoob.
  assert (Hfit' : <[g := survival (S n)]> fit !! g = Some (survival (S n)))
    by apply lookup_insert_eq.
  destruct (hits_floor h (S n)).
  - eexists. split; [reflexivity|]. split; try reflexivity. exact Hfit'.
  - eexists. split; [reflexivity|]. split; try reflexivity.
    + exists (Bird.draw (Bird.move b)). repeat split.
      * now rewrite (proj1 (draw_frame _)).
      * now rewrite (proj1 (proj2 (proj2 (draw_frame _)))).
      * destruct (draw_frame (Bird.move b)) as (_ & _ & _ & -> & _).
        cbn. rewrite Ht. lia.
      * destruct (draw_frame (Bird.move b)) as (_ & -> & _). exact Hy1.
      * destruct (draw_frame (Bird.move b)) as (_ & _ & _ & _ & -> & _).
        exact Him.
      * apply (draw_keeps (fun i => surf_h i = h)); cbn;
          [apply Hfit | rewrite Him; apply Hsprites ..].
      * apply (draw_keeps (fun i => (surf_w i <= 340)%nat)); cbn;
          [apply Hfit | rewrite Him; apply Hsprites ..].
    + exact Hfit'.
    + exists (Pipe.move p). repeat split; [|exact Hpp].
      cbn. unfold Pipe.VEL. lia.
Qed.

Hypothesis Hevents : forall k, (k < 26)%nat -> handle_events env k = true.

Lemma falling_loop (m d : nat) :
  forall (n : nat) (s : Trainer.state),
    falling env game g h n s -> (n + S d = m)%nat -> (m <= 26)%nat ->
    (forall j, (n < j < m)%nat -> hits_floor h j = false) ->
    hits_floor h m = true ->
    forall fuel, (S d < fuel)%nat ->
      exists s', Trainer.game_loop fuel env game s = Ok (Some s') /\
                 fallen g m s'.
Proof.
  induction d as [|d IH]; intros n s Hs Hm H26 Hno Hhit fuel Hfuel.
  - destruct fuel as [|[|fuel]]; try lia.
    destruct (falling_tick n s Hs) as (s' & Htick & Hs'); [lia|].
    replace (S n) with m in Hs' by lia. rewrite Hhit in Hs'.
    exists s'. split; [|exact Hs'].
    cbn [Trainer.game_loop].
    destruct Hs as [(b & -> & _) _ _ _ _ Hpolls _].
    rewrite Hpolls, Hevents by lia. rewrite Htick.
    cbn [mbind result_bind]. now rewrite (fn_birds _ _ _ Hs').
  - destruct fuel as [|fuel]; [lia|].
    destruct (falling_tick n s Hs) as (s' & Htick & Hs'); [lia|].
    rewrite Hno in Hs' by lia.
    destruct (IH (S n) s' Hs') with (fuel := fuel)
      as (s'' & Hloop & Hs''); try assumption; try lia.
    { intros j Hj. apply Hno. lia. }
    exists s''. split; [|exact Hs''].
    cbn [Trainer.game_loop].
    destruct Hs as [(b & -> & _) _ _ _ _ Hpolls _].
    rewrite Hpolls, Hevents by lia. rewrite Htick.
    cbn [mbind result_bind]. exact Hloop.
Qed.

Lemma falling_init (id : Z) (fit : fitness_store) :
  falling env game g h 0 (Trainer.init_state env game [(id, g)] fit).
Proof.
  split; cbn; try reflexivity.
  - eexists. split; [reflexivity|]. repeat split; apply Hsprites.
  - apply lookup_insert_eq.
  - eexists. split; [reflexivity|]. split; reflexivity.
Qed.

End Faller.

Lemma first_hit_spec (h : nat) :
  forall fuel n,
    (n <= first_hit h fuel n <= n + fuel)%nat /\
    (forall j, (n <= j < first_hit h fuel n)%nat -> hits_floor h j = false) /\
    ((first_hit h fuel n < n + fuel)%nat ->
       hits_floor h (first_hit h fuel n) = true).
Proof.
  induction fuel as [|fuel IH]; intros n; cbn [first_hit].
  - repeat split; lia.
  - destruct (hits_floor h n) eqn:E.
    + repeat split; try lia. intros _. exact E.
    + destruct (IH (S n)) as (Hr & Hno & Hhit).
      repeat split; try lia.
      * intros j Hj. destruct (decide (j = n)) as [->|Hne]; [exact E|].
        apply Hno. lia.
      * intros Hlt. apply Hhit. lia.
Qed.

Lemma hits_floor_26 (h : nat) : hits_floor h 26 = true.
Proof.
  unfold hits_floor. apply Qle_bool_iff.
  assert (0 <= inject_Z (Z.of_nat h))%Q.
  { change 0%Q with (inject_Z 0). rewrite <- Zle_Qle. lia. }
  assert (Hy : (fall_y 26 == 739)%Q) by reflexivity.
  rewrite Hy. change (inject_Z Config.FLOOR_Y) with 730%Q. lra.
Qed.

Lemma floor_tick_spec (h : nat) :
  (1 <= floor_tick h <= 26)%nat /\
  hits_floor h (floor_tick h) = true /\
  forall j, (1 <= j < floor_tick h)%nat -> hits_floor h j = false.
Proof.
  unfold floor_tick. destruct (first_hit_spec h 25 1) as (Hr & Hno & Hhit).
  split; [lia|]. split; [|exact Hno].
  destruct (decide (first_hit h 25 1 = 26%nat)) as [->|Hne].
  - apply hits_floor_26.
  - apply Hhit. lia.
Qed.

Lemma faller_eval (env : Env) (game : GameEngine.t) (g : genome) (h : nat)
    (self : Trainer.t) (id : Z) (fit : fitness_store) (fuel : nat) :
  sprite_fits h (GameEngine.bird_images game).1.1 /\
  sprite_fits h (GameEngine.bird_images game).1.2 /\
  sprite_fits h (GameEngine.bird_images game).2 ->
  never_jumps (create_net env g) ->
  (forall k, (k < 26)%nat -> handle_events env k = true) ->
  (floor_tick h < fuel)%nat ->
  exists s,
    Trainer._eval_genomes fuel env game self [(id, g)] fit =
      Ok (Some ({| Trainer.generation := Trainer.generation self + 1;
                   Trainer.best_genome := Trainer.best_genome self;
                   Trainer.best_fitness := Trainer.best_fitness self |}, s)) /\
    fallen g (floor_tick h) s.
Proof.
  intros Hsprites Hnet Hev Hfuel.
  destruct (floor_tick_spec h) as (Hr & Hhit & Hno).
  assert (Hnone : forall j, (0 < j < floor_tick h)%nat ->
                            hits_floor h j = false)
    by (intros j Hj; apply Hno; lia).
  assert (Hm : (0 + S (floor_tick h - 1) = floor_tick h)%nat) by lia.
  assert (Hfuel' : (S (floor_tick h - 1) < fuel)%nat) by lia.
  destruct (falling_loop env game g h Hsprites Hnet Hev (floor_tick h)
              (floor_tick h - 1) 0%nat
              (Trainer.init_state env game [(id, g)] fit)
              (falling_init env game g h Hsprites id fit)
              Hm (proj2 Hr) Hnone Hhit fuel Hfuel') as (s & Hloop & Hs).
  exists s. split; [|exact Hs].
  unfold Trainer._eval_genomes. rewrite Hloop.
  cbn [mbind result_bind]. rewrite (fn_genomes _ _ _ Hs). reflexivity.
Qed.


Lemma fall_y_moves (game : GameEngine.t) (n : nat) :
  Bird.vel (Nat.iter n Bird.move (GameEngine.create_bird game)) = 0%Q /\
  Bird.tick_count (Nat.iter n Bird.move (GameEngine.create_bird game)) =
    Z.of_nat n /\
  (Bird.y (Nat.iter n Bird.move (GameEngine.create_bird game))
   == fall_y n)%Q.
Proof.
  induction n as [|n IH]; [repeat split; reflexivity|].
  rewrite !Nat.iter_succ. destruct IH as (Hv & Ht & Hy).
  set (b := Nat.iter n Bird.move (GameEngine.create_bird game)) in *.
  split; [exact Hv|]. split.
  { change (Bird.tick_count (Bird.move b)) with (Bird.tick_count b + 1).
    rewrite Ht. lia. }
  change (Bird.y (Bird.move b)) with (Bird.y b + Bird.displacement b)%Q.
  rewrite (displacement_fall n b Hv Ht). lra.
Qed.

(** The rewards of the first 26 ticks add up to 0.1 times their number up
    to the rounding of the additions. *)
Lemma survival_near (n : nat) :
  (n <= 26)%nat ->
  (Qabs (survival n - 0.1 * inject_Z (Z.of_nat n)) <= 1 # 10 ^ 15)%Q.
Proof.
  intros Hn.
  do 27 (destruct n as [|n]; [vm_compute; discriminate|]). lia.
Qed.

(** C5, as stated, fails: with sprites of 68 by 48 pixels the bird that
    never jumps is removed at the floor on tick 23, and its genome ends with
    the fitness that 23 additions of 0.1 give, the binary64
    2.3000000000000007 = 647392446434509 / 2 ^ 48, without any penalty; no
    count of ticks up to 23 gives that value once 1 is subtracted, be it in
    exact or in floating point arithmetic. *)
Lemma faller_fitness_without_penalty :
  exists self' s f,
    Trainer._eval_genomes 30 env0 game0 Trainer.init [(1, 7%nat)] ∅ =
      Ok (Some (self', s)) /\
    Trainer.birds s = [] /\ Trainer.polls s = 23%nat /\
    Trainer.fitness s !! 7%nat = Some f /\
    f = survival 23 /\
    (f == 647392446434509 # 281474976710656)%Q /\
    forall ticks : nat, (ticks <= 23)%nat ->
      ~ (f == 0.1 * inject_Z (Z.of_nat ticks) - 1)%Q /\
      f <> float_sub (to_float (to_float 0.1 * inject_Z (Z.of_nat ticks))) 1.
Proof.
  destruct (faller_eval env0 game0 7%nat 48 Trainer.init 1 ∅ 30)
    as (s & Hrun & Hs).
  - repeat split; cbn; lia.
  - intros v. exists 0%Q, []. split; [reflexivity | lra].
  - reflexivity.
  - vm_compute. lia.
  - destruct Hs as [Hb _ _ Hf Hp _].
    replace (floor_tick 48) with 23%nat in * by (vm_compute; reflexivity).
    eexists _, s, _. split; [exact Hrun|].
    split; [exact Hb|]. split; [exact Hp|]. split; [exact Hf|].
    split; [reflexivity|]. split; [vm_compute; reflexivity|].
    intros ticks Ht.
    do 24 (destruct ticks as [|ticks];
           [split; [vm_compute; discriminate | vm_compute; discriminate]|]).
    lia.
Qed.

(** C5, amended.  One genome whose network never answers above 0.5, bird
    images of one height [h] and at most 340 wide, and no quit event during
    the first 26 polls: the bird falls through y = 350, 351.5, 357.5, 371,
    387, ... and the loop removes it on the first tick [n] at which
    y + h >= 730, with [1 <= n <= 26]; the generation ends there, and the
    genome's fitness is what [n] floating point additions of 0.1 to 0 give,
    within 1e-15 of 0.1 * n: the removal at the floor subtracts nothing. *)
Theorem faller_fitness (env : Env) (game : GameEngine.t) (g : genome)
    (h : nat) (self : Trainer.t) (id : Z) (fit : fitness_store)
    (fuel : nat) :
  sprite_fits h (GameEngine.bird_images game).1.1 /\
  sprite_fits h (GameEngine.bird_images game).1.2 /\
  sprite_fits h (GameEngine.bird_images game).2 ->
  never_jumps (create_net env g) ->
  (forall k, (k < 26)%nat -> handle_events env k = true) ->
  (floor_tick h < fuel)%nat ->
  let n := floor_tick h in
  (1 <= n <= 26)%nat /\
  (forall j, (Bird.y (Nat.iter j Bird.move (GameEngine.create_bird game))
              == fall_y j)%Q) /\
  (730 <= fall_y n + inject_Z (Z.of_nat h))%Q /\
  (forall j, (1 <= j < n)%nat ->
     (fall_y j + inject_Z (Z.of_nat h) < 730)%Q) /\
  exists self' s f,
    Trainer._eval_genomes fuel env game self [(id, g)] fit =
      Ok (Some (self', s)) /\
    Trainer.birds s = [] /\
    Trainer.genome_list s = [] /\
    Trainer.polls s = n /\
    Trainer.fitness s !! g = Some f /\
    f = Nat.iter n (fun f => float_add f (to_float 0.1)) 0%Q /\
    (Qabs (f - 0.1 * inject_Z (Z.of_nat n)) <= 1 # 10 ^ 15)%Q.
Proof.
  intros Hsprites Hnet Hev Hfuel n.
  destruct (floor_tick_spec h) as (Hr & Hhit & Hno).
  split; [exact Hr|]. split; [|split; [|split]].
  - intros j. apply (fall_y_moves game j).
  - apply Qle_bool_iff in Hhit. exact Hhit.
  - intros j Hj. specialize (Hno j Hj). apply Qle_bool_gt in Hno. exact Hno.
  - destruct (faller_eval env game g h self id fit fuel
                Hsprites Hnet Hev Hfuel) as (s & Hrun & Hs).
    destruct Hs as [Hb _ Hg Hf Hp _].
    eexists _, s, _. split; [exact Hrun|].
    split; [exact Hb|]. split; [exact Hg|]. split; [exact Hp|].
    split; [exact Hf|]. split; [reflexivity|].
    apply survival_near, Hr.
Qed.

Lemma faller_fitness_witness :
  exists self' s f,
    Trainer._eval_genomes 30 env0 game0 Trainer.init [(1, 7%nat)] ∅ =
      Ok (Some (self', s)) /\
    Trainer.birds s = [] /\
    Trainer.genome_list s = [] /\
    Trainer.polls s = floor_tick 48 /\
    Trainer.fitness s !! 7%nat = Some f /\
    f = Nat.iter (floor_tick 48) (fun f => float_add f (to_float 0.1)) 0%Q /\
    (Qabs (f - 0.1 * inject_Z (Z.of_nat (floor_tick 48))) <= 1 # 10 ^ 15)%Q.
Proof.
  refine (proj2 (proj2 (proj2 (proj2
    (faller_fitness env0 game0 7%nat 48 Trainer.init 1 ∅ 30 _ _ _ _))))).
  - repeat split; cbn; lia.
  - intros v. exists 0%Q, []. split; [reflexivity | lra].
  - reflexivity.
  - vm_compute. lia.
Defined.

(** ** The best genome of a generation *)

(** C3, on the code.  A generation of one genome whose bird falls to the
    floor: the loop ends with no bird left, the genome's fitness is
    2.3000000000000007 (647392446434509 / 2 ^ 48, the sum of 23 rewards) and
    exceeds the tracked best (minus infinity), yet the trainer still holds
    no best genome and minus infinity, because lines 238-242 walk
    [genome_list], which [_remove_bird] has emptied. *)
Theorem best_not_tracked_when_all_fall :
  exists self' s f,
    Trainer._eval_genomes 30 env0 game0 Trainer.init [(1, 7%nat)] ∅ =
      Ok (Some (self', s)) /\
    Trainer.birds s = [] /\
    Trainer.genome_list s = [] /\
    Trainer.fitness s !! 7%nat = Some f /\
    (f == 647392446434509 # 281474976710656)%Q /\
    Trainer.exceeds f (Trainer.best_fitness Trainer.init) = true /\
    Trainer.best_genome self' = None /\
    Trainer.best_fitness self' = Trainer.NegInf.
Proof.
  destruct (faller_eval env0 game0 7%nat 48 Trainer.init 1 ∅ 30)
    as (s & Hrun & Hs).
  - repeat split; cbn; lia.
  - intros v. exists 0%Q, []. split; [reflexivity | lra].
  - reflexivity.
  - vm_compute. lia.
  - destruct Hs as [Hb _ Hg Hf _ _].
    replace (floor_tick 48) with 23%nat in * by (vm_compute; reflexivity).
    eexists _, s, _. split; [exact Hrun|].
    split; [exact Hb|]. split; [exact Hg|]. split; [exact Hf|].
    split; [vm_compute; reflexivity|]. repeat split.
Qed.

(** ** Pass events *)

Ltac inv_bind H :=
  match type of H with
  | (?m ≫= _) = Ok _ =>
      let E := fresh "E" in
      destruct m eqn:E; cbn [mbind result_bind] in H; [|discriminate H]
  end.

Lemma pop_Ok {A : Type} (l l' : list A) (i : Z) :
  pop l i = Ok l' -> exists j, l' = delete j l.
Proof.
  unfold pop. destruct (_ && _); [|discriminate].
  intros [= <-]. eauto.
Qed.

Lemma remove_bird_sublist {A B C : Type} (i : Z)
    (birds birds' : list A) (networks networks' : list B)
    (genomes genomes' : list C) :
  Trainer._remove_bird i birds networks genomes =
    Ok (birds', networks', genomes') ->
  birds' `sublist_of` birds /\ genomes' `sublist_of` genomes.
Proof.
  unfold Trainer._remove_bird. destruct (_ && _).
  - intros H. inv_bind H. inv_bind H. inv_bind H. injection H as <- <- <-.
    apply pop_Ok in E as [j ->]. apply pop_Ok in E1 as [j' ->].
    split; apply sublist_delete.
  - intros [= <- <- <-]. split; reflexivity.
Qed.

Lemma check_collisions_sublist (pipe : Pipe.t) (n : nat) :
  forall k birds networks genome_list fit birds' networks' genome_list' fit',
    Trainer.check_collisions n k pipe birds networks genome_list fit =
      Ok (birds', networks', genome_list', fit') ->
    birds' `sublist_of` birds /\ genome_list' `sublist_of` genome_list.
Proof.
  induction n as [|n IH]; intros k birds networks genome_list fit
    birds' networks' genome_list' fit' H; cbn [Trainer.check_collisions] in H.
  - injection H as <- <- <- <-. split; reflexivity.
  - destruct (birds !! k) as [bird|];
      [|injection H as <- <- <- <-; split; reflexivity].
    destruct (Pipe.collide pipe bird); [|eapply IH; eauto].
    inv_bind H. inv_bind H. inv_bind H. destruct a1 as [[b1 n1] g1].
    apply remove_bird_sublist in E1 as [Hb Hg].
    apply IH in H as [Hb' Hg'].
    split; etrans; eauto.
Qed.

Lemma unpassed_sublist (l1 l2 : list Pipe.t) :
  l1 `sublist_of` l2 -> (unpassed l1 <= unpassed l2)%nat.
Proof.
  induction 1; cbn [unpassed]; lia.
Qed.

Lemma unpassed_app (l1 l2 : list Pipe.t) :
  unpassed (l1 ++ l2) = (unpassed l1 + unpassed l2)%nat.
Proof.
  induction l1 as [|p l1 IH]; cbn [unpassed app]; lia.
Qed.

Lemma process_pipes_spec :
  forall todo i birds networks genome_list fit add_pipe
         pipes1 pipes_to_remove birds2 networks2 genome_list2 fit2 add_pipe',
    Trainer.process_pipes i todo birds networks genome_list fit add_pipe =
      Ok (pipes1, pipes_to_remove,
          (birds2, networks2, genome_list2, fit2), add_pipe') ->
    birds2 `sublist_of` birds /\
    genome_list2 `sublist_of` genome_list /\
    (unpassed pipes1 <= unpassed todo)%nat /\
    (add_pipe' = true <->
       add_pipe = true \/ (unpassed pipes1 < unpassed todo)%nat) /\
    forall j p, todo !! j = Some p ->
      exists p1,
        pipes1 !! j = Some p1 /\ Pipe.x p1 = Pipe.x p - 5 /\
        (Pipe.passed p1 = Pipe.passed p \/
         (Pipe.passed p = false /\ Pipe.passed p1 = true /\
          exists lead, lead ∈ birds /\ Pipe.x p1 < Bird.x lead)).
Proof.
  induction todo as [|pipe rest IH]; intros i birds networks genome_list fit
    add_pipe pipes1 pipes_to_remove birds2 networks2 genome_list2 fit2
    add_pipe' H; cbn [Trainer.process_pipes] in H.
  - injection H as <- <- <- <- <- <- <-.
    repeat split; try reflexivity; try tauto.
    + intros [?|?]; [assumption | cbn in *; lia].
    + intros j p Hj. discriminate.
  - inv_bind H. destruct a as [[[b1 n1] g1] f1].
    apply check_collisions_sublist in E as [Hb Hg].
    match type of H with
    | context [if ?c then Pipe.mark_passed _ else _] =>
        assert (Hpass : c = negb (Pipe.passed pipe) &&
                            match b1 with
                            | [] => false
                            | b0 :: _ => Pipe.x pipe - 5 <? Bird.x b0
                            end) by reflexivity;
        set (pass := c) in *
    end.
    clearbody pass.
    inv_bind H. destruct a as [[[rest' rm'] [[[b3 n3] g3] f3]] flag3].
    injection H as <- <- <- <- <- <- <-.
    apply IH in E as (Hb' & Hg' & Hle & Hflag & Hall).
    split; [etrans; eauto|]. split; [etrans; eauto|].
    assert (Hpassed : Pipe.passed (Pipe.move pipe) = Pipe.passed pipe)
      by reflexivity.
    split; [|split].
    + cbn [unpassed]. destruct pass; cbn; destruct (Pipe.passed pipe); lia.
    + rewrite Hflag. cbn [unpassed].
      destruct pass eqn:Ep.
      * split; [intros _; right|tauto]. symmetry in Hpass.
        apply andb_true_iff in Hpass as [Ep1 _].
        destruct (Pipe.passed pipe); [discriminate|]. cbn. lia.
      * change (Pipe.passed (Pipe.move pipe)) with (Pipe.passed pipe).
        destruct (Pipe.passed pipe); cbn; split; intros [?|?]; auto; right; lia.
    + intros [|j] p Hj.
      * cbn in Hj. injection Hj as <-. eexists. split; [reflexivity|].
        destruct pass eqn:Ep.
        -- split; [reflexivity|]. right. symmetry in Hpass.
           apply andb_true_iff in Hpass as [Ep1 Ep2].
           split; [now destruct (Pipe.passed pipe)|]. split; [reflexivity|].
           destruct b1 as [|b0 bs]; [discriminate|].
           exists b0. split.
           ++ eapply elem_of_sublist; [|exact Hb]. constructor.
           ++ now apply Z.ltb_lt in Ep2.
        -- split; [reflexivity|]. now left.
      * cbn in Hj. destruct (Hall j p Hj) as (p1 & Hp1 & Hx & Hcase).
        exists p1. split; [exact Hp1|]. split; [exact Hx|].
        destruct Hcase as [?|(? & ? & lead & Hl & ?)]; [now left|right].
        repeat split; try assumption. exists lead. split; [|assumption].
        eapply elem_of_sublist; eauto.
Qed.

Lemma update_fitness_Ok (g : genome) (op : Q -> Q) (fit fit' : fitness_store) :
  Trainer.update_fitness g op fit = Ok fit' ->
  exists f, fit !! g = Some f /\ fit' = <[g := op f]> fit.
Proof.
  unfold Trainer.update_fitness. destruct (fit !! g) as [f|]; [|discriminate].
  intros [= <-]. eauto.
Qed.

Lemma reward_all_spec (genome_list : list genome) :
  forall fit fit' : fitness_store,
    Trainer.reward_all genome_list fit = Ok fit' ->
    NoDup genome_list ->
    (forall g, g ∈ genome_list ->
       exists f, fit !! g = Some f /\ fit' !! g = Some (float_add f 5)) /\
    (forall g, g ∉ genome_list -> fit' !! g = fit !! g).
Proof.
  induction genome_list as [|g0 rest IH]; intros fit fit' H Hnd;
    cbn [Trainer.reward_all] in H.
  - injection H as <-. split; [|reflexivity].
    intros g Hg. now apply elem_of_nil in Hg.
  - inv_bind H. apply update_fitness_Ok in E as (f0 & Hf0 & ->).
    apply NoDup_cons in Hnd as [Hnotin Hnd].
    destruct (IH _ _ H Hnd) as [Hin Hout]. split.
    + intros g Hg. apply elem_of_cons in Hg as [->|Hg].
      * exists f0. split; [exact Hf0|].
        rewrite (Hout g0 Hnotin). apply lookup_insert_eq.
      * destruct (Hin g Hg) as (f & Hf & Hf').
        exists f. split; [|exact Hf'].
        rewrite lookup_insert_ne in Hf; [exact Hf|].
        intros ->. contradiction.
    + intros g Hg. apply not_elem_of_cons in Hg as [Hne Hg].
      rewrite (Hout g Hg). now apply lookup_insert_ne.
Qed.

Lemma unpassed_remove_pipes (pipes_to_remove : list nat) (pipes : list Pipe.t) :
  (unpassed (Trainer.remove_pipes pipes_to_remove pipes) <= unpassed pipes)%nat.
Proof.
  apply unpassed_sublist, sublist_foldr_delete.
Qed.

Lemma init_state_unpassed (env : Env) (game : GameEngine.t)
    (genomes : list (Z * genome)) (fit : fitness_store) :
  unpassed (Trainer.pipes (Trainer.init_state env game genomes fit)) = 1%nat.
Proof.
  unfold Trainer.init_state.
  destruct (Trainer.init_population env game genomes fit) as [[[? ?] ?] ?].
  reflexivity.
Qed.

Lemma process_pipes_cons (i : nat) (pipe : Pipe.t) (rest : list Pipe.t)
    (birds : list Bird.t) (networks : list Net) (genome_list : list genome)
    (fit : fitness_store) (add_pipe : bool)
    (b1 : list Bird.t) (n1 : list Net) (g1 : list genome)
    (f1 : fitness_store) :
  Trainer.check_collisions (length birds) 0 (Pipe.move pipe) birds networks
    genome_list fit = Ok (b1, n1, g1, f1) ->
  Trainer.process_pipes i (pipe :: rest) birds networks genome_list fit
    add_pipe =
  (let pass :=
     negb (Pipe.passed pipe) &&
     match b1 with
     | b0 :: _ => Pipe.x pipe - 5 <? Bird.x b0
     | [] => false
     end in
   '(rest', pipes_to_remove, flock, add_pipe') ←
     Trainer.process_pipes (S i) rest b1 n1 g1 f1
       (if pass then true else add_pipe);
   Ok ((if pass then Pipe.mark_passed (Pipe.move pipe) else Pipe.move pipe)
       :: rest',
       (if Pipe.is_off_screen (Pipe.move pipe) then [i] else [])
       ++ pipes_to_remove,
       flock, add_pipe')).
Proof.
  intros E. cbn [Trainer.process_pipes]. rewrite E. reflexivity.
Qed.

(** The pass test of line 202 along the loop of line 188: the pipe at
    position [j] ends passed exactly when it was passed already or, once the
    pipes up to it have had their collision pass, a bird is left and the
    pipe, moved, is behind the first one; the flag [add_pipe] ends set
    exactly when it was set or that happens to a pipe not yet passed. *)
Lemma process_pipes_events :
  forall todo i birds networks genome_list fit add_pipe
         pipes1 pipes_to_remove birds2 networks2 genome_list2 fit2 add_pipe',
    Trainer.process_pipes i todo birds networks genome_list fit add_pipe =
      Ok (pipes1, pipes_to_remove,
          (birds2, networks2, genome_list2, fit2), add_pipe') ->
    let lead_behind (j : nat) (p : Pipe.t) :=
      exists pipes_j remove_j lead others networks_j genomes_j fit_j add_j,
        Trainer.process_pipes i (take (S j) todo) birds networks genome_list
          fit add_pipe =
          Ok (pipes_j, remove_j,
              (lead :: others, networks_j, genomes_j, fit_j), add_j) /\
        Pipe.x p - 5 < Bird.x lead in
    (forall j p, todo !! j = Some p ->
       exists p1,
         pipes1 !! j = Some p1 /\ Pipe.x p1 = Pipe.x p - 5 /\
         (Pipe.passed p1 = true <->
          Pipe.passed p = true \/ lead_behind j p)) /\
    (add_pipe' = true <->
     add_pipe = true \/
     exists j p, todo !! j = Some p /\ Pipe.passed p = false /\
                 lead_behind j p).
Proof.
  induction todo as [|pipe rest IH]; intros i birds networks genome_list fit
    add_pipe pipes1 pipes_to_remove birds2 networks2 genome_list2 fit2
    add_pipe' H lead_behind.
  - cbn [Trainer.process_pipes] in H. injection H as <- <- <- <- <- <- <-.
    split; [intros j p Hj; discriminate|].
    split; [auto|]. intros [?|(j & p & Hj & _)]; [assumption|discriminate].
  - destruct (Trainer.check_collisions (length birds) 0 (Pipe.move pipe)
                birds networks genome_list fit)
      as [[[[b1 n1] g1] f1]|e] eqn:E;
      [|cbn [Trainer.process_pipes] in H; rewrite E in H; discriminate H].
    rewrite (process_pipes_cons _ _ _ _ _ _ _ _ _ _ _ _ E) in H.
    cbv zeta in H.
    set (pass := negb (Pipe.passed pipe) &&
                 match b1 with
                 | b0 :: _ => Pipe.x pipe - 5 <? Bird.x b0
                 | [] => false
                 end) in *.
    destruct (Trainer.process_pipes (S i) rest b1 n1 g1 f1
                (if pass then true else add_pipe))
      as [[[[rest' rm'] [[[b3 n3] g3] f3]] flag3]|e] eqn:E0;
      cbn [mbind result_bind] in H; [|discriminate H].
    injection H as <- <- <- <- <- <- <-.
    destruct (IH _ _ _ _ _ _ _ _ _ _ _ _ _ E0) as [Hall Hflag].
    (* the test at the head *)
    assert (Hhead : lead_behind 0%nat pipe <->
                    exists b0 bs, b1 = b0 :: bs /\
                                  Pipe.x pipe - 5 < Bird.x b0).
    { unfold lead_behind. cbn [take].
      rewrite (process_pipes_cons _ _ _ _ _ _ _ _ _ _ _ _ E).
      cbn [Trainer.process_pipes mbind result_bind]. split.
      - intros (? & ? & lead & others & ? & ? & ? & ? & Hrun & Hx).
        injection Hrun as _ _ -> _ _ _ _. eauto.
      - intros (b0 & bs & -> & Hx). eexists _, _, b0, bs, _, _, _, _.
        split; [reflexivity|exact Hx]. }
    (* the test further on *)
    assert (Htail : forall j p,
              lead_behind (S j) p <->
              exists pipes_j remove_j lead others networks_j genomes_j
                     fit_j add_j,
                Trainer.process_pipes (S i) (take (S j) rest) b1 n1 g1 f1
                  (if pass then true else add_pipe) =
                  Ok (pipes_j, remove_j,
                      (lead :: others, networks_j, genomes_j, fit_j),
                      add_j) /\
                Pipe.x p - 5 < Bird.x lead).
    { intros j p. unfold lead_behind.
      change (take (S (S j)) (pipe :: rest)) with (pipe :: take (S j) rest).
      rewrite (process_pipes_cons _ _ _ _ _ _ _ _ _ _ _ _ E).
      cbv zeta. fold pass. split.
      - intros (? & ? & lead & others & ? & ? & ? & ? & Hrun & Hx).
        destruct (Trainer.process_pipes (S i) (take (S j) rest) b1 n1 g1 f1
                    (if pass then true else add_pipe))
          as [[[[pj rj] [[[bj nj] gj] fj]] aj]|e] eqn:Ej;
          cbn [mbind result_bind] in Hrun; [|discriminate Hrun].
        injection Hrun as _ _ -> _ _ _ _.
        eexists _, _, lead, others, _, _, _, _. split; [reflexivity|exact Hx].
      - intros (? & ? & lead & others & ? & ? & ? & ? & Hrun & Hx).
        rewrite Hrun. cbn [mbind result_bind].
        eexists _, _, lead, others, _, _, _, _.
        split; [reflexivity|exact Hx]. }
    assert (Hpass : pass = true <->
                    Pipe.passed pipe = false /\ lead_behind 0%nat pipe).
    { rewrite Hhead. subst pass. rewrite andb_true_iff, negb_true_iff.
      split.
      - intros [Hp Hc]. split; [exact Hp|].
        destruct b1 as [|b0 bs]; [discriminate|].
        apply Z.ltb_lt in Hc. eauto.
      - intros [Hp (b0 & bs & -> & Hx)]. split; [exact Hp|].
        now apply Z.ltb_lt. }
    split.
    + intros [|j] p Hj.
      * cbn in Hj. injection Hj as <-. eexists. split; [reflexivity|].
        destruct pass eqn:Ep.
        -- split; [reflexivity|]. split; [|reflexivity].
           intros _. right. now apply Hpass.
        -- split; [reflexivity|].
           change (Pipe.passed (Pipe.move pipe)) with (Pipe.passed pipe).
           split; [now left|]. intros [?|Hl]; [assumption|].
           destruct (Pipe.passed pipe) eqn:Epp; [reflexivity|].
           destruct Hpass as [_ Hpass]. now apply Hpass.
      * cbn in Hj. destruct (Hall j p Hj) as (p1 & Hp1 & Hx & Hiff).
        exists p1. split; [exact Hp1|]. split; [exact Hx|].
        rewrite Hiff, (Htail j p). reflexivity.
    + rewrite Hflag. split.
      * intros [Hadd|(j & p & Hj & Hp & Hl)].
        -- destruct pass eqn:Ep; [|now left].
           right. exists 0%nat, pipe. split; [reflexivity|].
           now apply Hpass.
        -- right. exists (S j), p. split; [exact Hj|]. split; [exact Hp|].
           now apply Htail.
      * intros [Hadd|(j & p & Hj & Hp & Hl)].
        -- left. now destruct pass.
        -- destruct j as [|j].
           ++ cbn in Hj. injection Hj as <-. left.
              replace pass with true; [reflexivity|].
              symmetry. now apply Hpass.
           ++ right. exists j, p. split; [exact Hj|]. split; [exact Hp|].
              now apply Htail.
Qed.

Lemma unpassed_one (pipes : list Pipe.t) :
  (unpassed pipes <= 1)%nat ->
  forall j p j' p',
    pipes !! j = Some p -> Pipe.passed p = false ->
    pipes !! j' = Some p' -> Pipe.passed p' = false -> j = j'.
Proof.
  induction pipes as [|q pipes IH]; intros Hle j p j' p' Hj Hp Hj' Hp';
    [discriminate|].
  cbn [unpassed] in Hle.
  assert (Hnone : forall k r, pipes !! k = Some r -> Pipe.passed r = false ->
                              (1 <= unpassed pipes)%nat).
  { clear. induction pipes as [|q pipes IH]; intros k r Hk Hr;
      [discriminate|]. cbn [unpassed]. destruct k as [|k].
    - cbn in Hk. injection Hk as ->. rewrite Hr. lia.
    - cbn in Hk. specialize (IH k r Hk Hr). lia. }
  destruct j as [|j], j' as [|j']; cbn in Hj, Hj'.
  - reflexivity.
  - injection Hj as ->. rewrite Hp in Hle.
    specialize (Hnone j' p' Hj' Hp'). lia.
  - injection Hj' as ->. rewrite Hp' in Hle.
    specialize (Hnone j p Hj Hp). lia.
  - f_equal. apply (IH ltac:(destruct (Pipe.passed q); lia) j p j' p');
      assumption.
Qed.

(** C4.  A pass event of a tick is a pipe not yet passed that, when the loop
    of line 188 reaches it and the pipes up to it have had their collision
    pass, is behind the first bird left: its x, moved 5 to the left, is
    below that bird's x.  Every pipe ends the tick passed exactly when it
    was passed before or has such an event.  In a state with at most one
    pipe not yet passed, as the loop starts with and keeps, at most one pipe
    can have one.  With a pass event the score grows by exactly 1, every
    genome still in [genome_list] after the collisions of this tick has 5
    added to its fitness (no other genome's fitness changes then), and
    exactly one new pipe, not passed, is appended at x = 600; without one
    the score, the fitness and the number of pipes created stay as they
    are. *)
Theorem pass_event_scores_once (env : Env) (game : GameEngine.t)
    (s s' : Trainer.state) :
  (unpassed (Trainer.pipes s) <= 1)%nat ->
  NoDup (Trainer.genome_list s) ->
  Trainer.tick env game s = Ok s' ->
  exists birds1 fit1 pipes1 pipes_to_remove
         birds2 networks2 genome_list2 fit2 add_pipe,
    Trainer.move_birds 0 (Trainer.birds s) (Trainer.networks s)
      (Trainer.genome_list s) (Trainer.pipes s)
      (Trainer.select_pipe (Trainer.birds s) (Trainer.pipes s))
      (Trainer.fitness s) = Ok (birds1, fit1) /\
    Trainer.process_pipes 0 (Trainer.pipes s) birds1 (Trainer.networks s)
      (Trainer.genome_list s) fit1 false =
      Ok (pipes1, pipes_to_remove,
          (birds2, networks2, genome_list2, fit2), add_pipe) /\
    let lead_behind (j : nat) (p : Pipe.t) :=
      exists pipes_j remove_j lead others networks_j genomes_j fit_j add_j,
        Trainer.process_pipes 0 (take (S j) (Trainer.pipes s)) birds1
          (Trainer.networks s) (Trainer.genome_list s) fit1 false =
          Ok (pipes_j, remove_j,
              (lead :: others, networks_j, genomes_j, fit_j), add_j) /\
        Pipe.x p - 5 < Bird.x lead in
    let pass_event :=
      exists j p,
        Trainer.pipes s !! j = Some p /\ Pipe.passed p = false /\
        lead_behind j p in
    let spawned :=
      GameEngine.create_pipe game Config.WIN_WIDTH
        (entropy env (Trainer.draws s)) in
    (forall j p, Trainer.pipes s !! j = Some p ->
       exists p1,
         pipes1 !! j = Some p1 /\ Pipe.x p1 = Pipe.x p - 5 /\
         (Pipe.passed p1 = true <->
          Pipe.passed p = true \/ lead_behind j p)) /\
    (forall j p j' p',
       Trainer.pipes s !! j = Some p -> Pipe.passed p = false ->
       Trainer.pipes s !! j' = Some p' -> Pipe.passed p' = false ->
       j = j') /\
    (pass_event ->
       Trainer.score s' = Trainer.score s + 1 /\
       Trainer.draws s' = S (Trainer.draws s) /\
       Trainer.pipes s' =
         Trainer.remove_pipes pipes_to_remove (pipes1 ++ [spawned]) /\
       (forall g, g ∈ genome_list2 ->
          exists f, fit2 !! g = Some f /\
                    Trainer.fitness s' !! g = Some (float_add f 5)) /\
       (forall g, g ∉ genome_list2 ->
          Trainer.fitness s' !! g = fit2 !! g)) /\
    (~ pass_event ->
       Trainer.score s' = Trainer.score s /\
       Trainer.draws s' = Trainer.draws s /\
       Trainer.pipes s' = Trainer.remove_pipes pipes_to_remove pipes1 /\
       Trainer.fitness s' = fit2) /\
    Pipe.x spawned = 600 /\ Pipe.passed spawned = false /\
    (unpassed (Trainer.pipes s') <= 1)%nat.
Proof.
  intros Hinv Hnd H. unfold Trainer.tick in H.
  inv_bind H. destruct a as [birds1 fit1].
  inv_bind H.
  destruct a
    as [[[pipes1 rm] [[[birds2 networks2] genome_list2] fit2]] add_pipe].
  exists birds1, fit1, pipes1, rm, birds2, networks2, genome_list2, fit2,
         add_pipe.
  split; [first [exact E | reflexivity]|].
  split; [first [exact E0 | reflexivity]|].
  pose proof (process_pipes_spec _ _ _ _ _ _ _ _ _ _ _ _ _ _ E0)
    as (_ & Hgl & Hle & Hcount & _).
  pose proof (process_pipes_events _ _ _ _ _ _ _ _ _ _ _ _ _ _ E0)
    as [Hall Hflag].
  cbv zeta in Hall, Hflag.
  intros lead_behind pass_event spawned.
  assert (Hadd : add_pipe = true <-> pass_event).
  { rewrite Hflag. split; [intros [?|?]; [discriminate|assumption]|].
    intros ?. now right. }
  split; [exact Hall|].
  split; [exact (unpassed_one _ Hinv)|].
  destruct add_pipe.
  - destruct (Trainer.reward_all genome_list2 fit2) as [fit3|] eqn:E1;
      cbn [mbind result_bind] in H; [|discriminate H].
    inv_bind H. destruct a as [[birds5 networks5] genome_list5].
    injection H as <-. cbn [Trainer.score Trainer.draws Trainer.pipes
                            Trainer.fitness].
    apply reward_all_spec in E1; [|eapply sublist_NoDup; eauto].
    split; [intros _; repeat split; try apply E1|].
    split; [intros Hno; exfalso; apply Hno, Hadd; reflexivity|].
    repeat split.
    etrans; [apply unpassed_remove_pipes|].
    rewrite unpassed_app.
    assert (unpassed pipes1 < unpassed (Trainer.pipes s))%nat
      by (destruct (proj1 Hcount eq_refl); [discriminate|assumption]).
    cbn. lia.
  - cbn [mbind result_bind] in H.
    inv_bind H. destruct a as [[birds5 networks5] genome_list5].
    injection H as <-. cbn [Trainer.score Trainer.draws Trainer.pipes
                            Trainer.fitness].
    split; [intros Hev; apply Hadd in Hev; discriminate|].
    split; [intros _; repeat split|].
    repeat split.
    etrans; [apply unpassed_remove_pipes|]. lia.
Qed.

Lemma pass_event_scores_once_witness :
  exists s',
    Trainer.tick env0 tiny_game about_to_pass = Ok s' /\
    Trainer.score s' = 1 /\ Trainer.draws s' = 2%nat /\
    length (Trainer.pipes s') = 2%nat /\
    Trainer.fitness s' !! 7%nat =
      Some (float_add (float_add 0 (to_float 0.1)) 5).
Proof.
  assert (Hrun : exists s', Trainer.tick env0 tiny_game about_to_pass = Ok s')
    by (vm_compute; eexists; reflexivity).
  destruct Hrun as [s' Hrun]. exists s'. split; [exact Hrun|].
  destruct (pass_event_scores_once env0 tiny_game about_to_pass s')
    as (birds1 & fit1 & pipes1 & rm & birds2 & networks2 & genome_list2
        & fit2 & add_pipe & Hmove & Hproc & _ & _ & Hev & _).
  - vm_compute. lia.
  - apply NoDup_singleton.
  - exact Hrun.
  - vm_compute in Hmove. injection Hmove as <- <-.
    vm_compute in Hproc. injection Hproc as <- <- <- <- <- <- <-.
    destruct Hev as (Hscore & Hdraws & Hpipes & Hbonus & _).
    { exists 0%nat. eexists. split; [reflexivity|]. split; [reflexivity|].
      vm_compute. eexists _, _, _, _, _, _, _, _.
      split; [reflexivity|reflexivity]. }
    split; [exact Hscore|]. split; [exact Hdraws|].
    split; [rewrite Hpipes; reflexivity|].
    destruct (Hbonus 7%nat) as (f & Hf & Hf'); [constructor|].
    etrans; [exact Hf'|]. vm_compute in Hf. injection Hf as <-.
    vm_compute. reflexivity.
Defined.

(** The tick of [about_to_pass], evaluated: the pipe at 234 moves to 229,
    behind the bird at 230; the score becomes 1, the one genome goes from 0
    to 0.1 + 5, which is the float 5.1, and a second pipe stands at 600. *)
Example about_to_pass_tick :
  match Trainer.tick env0 tiny_game about_to_pass with
  | Ok s' =>
      Trainer.score s' = 1 /\ Trainer.draws s' = 2%nat /\
      Pipe.x <$> Trainer.pipes s' = [229; 600] /\
      Pipe.passed <$> Trainer.pipes s' = [true; false] /\
      Trainer.fitness s' !! 7%nat = Some (to_float 5.1)
  | Raise _ => False
  end.
Proof. vm_compute. repeat split. Qed.

(** ** The best tracker once every bird is gone *)

Lemma pop_length {A : Type} (l l' : list A) (i : Z) :
  pop l i = Ok l' -> S (length l') = length l.
Proof.
  unfold pop. destruct (_ && _) eqn:E; [|discriminate].
  intros [= <-]. apply andb_true_iff in E as [E1 E2].
  apply Z.leb_le in E1. apply Z.ltb_lt in E2.
  rewrite length_delete; [lia|]. apply lookup_lt_is_Some. lia.
Qed.

Lemma remove_bird_lengths {A B C : Type} (i : Z)
    (birds birds' : list A) (networks networks' : list B)
    (genomes genomes' : list C) :
  Trainer._remove_bird i birds networks genomes =
    Ok (birds', networks', genomes') ->
  length genomes = length birds ->
  length genomes' = length birds' /\ (length birds' <= length birds)%nat.
Proof.
  unfold Trainer._remove_bird. destruct (_ && _).
  - intros H Hg. inv_bind H. inv_bind H. inv_bind H.
    injection H as <- <- <-.
    apply pop_length in E, E1. lia.
  - intros [= <- <- <-] Hg. lia.
Qed.

Lemma check_collisions_lengths (pipe : Pipe.t) (n : nat) :
  forall k birds networks genome_list fit birds' networks' genome_list' fit',
    Trainer.check_collisions n k pipe birds networks genome_list fit =
      Ok (birds', networks', genome_list', fit') ->
    length genome_list = length birds ->
    length genome_list' = length birds'.
Proof.
  induction n as [|n IH]; intros k birds networks genome_list fit
    birds' networks' genome_list' fit' H Hg;
    cbn [Trainer.check_collisions] in H.
  - now injection H as <- <- <- <-.
  - destruct (birds !! k) as [bird|]; [|now injection H as <- <- <- <-].
    destruct (Pipe.collide pipe bird); [|eapply IH; eauto].
    inv_bind H. inv_bind H. inv_bind H. destruct a1 as [[b1 n1] g1].
    apply remove_bird_lengths in E1 as [Hg1 _]; [|exact Hg].
    eapply IH; eauto.
Qed.

Lemma process_pipes_lengths :
  forall todo i birds networks genome_list fit add_pipe
         pipes1 pipes_to_remove birds2 networks2 genome_list2 fit2 add_pipe',
    Trainer.process_pipes i todo birds networks genome_list fit add_pipe =
      Ok (pipes1, pipes_to_remove,
          (birds2, networks2, genome_list2, fit2), add_pipe') ->
    length genome_list = length birds ->
    length genome_list2 = length birds2.
Proof.
  induction todo as [|pipe rest IH]; intros i birds networks genome_list fit
    add_pipe pipes1 pipes_to_remove birds2 networks2 genome_list2 fit2
    add_pipe' H Hg; cbn [Trainer.process_pipes] in H.
  - now injection H as <- <- <- <- <- <- <-.
  - inv_bind H. destruct a as [[[b1 n1] g1] f1].
    apply check_collisions_lengths in E; [|exact Hg].
    inv_bind H. destruct a as [[[rest' rm'] [[[b3 n3] g3] f3]] flag3].
    injection H as <- <- <- <- <- <- <-.
    eapply IH; eauto.
Qed.

Lemma check_bounds_lengths (n : nat) :
  forall birds networks genome_list birds' networks' genome_list',
    Trainer.check_bounds n birds networks genome_list =
      Ok (birds', networks', genome_list') ->
    length genome_list = length birds ->
    length genome_list' = length birds'.
Proof.
  induction n as [|n IH]; intros birds networks genome_list
    birds' networks' genome_list' H Hg; cbn [Trainer.check_bounds] in H.
  - now injection H as <- <- <-.
  - inv_bind H. inv_bind H. destruct a0 as [[b1 n1] g1].
    eapply IH; [exact H|].
    destruct (Trainer.out_of_bounds a).
    + now apply remove_bird_lengths in E0 as [? _].
    + now injection E0 as <- <- <-.
Qed.

Lemma move_birds_length :
  forall todo i networks genome_list pipes k fit birds' fit',
    Trainer.move_birds i todo networks genome_list pipes k fit =
      Ok (birds', fit') ->
    length birds' = length todo.
Proof.
  induction todo as [|bird rest IH]; intros i networks genome_list pipes k
    fit birds' fit' H; cbn [Trainer.move_birds] in H.
  - now injection H as <- <-.
  - do 6 inv_bind H. destruct a4 as [rest' fit''].
    injection H as <- <-. cbn [length]. f_equal. eapply IH; eauto.
Qed.

Lemma tick_lengths (env : Env) (game : GameEngine.t) (s s' : Trainer.state) :
  Trainer.tick env game s = Ok s' ->
  length (Trainer.genome_list s) = length (Trainer.birds s) ->
  length (Trainer.genome_list s') = length (Trainer.birds s').
Proof.
  intros H Hg. unfold Trainer.tick in H.
  inv_bind H. destruct a as [birds1 fit1].
  apply move_birds_length in E.
  inv_bind H.
  destruct a
    as [[[pipes1 rm] [[[birds2 networks2] genome_list2] fit2]] add_pipe].
  apply process_pipes_lengths in E0; [|lia].
  inv_bind H. destruct a as [[[score3 fit3] pipes3] draws3].
  inv_bind H. destruct a as [[birds5 networks5] genome_list5].
  injection H as <-. cbn [Trainer.genome_list Trainer.birds].
  apply check_bounds_lengths in E2; [|exact E0].
  unfold GameEngine.draw_window. now rewrite length_fmap.
Qed.

Lemma game_loop_lengths (env : Env) (game : GameEngine.t) (fuel : nat) :
  forall s s',
    Trainer.game_loop fuel env game s = Ok (Some s') ->
    length (Trainer.genome_list s) = length (Trainer.birds s) ->
    length (Trainer.genome_list s') = length (Trainer.birds s').
Proof.
  induction fuel as [|fuel IH]; intros s s' H Hg;
    cbn [Trainer.game_loop] in H; [discriminate|].
  destruct (Trainer.birds s) as [|b bs] eqn:Eb.
  - injection H as <-. congruence.
  - destruct (handle_events env (Trainer.polls s)).
    + inv_bind H. eapply IH; [exact H|].
      eapply tick_lengths; [exact E|]. congruence.
    + injection H as <-. cbn. exact Hg.
Qed.

Lemma init_population_lengths (env : Env) (game : GameEngine.t)
    (genomes : list (Z * genome)) :
  forall fit birds networks genome_list fit',
    Trainer.init_population env game genomes fit =
      (birds, networks, genome_list, fit') ->
    length genome_list = length birds.
Proof.
  induction genomes as [|[id g] rest IH]; intros fit birds networks
    genome_list fit' H; cbn [Trainer.init_population] in H.
  - now injection H as <- <- <- <-.
  - destruct (Trainer.init_population env game rest (<[g:=0%Q]> fit))
      as [[[b n] gl] f] eqn:E.
    injection H as <- <- <- <-. cbn [length]. f_equal. eapply IH; eauto.
Qed.

(** X22.  Whenever a generation ends with no bird left, whatever the genomes and
    their fitness were, lines 238-242 find [genome_list] empty and the
    trainer keeps the best genome and best fitness it had. *)
Lemma all_eliminated_keeps_best (fuel : nat) (env : Env)
    (game : GameEngine.t) (self self' : Trainer.t)
    (genomes : list (Z * genome)) (fit : fitness_store) (s : Trainer.state) :
  Trainer._eval_genomes fuel env game self genomes fit =
    Ok (Some (self', s)) ->
  Trainer.birds s = [] ->
  Trainer.best_genome self' = Trainer.best_genome self /\
  Trainer.best_fitness self' = Trainer.best_fitness self.
Proof.
  unfold Trainer._eval_genomes. intros H Hb.
  inv_bind H. destruct a as [s0|]; [|discriminate].
  inv_bind H. injection H as <- <-.
  apply game_loop_lengths in E.
  - rewrite Hb in E. apply nil_length_inv in E. rewrite E in E0.
    injection E0 as <-. split; reflexivity.
  - unfold Trainer.init_state.
    destruct (Trainer.init_population env game genomes fit)
      as [[[b n] gl] f] eqn:Ei. cbn.
    eapply init_population_lengths; eauto.
Qed.

(** * Further properties of the code *)

(** ** More on the bird *)

(** X1.  A tilt within [-109, 25], as it is from the start, stays there: a move
    sets it to 25, leaves it, or lowers it by 20, and neither a jump nor a
    draw changes it. *)
Theorem tilt_stays_in_range (b : Bird.t) :
  -109 <= Bird.tilt b <= 25 ->
  -109 <= Bird.tilt (Bird.move b) <= 25 /\
  (Bird.tilt (Bird.move b) = 25 \/
   Bird.tilt (Bird.move b) = Bird.tilt b \/
   Bird.tilt (Bird.move b) = Bird.tilt b - 20) /\
  Bird.tilt (Bird.jump b) = Bird.tilt b /\
  Bird.tilt (Bird.draw b) = Bird.tilt b.
Proof.
  intros H. unfold Bird.move, Bird.MAX_ROTATION, Bird.ROT_VEL.
  cbn [Bird.tilt Bird.y Bird.jump].
  split; [|split; [|split; [reflexivity | apply draw_frame]]].
  - destruct (_ || _).
    + destruct (Bird.tilt b <? 25) eqn:E; lia.
    + destruct (-90 <? Bird.tilt b) eqn:E; [apply Z.ltb_lt in E|]; lia.
  - destruct (_ || _).
    + destruct (Bird.tilt b <? 25) eqn:E; [now left | right; now left].
    + destruct (-90 <? Bird.tilt b) eqn:E; [right; now right | right; now left].
Qed.

Lemma tilt_stays_in_range_witness :
  -109 <= Bird.tilt (Bird.move risen) <= 25.
Proof.
  apply (tilt_stays_in_range risen). vm_compute. split; discriminate.
Defined.

(** X2.  With the animation counter in [0, 20], [draw] keeps it there and
    shows one of the three images of the bird.  Unless the bird dives (tilt
    at most -80), the counter advances modulo 21 and the image is frame 0,
    1, 2, 1 for five draws each and frame 0 again on the draw that wraps;
    a diving bird shows frame 1 with the counter set to 10. *)
Theorem draw_cycles_frames (b : Bird.t) :
  0 <= Bird.img_count b <= 20 ->
  0 <= Bird.img_count (Bird.draw b) <= 20 /\
  (Bird.img (Bird.draw b) = Bird.image b 0 \/
   Bird.img (Bird.draw b) = Bird.image b 1 \/
   Bird.img (Bird.draw b) = Bird.image b 2) /\
  (-80 < Bird.tilt b ->
     Bird.img_count (Bird.draw b) = (Bird.img_count b + 1) mod 21 /\
     Bird.img (Bird.draw b) =
       Bird.image b (if Bird.img_count b <? 5 then 0
                     else if Bird.img_count b <? 10 then 1
                     else if Bird.img_count b <? 15 then 2
                     else if Bird.img_count b <? 20 then 1 else 0)) /\
  (Bird.tilt b <= -80 ->
     Bird.img_count (Bird.draw b) = 10 /\
     Bird.img (Bird.draw b) = Bird.image b 1).
Proof.
  intros H. unfold Bird.draw, Bird.ANIMATION_TIME.
  assert (Hc : Bird.img_count b = 20 \/ Bird.img_count b < 20) by lia.
  destruct (Bird.tilt b <=? -80) eqn:Et;
    [apply Z.leb_le in Et | apply Z.leb_gt in Et].
  - repeat match goal with
           | |- context [if ?c then _ else _] => destruct c
           end; cbn; repeat split; try lia; auto.
  - destruct (Bird.img_count b + 1 <=? 5) eqn:E1;
      [apply Z.leb_le in E1 | apply Z.leb_gt in E1].
    { replace (Bird.img_count b <? 5) with true
        by (symmetry; apply Z.ltb_lt; lia).
      cbn. rewrite Z.mod_small by lia. repeat split; try lia; auto. }
    replace (Bird.img_count b <? 5) with false
      by (symmetry; apply Z.ltb_ge; lia).
    destruct (Bird.img_count b + 1 <=? 5 * 2) eqn:E2;
      [apply Z.leb_le in E2 | apply Z.leb_gt in E2].
    { replace (Bird.img_count b <? 10) with true
        by (symmetry; apply Z.ltb_lt; lia).
      cbn. rewrite Z.mod_small by lia. repeat split; try lia; auto. }
    replace (Bird.img_count b <? 10) with false
      by (symmetry; apply Z.ltb_ge; lia).
    destruct (Bird.img_count b + 1 <=? 5 * 3) eqn:E3;
      [apply Z.leb_le in E3 | apply Z.leb_gt in E3].
    { replace (Bird.img_count b <? 15) with true
        by (symmetry; apply Z.ltb_lt; lia).
      cbn. rewrite Z.mod_small by lia. repeat split; try lia; auto. }
    replace (Bird.img_count b <? 15) with false
      by (symmetry; apply Z.ltb_ge; lia).
    destruct (Bird.img_count b + 1 <=? 5 * 4) eqn:E4;
      [apply Z.leb_le in E4 | apply Z.leb_gt in E4].
    { replace (Bird.img_count b <? 20) with true
        by (symmetry; apply Z.ltb_lt; lia).
      cbn. rewrite Z.mod_small by lia. repeat split; try lia; auto. }
    replace (Bird.img_count b <? 20) with false
      by (symmetry; apply Z.ltb_ge; lia).
    assert (He : Bird.img_count b = 20) by lia.
    rewrite He. change (20 + 1 =? 5 * 4 + 1) with true.
    cbn. repeat split; try lia; auto.
Qed.

Lemma draw_cycles_frames_witness :
  0 <= Bird.img_count (Bird.draw risen) <= 20.
Proof.
  apply (draw_cycles_frames risen). vm_compute. split; discriminate.
Defined.

Lemma move_y (b : Bird.t) :
  Bird.y (Bird.move b) = (Bird.y b + Bird.displacement b)%Q.
Proof. reflexivity. Qed.

(** X3.  After a jump, whatever the bird's state was, the next six moves lift
    it by 11, 17, 20, 20, 17 and 11, that is 96 in all; the seventh leaves it
    there, the eighth lowers it by 12, and from the tenth on every move
    lowers it by the terminal 16. *)
Theorem jump_rises_96 (b : Bird.t) :
  let up (k : nat) := Nat.iter k Bird.move (Bird.jump b) in
  (Bird.y (up 1%nat) == Bird.y b - 11)%Q /\
  (Bird.y (up 2%nat) == Bird.y b - 28)%Q /\
  (Bird.y (up 3%nat) == Bird.y b - 48)%Q /\
  (Bird.y (up 4%nat) == Bird.y b - 68)%Q /\
  (Bird.y (up 5%nat) == Bird.y b - 85)%Q /\
  (Bird.y (up 6%nat) == Bird.y b - 96)%Q /\
  (Bird.y (up 7%nat) == Bird.y b - 96)%Q /\
  (Bird.y (up 8%nat) == Bird.y b - 84)%Q /\
  (forall k, (9 <= k)%nat -> (Bird.y (up (S k)) == Bird.y (up k) + 16)%Q).
Proof.
  intros up.
  assert (Hvt : forall k, Bird.vel (up k) = Bird.JUMP_VELOCITY /\
                          Bird.tick_count (up k) = Z.of_nat k).
  { induction k as [|k [IHv IHt]]; [split; reflexivity|].
    unfold up in *. rewrite Nat.iter_succ. split; [exact IHv|].
    change (Bird.tick_count (Bird.move ?x)) with (Bird.tick_count x + 1).
    rewrite IHt. lia. }
  assert (Hd : forall k d,
             (Bird.raw_displacement Bird.JUMP_VELOCITY (Z.of_nat k + 1)
              == d)%Q ->
             (Bird.y (up (S k)) ==
              Bird.y (up k) + Bird.boost (Bird.terminal d))%Q).
  { intros k d Hraw. unfold up. rewrite Nat.iter_succ. fold (up k).
    rewrite move_y. unfold Bird.displacement.
    destruct (Hvt k) as [-> ->].
    apply Qplus_comp; [reflexivity|].
    unfold Bird.boost, Bird.terminal.
    rewrite (Qle_bool_proper 16 16 _ d) by (reflexivity || exact Hraw).
    destruct (Qle_bool 16 d) eqn:E16.
    - apply Qle_bool_iff in E16.
      assert (Hc1 : (Bird.raw_displacement Bird.JUMP_VELOCITY
                       (Z.of_nat k + 1) /
                     Qabs (Bird.raw_displacement Bird.JUMP_VELOCITY
                       (Z.of_nat k + 1)) * 16 == 16)%Q).
      { rewrite Qabs_pos by lra. field. lra. }
      assert (Hc2 : (d / Qabs d * 16 == 16)%Q).
      { rewrite Qabs_pos by lra. field. lra. }
      rewrite (Qltb_proper _ 16 0 0) by (reflexivity || exact Hc1).
      rewrite (Qltb_proper (d / Qabs d * 16) 16 0 0)
        by (reflexivity || exact Hc2).
      change (Qltb 16 0) with false. cbv iota. lra.
    - rewrite (Qltb_proper _ d 0 0) by (reflexivity || exact Hraw).
      destruct (Qltb d 0); lra. }
  assert (H0 : Bird.y (up 0%nat) = Bird.y b) by reflexivity.
  pose proof (Hd 0%nat (-9)%Q eq_refl) as H1.
  pose proof (Hd 1%nat (-15)%Q eq_refl) as H2.
  pose proof (Hd 2%nat (-18)%Q eq_refl) as H3.
  pose proof (Hd 3%nat (-18)%Q eq_refl) as H4.
  pose proof (Hd 4%nat (-15)%Q eq_refl) as H5.
  pose proof (Hd 5%nat (-9)%Q eq_refl) as H6.
  pose proof (Hd 6%nat 0%Q eq_refl) as H7.
  pose proof (Hd 7%nat 12%Q eq_refl) as H8.
  change (Bird.boost (Bird.terminal (-9))) with (-9 - 2)%Q in *.
  change (Bird.boost (Bird.terminal (-15))) with (-15 - 2)%Q in *.
  change (Bird.boost (Bird.terminal (-18))) with (-18 - 2)%Q in *.
  change (Bird.boost (Bird.terminal 0)) with 0%Q in *.
  change (Bird.boost (Bird.terminal 12)) with 12%Q in *.
  rewrite H0 in H1.
  repeat split; try lra.
  intros k Hk.
  unfold up. rewrite Nat.iter_succ. fold (up k). rewrite move_y.
  unfold Bird.displacement. destruct (Hvt k) as [-> ->].
  apply Qplus_comp; [reflexivity|].
  assert (H10 : (10 <= inject_Z (Z.of_nat k + 1))%Q).
  { change 10%Q with (inject_Z 10). rewrite <- Zle_Qle. lia. }
  assert (Hraw : (16 <= Bird.raw_displacement Bird.JUMP_VELOCITY
                          (Z.of_nat k + 1))%Q).
  { unfold Bird.raw_displacement, Bird.JUMP_VELOCITY, Bird.GRAVITY.
    change (inject_Z (Z.of_nat k + 1) ^ 2)%Q
      with (inject_Z (Z.of_nat k + 1) * inject_Z (Z.of_nat k + 1))%Q.
    nra. }
  pose proof (terminal_clamped _ Hraw) as Hterm.
  rewrite boost_nonnegative by lra. exact Hterm.
Qed.

(** ** More on the pipes *)

Lemma pipe_moves_fields (n : nat) (p : Pipe.t) :
  Pipe.x (Nat.iter n Pipe.move p) = Pipe.x p - 5 * Z.of_nat n /\
  Pipe.height (Nat.iter n Pipe.move p) = Pipe.height p /\
  Pipe.top (Nat.iter n Pipe.move p) = Pipe.top p /\
  Pipe.bottom (Nat.iter n Pipe.move p) = Pipe.bottom p /\
  Pipe.passed (Nat.iter n Pipe.move p) = Pipe.passed p /\
  Pipe.PIPE_TOP (Nat.iter n Pipe.move p) = Pipe.PIPE_TOP p /\
  Pipe.PIPE_BOTTOM (Nat.iter n Pipe.move p) = Pipe.PIPE_BOTTOM p.
Proof.
  induction n as [|n IH]; [cbn; repeat split; lia|].
  rewrite Nat.iter_succ. destruct IH as (Hx & Hh & Ht & Hb & Hp & H1 & H2).
  cbn [Pipe.move Pipe.x Pipe.height Pipe.top Pipe.bottom Pipe.passed
       Pipe.PIPE_TOP Pipe.PIPE_BOTTOM].
  unfold Pipe.VEL. repeat split; try assumption. lia.
Qed.

(** X4.  [n] moves take a pipe 5 n to the left and change neither its gap
    nor its images; it is off screen after them exactly when its x plus its
    width is below 5 n, and a pipe off screen stays off screen. *)
Theorem pipe_leaves_screen (n : nat) (p : Pipe.t) :
  Pipe.x (Nat.iter n Pipe.move p) = Pipe.x p - 5 * Z.of_nat n /\
  Pipe.height (Nat.iter n Pipe.move p) = Pipe.height p /\
  Pipe.bottom (Nat.iter n Pipe.move p) = Pipe.bottom p /\
  (Pipe.is_off_screen (Nat.iter n Pipe.move p) = true <->
   Pipe.x p + get_width (Pipe.PIPE_TOP p) < 5 * Z.of_nat n) /\
  (Pipe.is_off_screen p = true ->
   Pipe.is_off_screen (Nat.iter n Pipe.move p) = true).
Proof.
  destruct (pipe_moves_fields n p) as (Hx & Hh & _ & Hb & _ & Ht & _).
  split; [exact Hx|]. split; [exact Hh|]. split; [exact Hb|].
  unfold Pipe.is_off_screen. rewrite Hx, Ht, !Z.ltb_lt. lia.
Qed.

(** X5.  [has_passed] answers true exactly for a pipe not marked whose x is
    below the bird's; once [mark_passed] has marked it, it answers false for
    every bird position after any number of moves; marking commutes with
    moving and marking twice is marking once. *)
Theorem marked_pipe_never_passes_again (n : nat) (p : Pipe.t) (bird_x : Z) :
  Pipe.has_passed (Nat.iter n Pipe.move (Pipe.mark_passed p)) bird_x = false /\
  Nat.iter n Pipe.move (Pipe.mark_passed p) =
    Pipe.mark_passed (Nat.iter n Pipe.move p) /\
  Pipe.mark_passed (Pipe.mark_passed p) = Pipe.mark_passed p /\
  (Pipe.has_passed (Nat.iter n Pipe.move p) bird_x = true <->
   Pipe.passed p = false /\ Pipe.x p - 5 * Z.of_nat n < bird_x).
Proof.
  split; [|split; [|split]].
  - unfold Pipe.has_passed.
    destruct (pipe_moves_fields n (Pipe.mark_passed p))
      as (_ & _ & _ & _ & -> & _). reflexivity.
  - induction n as [|n IH]; [reflexivity|].
    rewrite !Nat.iter_succ, IH. reflexivity.
  - reflexivity.
  - unfold Pipe.has_passed.
    destruct (pipe_moves_fields n p) as (-> & _ & _ & _ & -> & _).
    rewrite andb_true_iff, negb_true_iff, Z.ltb_lt. tauto.
Qed.

(** X6.  For a pipe whose height [set_height] has drawn, [get_gap_center]
    gives a point inside the gap, 100 below its start and 100 above the
    bottom pipe, between 150 and 550, and horizontally at the floor half of
    the width of the pipe. *)
Theorem gap_center_inside_gap (raw : Z) (p0 : Pipe.t) :
  let p := Pipe.set_height raw p0 in
  let '(gap_x, gap_y) := Pipe.get_gap_center p in
  Pipe.height p < gap_y < Pipe.bottom p /\
  gap_y - Pipe.height p = 100 /\ Pipe.bottom p - gap_y = 100 /\
  150 <= gap_y < 550 /\
  Pipe.x p <= gap_x <= Pipe.x p + get_width (Pipe.PIPE_TOP p) /\
  2 * (gap_x - Pipe.x p) <= get_width (Pipe.PIPE_TOP p) <
    2 * (gap_x - Pipe.x p) + 2.
Proof.
  pose proof (randrange_bounds Pipe.MIN_HEIGHT Pipe.MAX_HEIGHT raw eq_refl)
    as Hr.
  assert (Hr' : 50 <= randrange Pipe.MIN_HEIGHT Pipe.MAX_HEIGHT raw < 450)
    by exact Hr.
  cbn. unfold Pipe.GAP. change (200 / 2) with 100.
  pose proof (Z.div_mod (get_width (Pipe.PIPE_TOP p0)) 2 ltac:(lia)) as Hd.
  pose proof (Z.mod_pos_bound (get_width (Pipe.PIPE_TOP p0)) 2 ltac:(lia)).
  assert (0 <= get_width (Pipe.PIPE_TOP p0)) by (unfold get_width; lia).
  repeat split; lia.
Qed.

(** ** Pixel-perfect collision *)

Lemma grid_elem (w h : nat) (px py : Z) :
  0 <= px < Z.of_nat w -> 0 <= py < Z.of_nat h -> (px, py) ∈ grid w h.
Proof.
  intros Hx Hy. unfold grid.
  apply list_elem_of_bind. exists (Z.to_nat px). split.
  - apply list_elem_of_bind. exists (Z.to_nat py). split.
    + rewrite !Z2Nat.id by lia. apply list_elem_of_singleton. reflexivity.
    + apply elem_of_seq. lia.
  - apply elem_of_seq. lia.
Qed.

Lemma find_is_Some {A : Type} (f : A -> bool) (l : list A) :
  is_Some (find f l) <-> exists a, a ∈ l /\ f a = true.
Proof.
  induction l as [|a l IH]; cbn.
  - split; [intros [? [=]] | intros (a & Ha & _); now apply elem_of_nil in Ha].
  - destruct (f a) eqn:E.
    + split; [intros _; exists a; split; [constructor | exact E] | eauto].
    + rewrite IH. split.
      * intros (b & Hb & Hf). exists b. split; [now constructor | exact Hf].
      * intros (b & Hb & Hf). apply elem_of_cons in Hb as [->|Hb].
        -- congruence.
        -- exists b. now split.
Qed.

Lemma get_at_range (m : Mask) (px py : Z) :
  get_at m px py = true ->
  0 <= px < Z.of_nat (mask_w m) /\ 0 <= py < Z.of_nat (mask_h m).
Proof.
  unfold get_at. rewrite !andb_true_iff, !Z.leb_le, !Z.ltb_lt. tauto.
Qed.

Lemma overlap_is_Some (m other : Mask) (ox oy : Z) :
  truthy (overlap m other (ox, oy)) = true <->
  exists px py,
    get_at m px py = true /\ get_at other (px - ox) (py - oy) = true.
Proof.
  assert (Ht : forall o : option (Z * Z), truthy o = true <-> is_Some o).
  { intros [q|]; cbn; split; eauto; try discriminate. intros [? [=]]. }
  rewrite Ht. unfold overlap. rewrite find_is_Some. cbn. split.
  - intros ([px py] & _ & Hf). apply andb_true_iff in Hf. eauto.
  - intros (px & py & H1 & H2). exists (px, py). split.
    + apply get_at_range in H1. now apply grid_elem.
    + cbn. now rewrite H1, H2.
Qed.

Lemma collide_iff_pixels (p : Pipe.t) (bird : Bird.t) :
  let opaque_at (s : Surface) (left top sx sy : Z) :=
    get_at (from_surface s) (sx - left) (sy - top) = true in
  Pipe.collide p bird = true <->
  exists sx sy,
    opaque_at (Bird.img bird) (Bird.x bird) (py_round (Bird.y bird)) sx sy /\
    (opaque_at (Pipe.PIPE_TOP p) (Pipe.x p) (Pipe.top p) sx sy \/
     opaque_at (Pipe.PIPE_BOTTOM p) (Pipe.x p) (Pipe.bottom p) sx sy).
Proof.
  intros opaque_at. unfold Pipe.collide, Bird.get_mask, opaque_at.
  rewrite orb_true_iff, !overlap_is_Some. split.
  - intros [(px & py & H1 & H2)|(px & py & H1 & H2)];
      exists (px + Bird.x bird), (py + py_round (Bird.y bird)).
    + split; [|left].
      * now replace (px + Bird.x bird - Bird.x bird) with px by lia;
          replace (py + py_round (Bird.y bird) - py_round (Bird.y bird))
            with py by lia.
      * now replace (px + Bird.x bird - Pipe.x p)
          with (px - (Pipe.x p - Bird.x bird)) by lia;
          replace (py + py_round (Bird.y bird) - Pipe.top p)
            with (py - (Pipe.top p - py_round (Bird.y bird))) by lia.
    + split; [|right].
      * now replace (px + Bird.x bird - Bird.x bird) with px by lia;
          replace (py + py_round (Bird.y bird) - py_round (Bird.y bird))
            with py by lia.
      * now replace (px + Bird.x bird - Pipe.x p)
          with (px - (Pipe.x p - Bird.x bird)) by lia;
          replace (py + py_round (Bird.y bird) - Pipe.bottom p)
            with (py - (Pipe.bottom p - py_round (Bird.y bird))) by lia.
  - intros (sx & sy & Hb & [Ht|Ht]); [left|right];
      exists (sx - Bird.x bird), (sy - py_round (Bird.y bird));
      (split; [exact Hb|]).
    + now replace (sx - Bird.x bird - (Pipe.x p - Bird.x bird))
        with (sx - Pipe.x p) by lia;
        replace (sy - py_round (Bird.y bird) -
                 (Pipe.top p - py_round (Bird.y bird)))
          with (sy - Pipe.top p) by lia.
    + now replace (sx - Bird.x bird - (Pipe.x p - Bird.x bird))
        with (sx - Pipe.x p) by lia;
        replace (sy - py_round (Bird.y bird) -
                 (Pipe.bottom p - py_round (Bird.y bird)))
          with (sy - Pipe.bottom p) by lia.
Qed.

(** X7.  [collide] is true exactly when some point of the screen is opaque
    in the image of the bird, drawn at (x, round(y)), and opaque in the top
    image drawn at (pipe.x, top) or in the bottom image drawn at (pipe.x,
    bottom). *)
Theorem collide_pixels (p : Pipe.t) (bird : Bird.t) :
  let opaque_at (s : Surface) (left top sx sy : Z) :=
    get_at (from_surface s) (sx - left) (sy - top) = true in
  Pipe.collide p bird = true <->
  exists sx sy,
    opaque_at (Bird.img bird) (Bird.x bird) (py_round (Bird.y bird)) sx sy /\
    (opaque_at (Pipe.PIPE_TOP p) (Pipe.x p) (Pipe.top p) sx sy \/
     opaque_at (Pipe.PIPE_BOTTOM p) (Pipe.x p) (Pipe.bottom p) sx sy).
Proof. exact (collide_iff_pixels p bird). Qed.

Lemma collide_false_iff (p : Pipe.t) (bird : Bird.t) :
  Pipe.collide p bird = false <->
  forall sx sy,
    get_at (from_surface (Bird.img bird))
           (sx - Bird.x bird) (sy - py_round (Bird.y bird)) = true ->
    get_at (from_surface (Pipe.PIPE_TOP p))
           (sx - Pipe.x p) (sy - Pipe.top p) = false /\
    get_at (from_surface (Pipe.PIPE_BOTTOM p))
           (sx - Pipe.x p) (sy - Pipe.bottom p) = false.
Proof.
  pose proof (collide_iff_pixels p bird) as H. cbv zeta in H. split.
  - intros Hc sx sy Hb.
    split; apply not_true_is_false; intros Ht;
      assert (Pipe.collide p bird = true) by (apply H; eauto); congruence.
  - intros Hall. apply not_true_is_false. intros Hc.
    apply H in Hc as (sx & sy & Hb & [Ht|Ht]);
      destruct (Hall sx sy Hb); congruence.
Qed.

(** X8.  A bird entirely to the left of the pipe, entirely to its right, or
    with all its rows between the end of the top image and the start of the
    bottom one does not collide, whatever the images show. *)
Theorem collide_clear (p : Pipe.t) (bird : Bird.t) :
  Bird.x bird + get_width (Bird.img bird) <= Pipe.x p \/
  (Pipe.x p + get_width (Pipe.PIPE_TOP p) <= Bird.x bird /\
   Pipe.x p + get_width (Pipe.PIPE_BOTTOM p) <= Bird.x bird) \/
  (Pipe.top p + get_height (Pipe.PIPE_TOP p) <= py_round (Bird.y bird) /\
   py_round (Bird.y bird) + get_height (Bird.img bird) <= Pipe.bottom p) ->
  Pipe.collide p bird = false.
Proof.
  intros H. apply collide_false_iff. intros sx sy Hb.
  apply get_at_range in Hb. cbn in Hb.
  split; apply not_true_is_false; intros Ht;
    apply get_at_range in Ht; cbn in Ht;
    unfold get_width, get_height in H; lia.
Qed.

Lemma collide_clear_witness :
  Pipe.collide (GameEngine.create_pipe game0 700 250)
               (GameEngine.create_bird game0) = false.
Proof.
  apply collide_clear. left. vm_compute. discriminate.
Defined.

(** ** The floor *)

(** X9.  For a floor image at least 5 wide, after any number of moves from
    the initial position the two tiles abut, the left one starts within one
    width to the left of 0, and so they cover the range from 0 to the width;
    width and collision height are unchanged, and [reset] gives the initial
    floor back. *)
Theorem base_tiles_cover (n : nat) (y0 : Z) (image : Surface) :
  5 <= get_width image ->
  let b := Nat.iter n Base.move (Base.init y0 image) in
  Base.width b = get_width image /\
  Base.get_collision_y b = y0 /\
  (Base.x2 b = Base.x1 b + Base.width b \/
   Base.x1 b = Base.x2 b + Base.width b) /\
  - Base.width b <= Z.min (Base.x1 b) (Base.x2 b) <= 0 /\
  Base.width b <= Z.max (Base.x1 b) (Base.x2 b) + Base.width b /\
  Base.reset b = Base.init y0 image.
Proof.
  intros Hw. cbv zeta.
  induction n as [|n IH].
  - cbn. unfold Base.reset. cbn. repeat split; lia.
  - rewrite Nat.iter_succ.
    set (b := Nat.iter n Base.move (Base.init y0 image)) in *.
    destruct IH as (Hwd & Hy & Hadj & Hmin & Hmax & Hreset).
    unfold Base.reset, Base.init in Hreset.
    unfold Base.move, Base.reset, Base.get_collision_y, Base.VEL, Base.init.
    cbn [Base.y Base.width Base.x1 Base.x2].
    unfold Base.get_collision_y in Hy.
    rewrite Hwd in *. rewrite Hy.
    destruct (Base.x1 b - 5 + get_width image <? 0) eqn:E1;
      [apply Z.ltb_lt in E1 | apply Z.ltb_ge in E1];
      destruct (Base.x2 b - 5 + get_width image <? 0) eqn:E2;
      [apply Z.ltb_lt in E2 | apply Z.ltb_ge in E2 |
       apply Z.ltb_lt in E2 | apply Z.ltb_ge in E2];
      repeat split; try lia.
Qed.

Lemma base_tiles_cover_witness :
  Base.x1 (Nat.iter 200 Base.move (Base.init 730 (solid 672 224))) <= 0 \/
  Base.x2 (Nat.iter 200 Base.move (Base.init 730 (solid 672 224))) <= 0.
Proof.
  pose proof (base_tiles_cover 200 730 (solid 672 224)) as H.
  cbv zeta in H.
  destruct H as (_ & _ & _ & Hmin & _); [vm_compute; discriminate|].
  lia.
Defined.

(** ** utils/helpers.py *)

(** X10.  [clamp] returns a value of [min, max] when min <= max: the value
    itself when it lies in between, the minimum below and the maximum
    above; clamping twice is clamping once; with the bounds in the wrong
    order (max < min) it returns the minimum. *)
Theorem clamp_bounds (value min_value max_value : Q) :
  ((min_value <= max_value)%Q ->
     (min_value <= Helpers.clamp value min_value max_value <= max_value)%Q) /\
  ((min_value <= value <= max_value)%Q ->
     (Helpers.clamp value min_value max_value == value)%Q) /\
  ((value < min_value)%Q ->
     Helpers.clamp value min_value max_value = min_value) /\
  ((max_value < value)%Q -> (min_value < max_value)%Q ->
     Helpers.clamp value min_value max_value = max_value) /\
  ((max_value < min_value)%Q ->
     Helpers.clamp value min_value max_value = min_value) /\
  (Helpers.clamp (Helpers.clamp value min_value max_value)
     min_value max_value
   == Helpers.clamp value min_value max_value)%Q.
Proof.
  unfold Helpers.clamp, Helpers.py_max, Helpers.py_min.
  repeat split.
  all: repeat match goal with
         | |- context [Qltb ?a ?b] =>
             let E := fresh "E" in
             destruct (Qltb a b) eqn:E;
             [apply Qltb_lt in E | apply Qltb_ge in E]
         | H : context [Qltb ?a ?b] |- _ =>
             let E := fresh "E" in
             destruct (Qltb a b) eqn:E;
             [apply Qltb_lt in E | apply Qltb_ge in E]
         end; intros; try reflexivity; try lra.
Qed.

(** ** The boundary pass *)

Lemma zip_delete {A B : Type} (i : nat) (a : list A) (b : list B) :
  zip (delete i a) (delete i b) = delete i (zip a b).
Proof.
  revert i b. induction a as [|x a IH]; intros i b.
  - now destruct i.
  - destruct b as [|y b], i as [|i]; cbn.
    + now destruct a.
    + reflexivity.
    + reflexivity.
    + f_equal. apply IH.
Qed.

Lemma take_delete_same {A : Type} (i : nat) (l : list A) :
  (i < length l)%nat -> take i (delete i l) = take i l.
Proof.
  intros H. rewrite delete_take_drop.
  apply take_app_length'. rewrite length_take. lia.
Qed.

Lemma drop_delete_same {A : Type} (i : nat) (l : list A) :
  (i < length l)%nat -> drop i (delete i l) = drop (S i) l.
Proof.
  intros H. rewrite delete_take_drop.
  apply drop_app_length'. rewrite length_take. lia.
Qed.

Lemma pop_nat_Ok {A : Type} (l l' : list A) (i : nat) :
  pop l (Z.of_nat i) = Ok l' -> l' = delete i l /\ (i < length l)%nat.
Proof.
  unfold pop.
  replace (Z.of_nat i <? 0) with false by (symmetry; apply Z.ltb_ge; lia).
  destruct (_ && _) eqn:E; [|discriminate].
  intros [= <-]. rewrite Nat2Z.id. split; [reflexivity|].
  apply andb_true_iff in E as [_ E]. apply Z.ltb_lt in E. lia.
Qed.

Lemma remove_bird_at {A B C : Type} (i : nat)
    (birds birds' : list A) (networks networks' : list B)
    (genomes genomes' : list C) :
  (i < length birds)%nat ->
  Trainer._remove_bird (Z.of_nat i) birds networks genomes =
    Ok (birds', networks', genomes') ->
  birds' = delete i birds /\ networks' = delete i networks /\
  genomes' = delete i genomes /\
  (i < length networks)%nat /\ (i < length genomes)%nat.
Proof.
  intros Hi. unfold Trainer._remove_bird.
  replace (0 <=? Z.of_nat i) with true by (symmetry; apply Z.leb_le; lia).
  replace (Z.of_nat i <? Z.of_nat (length birds)) with true
    by (symmetry; apply Z.ltb_lt; lia).
  cbn [andb]. intros H. inv_bind H. inv_bind H. inv_bind H.
  injection H as <- <- <-.
  apply pop_nat_Ok in E as [-> _]. apply pop_nat_Ok in E0 as [-> ?].
  apply pop_nat_Ok in E1 as [-> ?]. auto.
Qed.

Lemma check_bounds_filter (n : nat) :
  forall birds networks genome_list birds' networks' genome_list',
    Trainer.check_bounds n birds networks genome_list =
      Ok (birds', networks', genome_list') ->
    (n <= length birds)%nat ->
    length networks = length birds -> length genome_list = length birds ->
    let keep (t : Bird.t * (Net * genome)) :=
      Trainer.out_of_bounds t.1 = false in
    let all := zip birds (zip networks genome_list) in
    zip birds' (zip networks' genome_list') =
      filter keep (take n all) ++ drop n all /\
    length networks' = length birds' /\
    length genome_list' = length birds'.
Proof.
  induction n as [|n IH]; intros birds networks genome_list
    birds' networks' genome_list' H Hn Hln Hlg keep all;
    cbn [Trainer.check_bounds] in H.
  - injection H as <- <- <-. cbn. auto.
  - inv_bind H. inv_bind H. destruct a0 as [[b1 n1] g1].
    unfold getitem in E. destruct (birds !! n) as [bird|] eqn:Eb;
      [|discriminate]. injection E as <-.
    destruct (lookup_lt_is_Some_2 networks n) as [net Hnet]; [lia|].
    destruct (lookup_lt_is_Some_2 genome_list n) as [g Hg]; [lia|].
    assert (Hall : all !! n = Some (bird, (net, g))).
    { unfold all. rewrite !lookup_zip_with, Eb, Hnet, Hg. reflexivity. }
    assert (Hlen : length all = length birds).
    { unfold all. rewrite !length_zip_with. lia. }
    rewrite (take_S_r _ _ _ Hall), filter_app.
    destruct (Trainer.out_of_bounds bird) eqn:Eo.
    + apply remove_bird_at in E0 as (-> & -> & -> & _ & _); [|lia].
      assert (Hb : (n < length birds)%nat) by lia.
      destruct (IH _ _ _ _ _ _ H) as (Hz & Hl1 & Hl2);
        try (rewrite !length_delete by (apply lookup_lt_is_Some; lia); lia).
      split; [|auto].
      rewrite Hz, !zip_delete. fold all.
      rewrite take_delete_same, drop_delete_same by lia.
      rewrite filter_cons_False, filter_nil, app_nil_r; [reflexivity|].
      unfold keep. cbn. congruence.
    + injection E0 as <- <- <-.
      destruct (IH _ _ _ _ _ _ H) as (Hz & Hl1 & Hl2); try lia.
      split; [|auto]. rewrite Hz. fold all.
      rewrite (drop_S _ _ _ Hall).
      rewrite filter_cons_True, filter_nil by exact Eo.
      now rewrite <- app_assoc.
Qed.

Lemma check_bounds_total (n : nat) :
  forall (birds : list Bird.t) (networks : list Net)
         (genome_list : list genome),
    (n <= length birds)%nat ->
    length networks = length birds -> length genome_list = length birds ->
    exists r, Trainer.check_bounds n birds networks genome_list = Ok r.
Proof.
  induction n as [|n IH]; intros birds networks genome_list Hn Hln Hlg;
    cbn [Trainer.check_bounds]; [eauto|].
  destruct (lookup_lt_is_Some_2 birds n) as [bird Hb]; [lia|].
  rewrite (getitem_Some _ _ _ Hb). cbn [mbind result_bind].
  destruct (Trainer.out_of_bounds bird).
  - rewrite remove_bird_in_range by lia. cbn [mbind result_bind].
    apply IH; rewrite !length_delete by (apply lookup_lt_is_Some; lia); lia.
  - cbn [mbind result_bind]. apply IH; lia.
Qed.

Lemma filter_fst {A B : Type} (P : A -> Prop) `{!forall a, Decision (P a)}
    (l : list (A * B)) :
  (filter (fun t => P t.1) l).*1 = filter P (l.*1).
Proof.
  induction l as [|[a b] l IH]; [reflexivity|].
  rewrite fmap_cons. cbn [fst].
  destruct (decide (P a)) as [Hp|Hp].
  - rewrite !filter_cons_True by exact Hp. rewrite fmap_cons. now f_equal.
  - rewrite !filter_cons_False by exact Hp. exact IH.
Qed.

Lemma check_bounds_exact (birds : list Bird.t) (networks : list Net)
    (genome_list : list genome) (birds' : list Bird.t)
    (networks' : list Net) (genome_list' : list genome) :
  Trainer.check_bounds (length birds) birds networks genome_list =
    Ok (birds', networks', genome_list') ->
  length networks = length birds -> length genome_list = length birds ->
  zip birds' (zip networks' genome_list') =
    filter (fun t => Trainer.out_of_bounds t.1 = false)
           (zip birds (zip networks genome_list)) /\
  birds' = filter (fun b => Trainer.out_of_bounds b = false) birds /\
  length networks' = length birds' /\
  length genome_list' = length birds'.
Proof.
  intros Hrun Hln Hlg.
  destruct (check_bounds_filter _ _ _ _ _ _ _ Hrun) as (Hz & Hl1 & Hl2);
    try lia.
  cbv zeta in Hz.
  rewrite firstn_all2, drop_ge, app_nil_r in Hz
    by (rewrite !length_zip_with; lia).
  split; [exact Hz|]. split; [|auto].
  rewrite <- (fst_zip birds' (zip networks' genome_list'))
    by (rewrite length_zip_with; lia).
  rewrite Hz.
  pose proof (filter_fst (fun b => Trainer.out_of_bounds b = false)
                (zip birds (zip networks genome_list))) as Hf.
  cbv beta in Hf. rewrite Hf.
  rewrite fst_zip by (rewrite length_zip_with; lia). reflexivity.
Qed.

(** X11.  With the three lists of equal length, the pass of lines 222-225
    over the positions from the last to the first removes exactly the
    birds that are out of bounds, each with its own network and genome,
    and keeps the others paired and in order. *)
Theorem check_bounds_removes_outsiders (birds : list Bird.t)
    (networks : list Net) (genome_list : list genome) :
  length networks = length birds -> length genome_list = length birds ->
  exists birds' networks' genome_list',
    Trainer.check_bounds (length birds) birds networks genome_list =
      Ok (birds', networks', genome_list') /\
    zip birds' (zip networks' genome_list') =
      filter (fun t => Trainer.out_of_bounds t.1 = false)
             (zip birds (zip networks genome_list)) /\
    birds' = filter (fun b => Trainer.out_of_bounds b = false) birds /\
    length networks' = length birds' /\
    length genome_list' = length birds'.
Proof.
  intros Hln Hlg.
  destruct (check_bounds_total (length birds) birds networks genome_list)
    as [[[birds' networks'] genome_list'] Hrun]; try lia.
  exists birds', networks', genome_list'. split; [exact Hrun|].
  now apply check_bounds_exact.
Qed.

Lemma check_bounds_removes_outsiders_witness :
  exists birds' networks' genome_list',
    Trainer.check_bounds 2
      [Bird.reset 230 700 risen; Bird.reset 230 350 risen]
      [create_net env0 1%nat; create_net env0 2%nat] [1%nat; 2%nat] =
      Ok (birds', networks', genome_list') /\
    birds' = filter (fun b => Trainer.out_of_bounds b = false)
               [Bird.reset 230 700 risen; Bird.reset 230 350 risen] /\
    length genome_list' = length birds'.
Proof.
  destruct (check_bounds_removes_outsiders
              [Bird.reset 230 700 risen; Bird.reset 230 350 risen]
              [create_net env0 1%nat; create_net env0 2%nat]
              [1%nat; 2%nat] eq_refl eq_refl)
    as (b & n & g & Hrun & _ & Hb & _ & Hg).
  exists b, n, g. auto.
Defined.

(** ** The collision pass *)

Lemma check_collisions_prefix (pipe : Pipe.t) (n : nat) :
  forall k birds networks genome_list fit birds' networks' genome_list' fit',
    Trainer.check_collisions n k pipe birds networks genome_list fit =
      Ok (birds', networks', genome_list', fit') ->
    forall j, (j < k)%nat ->
      birds' !! j = birds !! j /\ networks' !! j = networks !! j /\
      genome_list' !! j = genome_list !! j.
Proof.
  induction n as [|n IH]; intros k birds networks genome_list fit
    birds' networks' genome_list' fit' H j Hj;
    cbn [Trainer.check_collisions] in H.
  - now injection H as <- <- <- <-.
  - destruct (birds !! k) as [bird|] eqn:Eb;
      [|now injection H as <- <- <- <-].
    destruct (Pipe.collide pipe bird).
    + inv_bind H. inv_bind H. inv_bind H. destruct a1 as [[b1 n1] g1].
      apply remove_bird_at in E1 as (-> & -> & -> & _ & _);
        [|now apply lookup_lt_Some in Eb].
      destruct (IH _ _ _ _ _ _ _ _ _ H j) as (H1 & H2 & H3); [lia|].
      rewrite H1, H2, H3, !list_lookup_delete_lt by lia. auto.
    + apply (IH _ _ _ _ _ _ _ _ _ H j). lia.
Qed.

(** X12.  [enumerate] goes on to the next position after a removal, so the
    bird that slides into the freed position is not examined against this
    pipe: when the first bird collides, the second one, with its network
    and genome, heads the lists after the pass, whether or not it overlaps
    the pipe too. *)
Theorem collision_spares_next (pipe : Pipe.t) (b0 b1 : Bird.t)
    (rest : list Bird.t) (networks : list Net) (genome_list : list genome)
    (fit : fitness_store) (birds' : list Bird.t) (networks' : list Net)
    (genome_list' : list genome) (fit' : fitness_store) :
  Trainer.check_collisions (length (b0 :: b1 :: rest)) 0 pipe
    (b0 :: b1 :: rest) networks genome_list fit =
    Ok (birds', networks', genome_list', fit') ->
  Pipe.collide pipe b0 = true ->
  birds' !! 0%nat = Some b1 /\
  networks' !! 0%nat = networks !! 1%nat /\
  genome_list' !! 0%nat = genome_list !! 1%nat.
Proof.
  intros H Hc. cbn [length Trainer.check_collisions lookup list_lookup] in H.
  rewrite Hc in H. inv_bind H. inv_bind H. inv_bind H.
  destruct a1 as [[bs ns] gs].
  apply (remove_bird_at 0) in E1 as (-> & -> & -> & _ & _); [|cbn; lia].
  destruct (check_collisions_prefix pipe (S (length rest)) 1
              (delete 0%nat (b0 :: b1 :: rest)) (delete 0%nat networks)
              (delete 0%nat genome_list) a0 birds' networks' genome_list'
              fit' H 0%nat) as (H1 & H2 & H3); [lia|].
  rewrite H1, H2, H3. repeat split.
  - now destruct networks.
  - now destruct genome_list.
Qed.

Lemma collision_spares_next_witness :
  exists birds' networks' genome_list' fit',
    Trainer.check_collisions 2 0 (GameEngine.create_pipe game0 230 250)
      [Bird.reset 230 100 risen; Bird.reset 230 100 risen]
      [create_net env0 1%nat; create_net env0 2%nat] [1%nat; 2%nat]
      ({[1%nat := 0%Q; 2%nat := 0%Q]} : fitness_store) =
      Ok (birds', networks', genome_list', fit') /\
    Pipe.collide (GameEngine.create_pipe game0 230 250)
      (Bird.reset 230 100 risen) = true /\
    birds' !! 0%nat = Some (Bird.reset 230 100 risen) /\
    genome_list' !! 0%nat = Some 2%nat.
Proof.
  assert (Hrun : exists r,
    Trainer.check_collisions 2 0 (GameEngine.create_pipe game0 230 250)
      [Bird.reset 230 100 risen; Bird.reset 230 100 risen]
      [create_net env0 1%nat; create_net env0 2%nat] [1%nat; 2%nat]
      ({[1%nat := 0%Q; 2%nat := 0%Q]} : fitness_store) = Ok r)
    by (vm_compute; eexists; reflexivity).
  destruct Hrun as [[[[b n] g] f] Hrun].
  assert (Hc : Pipe.collide (GameEngine.create_pipe game0 230 250)
                 (Bird.reset 230 100 risen) = true)
    by (vm_compute; reflexivity).
  exists b, n, g, f. split; [exact Hrun|]. split; [exact Hc|].
  destruct (collision_spares_next (GameEngine.create_pipe game0 230 250)
              (Bird.reset 230 100 risen) (Bird.reset 230 100 risen) []
              _ _ _ _ _ _ _ Hrun Hc) as (H1 & _ & H3).
  split; [exact H1 | exact H3].
Defined.

Lemma NoDup_delete_notin {A : Type} (l : list A) (k : nat) (x : A) :
  NoDup l -> l !! k = Some x -> x ∉ delete k l.
Proof.
  intros Hnd Hk Hin. apply list_elem_of_lookup in Hin as [j Hj].
  destruct (decide (j < k)%nat).
  - rewrite list_lookup_delete_lt in Hj by lia.
    pose proof (NoDup_lookup _ _ _ _ Hnd Hk Hj). lia.
  - rewrite list_lookup_delete_ge in Hj by lia.
    pose proof (NoDup_lookup _ _ _ _ Hnd Hk Hj). lia.
Qed.

Lemma elem_of_delete_other {A : Type} (l : list A) (k : nat) (x y : A) :
  l !! k = Some y -> x ∈ l -> x <> y -> x ∈ delete k l.
Proof.
  intros Hk Hin Hne. apply list_elem_of_lookup in Hin as [j Hj].
  apply list_elem_of_lookup.
  destruct (decide (j < k)%nat).
  - exists j. now rewrite list_lookup_delete_lt by lia.
  - assert (j <> k) by (intros ->; congruence).
    exists (pred j). rewrite list_lookup_delete_ge by lia.
    now replace (S (pred j)) with j by lia.
Qed.

Lemma check_collisions_fitness (pipe : Pipe.t) (n : nat) :
  forall k birds networks genome_list fit birds' networks' genome_list' fit',
    Trainer.check_collisions n k pipe birds networks genome_list fit =
      Ok (birds', networks', genome_list', fit') ->
    NoDup genome_list ->
    (forall g, g ∈ genome_list' -> fit' !! g = fit !! g) /\
    (forall g, g ∈ genome_list -> g ∉ genome_list' ->
       exists f, fit !! g = Some f /\ fit' !! g = Some (float_sub f 1)) /\
    (forall g, g ∉ genome_list -> fit' !! g = fit !! g).
Proof.
  induction n as [|n IH]; intros k birds networks genome_list fit
    birds' networks' genome_list' fit' H Hnd;
    cbn [Trainer.check_collisions] in H.
  - injection H as <- <- <- <-. repeat split; tauto.
  - destruct (birds !! k) as [bird|] eqn:Eb;
      [|injection H as <- <- <- <-; repeat split; tauto].
    destruct (Pipe.collide pipe bird); [|eapply IH; eauto].
    inv_bind H. inv_bind H. inv_bind H. destruct a1 as [[b1 n1] g1].
    apply remove_bird_at in E1 as (-> & -> & -> & _ & _);
      [|now apply lookup_lt_Some in Eb].
    unfold getitem in E. destruct (genome_list !! k) as [gk|] eqn:Eg;
      [|discriminate]. injection E as <-.
    apply update_fitness_Ok in E0 as (fk & Hfk & ->).
    pose proof (NoDup_delete_notin _ _ _ Hnd Eg) as Hnotin.
    assert (Hnd' : NoDup (delete k genome_list))
      by (eapply sublist_NoDup; [exact Hnd | apply sublist_delete]).
    destruct (IH _ _ _ _ _ _ _ _ _ H Hnd') as (Hkeep & Hpen & Hout).
    pose proof (check_collisions_sublist _ _ _ _ _ _ _ _ _ _ _ H)
      as [_ Hsub].
    split; [|split].
    + intros g Hg. rewrite (Hkeep g Hg). apply lookup_insert_ne.
      intros <-. apply Hnotin. eapply elem_of_sublist; eauto.
    + intros g Hg Hng. destruct (decide (g = gk)) as [->|Hne].
      * exists fk. split; [exact Hfk|].
        rewrite (Hout gk Hnotin). apply lookup_insert_eq.
      * destruct (Hpen g) as (f & Hf & Hf'); [|exact Hng|].
        { eapply elem_of_delete_other; eauto. }
        exists f. split; [|exact Hf'].
        now rewrite lookup_insert_ne in Hf by congruence.
    + intros g Hg. rewrite Hout.
      * apply lookup_insert_ne. intros <-. apply Hg.
        eapply list_elem_of_lookup_2; eauto.
      * intros Hin. apply Hg. eapply list_elem_of_delete_inv; eauto.
Qed.

(** X13.  The collision pass of one pipe, genomes being distinct objects:
    the genomes it leaves in [genome_list] keep their order and their
    fitness, every genome it drops has had 1 subtracted from its fitness,
    once, and no other genome is touched. *)
Theorem collision_penalty_once (pipe : Pipe.t) (birds : list Bird.t)
    (networks : list Net) (genome_list : list genome) (fit : fitness_store)
    (birds' : list Bird.t) (networks' : list Net)
    (genome_list' : list genome) (fit' : fitness_store) :
  Trainer.check_collisions (length birds) 0 pipe birds networks
    genome_list fit = Ok (birds', networks', genome_list', fit') ->
  NoDup genome_list ->
  genome_list' `sublist_of` genome_list /\
  birds' `sublist_of` birds /\
  (forall g, g ∈ genome_list' -> fit' !! g = fit !! g) /\
  (forall g, g ∈ genome_list -> g ∉ genome_list' ->
     exists f, fit !! g = Some f /\ fit' !! g = Some (float_sub f 1)) /\
  (forall g, g ∉ genome_list -> fit' !! g = fit !! g).
Proof.
  intros H Hnd.
  destruct (check_collisions_sublist _ _ _ _ _ _ _ _ _ _ _ H) as [Hb Hg].
  split; [exact Hg|]. split; [exact Hb|].
  eapply check_collisions_fitness; eauto.
Qed.

Lemma collision_penalty_once_witness :
  exists birds' networks' genome_list' fit',
    Trainer.check_collisions 2 0 (GameEngine.create_pipe game0 230 250)
      [Bird.reset 230 100 risen; Bird.reset 230 100 risen]
      [create_net env0 1%nat; create_net env0 2%nat] [1%nat; 2%nat]
      ({[1%nat := 0%Q; 2%nat := 0%Q]} : fitness_store) =
      Ok (birds', networks', genome_list', fit') /\
    genome_list' `sublist_of` [1%nat; 2%nat] /\
    (forall g, g ∈ genome_list' ->
       fit' !! g = ({[1%nat := 0%Q; 2%nat := 0%Q]} : fitness_store) !! g).
Proof.
  assert (Hrun : exists r,
    Trainer.check_collisions 2 0 (GameEngine.create_pipe game0 230 250)
      [Bird.reset 230 100 risen; Bird.reset 230 100 risen]
      [create_net env0 1%nat; create_net env0 2%nat] [1%nat; 2%nat]
      ({[1%nat := 0%Q; 2%nat := 0%Q]} : fitness_store) = Ok r)
    by (vm_compute; eexists; reflexivity).
  destruct Hrun as [[[[b n] g] f] Hrun].
  exists b, n, g, f. split; [exact Hrun|].
  destruct (collision_penalty_once (GameEngine.create_pipe game0 230 250)
              [Bird.reset 230 100 risen; Bird.reset 230 100 risen]
              _ _ _ _ _ _ _ Hrun) as (Hs & _ & Hk & _).
  - apply NoDup_cons. split; [|apply NoDup_singleton].
    intros Hin. apply list_elem_of_singleton in Hin. discriminate.
  - split; [exact Hs | exact Hk].
Defined.

(** ** The reward for staying alive *)

Lemma move_birds_fitness :
  forall todo i networks genome_list pipes k fit birds' fit',
    Trainer.move_birds i todo networks genome_list pipes k fit =
      Ok (birds', fit') ->
    NoDup genome_list ->
    (forall j g, (i <= j < i + length todo)%nat ->
       genome_list !! j = Some g ->
       exists f, fit !! g = Some f /\
                 fit' !! g = Some (float_add f (to_float 0.1))) /\
    (forall g,
       (forall j, (i <= j < i + length todo)%nat ->
                  genome_list !! j <> Some g) ->
       fit' !! g = fit !! g).
Proof.
  induction todo as [|bird rest IH]; intros i networks genome_list pipes k
    fit birds' fit' H Hnd; cbn [Trainer.move_birds] in H.
  - injection H as <- <-. cbn. repeat split; intros; lia || reflexivity.
  - do 6 inv_bind H. destruct a4 as [rest' fit''].
    injection H as <- <-.
    unfold getitem in E. destruct (genome_list !! i) as [gi|] eqn:Eg;
      [|discriminate]. injection E as <-.
    apply update_fitness_Ok in E0 as (fi & Hfi & ->).
    destruct (IH _ _ _ _ _ _ _ _ E4 Hnd) as (Hin & Hout).
    cbn [length]. split.
    + intros j g Hj Hg. destruct (decide (j = i)) as [->|Hne].
      * assert (g = gi) by congruence. subst g.
        exists fi. split; [exact Hfi|].
        rewrite Hout; [apply lookup_insert_eq|].
        intros j' Hj' Hg'. pose proof (NoDup_lookup _ _ _ _ Hnd Eg Hg'). lia.
      * destruct (Hin j g) as (f & Hf & Hf'); [lia | exact Hg |].
        exists f. split; [|exact Hf'].
        rewrite lookup_insert_ne in Hf; [exact Hf|].
        intros <-. pose proof (NoDup_lookup _ _ _ _ Hnd Eg Hg). lia.
    + intros g Hg. rewrite Hout.
      * apply lookup_insert_ne. intros <-. apply (Hg i); [lia | exact Eg].
      * intros j Hj. apply Hg. lia.
Qed.

(** X14.  The first phase of a tick, genomes being distinct objects and the
    lists of equal length: every genome of [genome_list] has 0.1 added to
    its fitness, once, no other genome's fitness changes, and no bird is
    added or removed. *)
Theorem survival_reward (birds : list Bird.t) (networks : list Net)
    (genome_list : list genome) (pipes : list Pipe.t) (k : nat)
    (fit : fitness_store) (birds' : list Bird.t) (fit' : fitness_store) :
  Trainer.move_birds 0 birds networks genome_list pipes k fit =
    Ok (birds', fit') ->
  NoDup genome_list ->
  length genome_list = length birds ->
  length birds' = length birds /\
  (forall g, g ∈ genome_list ->
     exists f, fit !! g = Some f /\
               fit' !! g = Some (float_add f (to_float 0.1))) /\
  (forall g, g ∉ genome_list -> fit' !! g = fit !! g).
Proof.
  intros H Hnd Hlen.
  destruct (move_birds_fitness _ _ _ _ _ _ _ _ _ H Hnd) as (Hin & Hout).
  split; [eapply move_birds_length; eauto|]. split.
  - intros g Hg. apply list_elem_of_lookup in Hg as [j Hj].
    apply (Hin j g); [|exact Hj]. apply lookup_lt_Some in Hj. lia.
  - intros g Hg. apply Hout. intros j _ Hj. apply Hg.
    eapply list_elem_of_lookup_2; eauto.
Qed.

Lemma survival_reward_witness :
  exists birds' fit',
    Trainer.move_birds 0 [GameEngine.create_bird game0]
      [create_net env0 7%nat] [7%nat]
      [GameEngine.create_pipe game0 700 250] 0
      ({[7%nat := 0%Q]} : fitness_store) = Ok (birds', fit') /\
    exists f, ({[7%nat := 0%Q]} : fitness_store) !! 7%nat = Some f /\
              fit' !! 7%nat = Some (float_add f (to_float 0.1)).
Proof.
  assert (Hrun : exists r,
    Trainer.move_birds 0 [GameEngine.create_bird game0]
      [create_net env0 7%nat] [7%nat]
      [GameEngine.create_pipe game0 700 250] 0
      ({[7%nat := 0%Q]} : fitness_store) = Ok r)
    by (vm_compute; eexists; reflexivity).
  destruct Hrun as [[b f] Hrun]. exists b, f. split; [exact Hrun|].
  destruct (survival_reward _ _ _ _ _ _ _ _ Hrun) as (_ & Hin & _).
  - apply NoDup_singleton.
  - reflexivity.
  - apply Hin. apply list_elem_of_singleton. reflexivity.
Defined.

(** ** Tracking the best genome *)

Lemma exceeds_trans (f x : Q) (best : Trainer.best_so_far) :
  Trainer.exceeds f best = true ->
  Trainer.exceeds x (Trainer.Fitness f) = true ->
  Trainer.exceeds x best = true.
Proof.
  destruct best as [|b]; cbn; [reflexivity|].
  rewrite !Qltb_lt. lra.
Qed.

(** X15.  The loop of lines 238-242 leaves the generation counter alone and
    ends with a best fitness that no fitness of the list exceeds and that
    is not below the one it started from; the trainer either is as it was
    or holds a genome of the list together with that genome's fitness,
    which exceeded the best it started from. *)
Theorem track_best_maximum (genome_list : list genome) (fit : fitness_store) :
  forall self self' : Trainer.t,
    Trainer.track_best genome_list fit self = Ok self' ->
    Trainer.generation self' = Trainer.generation self /\
    (forall g, g ∈ genome_list ->
       exists f, fit !! g = Some f /\
                 Trainer.exceeds f (Trainer.best_fitness self') = false) /\
    (forall x, Trainer.exceeds x (Trainer.best_fitness self') = true ->
               Trainer.exceeds x (Trainer.best_fitness self) = true) /\
    (self' = self \/
     exists g f,
       g ∈ genome_list /\ fit !! g = Some f /\
       Trainer.best_genome self' = Some g /\
       Trainer.best_fitness self' = Trainer.Fitness f /\
       Trainer.exceeds f (Trainer.best_fitness self) = true).
Proof.
  induction genome_list as [|g rest IH]; intros self self' H;
    cbn [Trainer.track_best] in H.
  - injection H as <-. repeat split; auto.
    intros g Hg. now apply elem_of_nil in Hg.
  - destruct (fit !! g) as [f|] eqn:Ef; [|discriminate].
    destruct (IH _ _ H) as (Hgen & Hall & Hmono & Hprov). clear IH H.
    destruct (Trainer.exceeds f (Trainer.best_fitness self)) eqn:Ex.
    + cbn [Trainer.generation Trainer.best_fitness Trainer.best_genome]
        in *.
      split; [exact Hgen|]. split; [|split].
      * intros g' Hg'. apply elem_of_cons in Hg' as [->|Hg']; [|auto].
        exists f. split; [exact Ef|].
        destruct (Trainer.exceeds f (Trainer.best_fitness self')) eqn:E;
          [|reflexivity].
        apply Hmono in E. cbn in E. apply Qltb_lt in E. lra.
      * intros x Hx. apply Hmono in Hx. eapply exceeds_trans; eauto.
      * right. destruct Hprov as [->|(g' & f' & Hg' & Hf' & Hb & Hbf & He)].
        -- exists g, f. repeat split; auto. constructor.
        -- exists g', f'. repeat split; auto; [now constructor|].
           eapply exceeds_trans; eauto.
    + split; [exact Hgen|]. split; [|split].
      * intros g' Hg'. apply elem_of_cons in Hg' as [->|Hg']; [|auto].
        exists f. split; [exact Ef|].
        destruct (Trainer.exceeds f (Trainer.best_fitness self')) eqn:E;
          [|reflexivity].
        apply Hmono in E. congruence.
      * exact Hmono.
      * destruct Hprov as [->|(g' & f' & Hg' & Hf' & Hb & Hbf & He)];
          [now left | right].
        exists g', f'. repeat split; auto. now constructor.
Qed.

Lemma track_best_maximum_witness :
  exists self',
    Trainer.track_best [1%nat; 2%nat; 3%nat]
      ({[1%nat := 2.5%Q; 2%nat := 7.1%Q; 3%nat := 7.1%Q]} : fitness_store)
      Trainer.init = Ok self' /\
    Trainer.generation self' = 0.
Proof.
  eexists. split; [vm_compute; reflexivity|].
  eapply (track_best_maximum [1%nat; 2%nat; 3%nat]
            ({[1%nat := 2.5%Q; 2%nat := 7.1%Q; 3%nat := 7.1%Q]}
               : fitness_store) Trainer.init).
  vm_compute. reflexivity.
Defined.

(** ** The start of a generation *)

Lemma init_population_spec (env : Env) (game : GameEngine.t)
    (genomes : list (Z * genome)) :
  forall fit birds networks genome_list fit',
    Trainer.init_population env game genomes fit =
      (birds, networks, genome_list, fit') ->
    genome_list = genomes.*2 /\
    networks = create_net env <$> genomes.*2 /\
    birds = replicate (length genomes) (GameEngine.create_bird game) /\
    (forall g, g ∈ genomes.*2 -> fit' !! g = Some 0%Q) /\
    (forall g, g ∉ genomes.*2 -> fit' !! g = fit !! g).
Proof.
  induction genomes as [|[id g] rest IH]; intros fit birds networks
    genome_list fit' H; cbn [Trainer.init_population] in H.
  - injection H as <- <- <- <-. repeat split; auto.
    intros g Hg. now apply elem_of_nil in Hg.
  - destruct (Trainer.init_population env game rest (<[g:=0%Q]> fit))
      as [[[b n] gl] f] eqn:E.
    injection H as <- <- <- <-.
    destruct (IH _ _ _ _ _ E) as (-> & -> & -> & Hin & Hout).
    cbn. repeat split.
    + intros g' Hg'. destruct (decide (g' ∈ rest.*2)) as [Hr|Hr]; [auto|].
      apply elem_of_cons in Hg' as [->|Hg']; [|contradiction].
      rewrite (Hout g Hr). apply lookup_insert_eq.
    + intros g' Hg'. apply not_elem_of_cons in Hg' as [Hne Hg'].
      rewrite (Hout g' Hg'). now apply lookup_insert_ne.
Qed.

Lemma init_state_spec (env : Env) (game : GameEngine.t)
    (genomes : list (Z * genome)) (fit : fitness_store) :
  let s := Trainer.init_state env game genomes fit in
  Trainer.genome_list s = genomes.*2 /\
  Trainer.networks s = create_net env <$> genomes.*2 /\
  Trainer.birds s =
    replicate (length genomes)
              (Bird.init 230 350 (GameEngine.bird_images game)) /\
  (forall g, g ∈ genomes.*2 -> Trainer.fitness s !! g = Some 0%Q) /\
  (forall g, g ∉ genomes.*2 -> Trainer.fitness s !! g = fit !! g) /\
  Trainer.score s = 0 /\
  exists p,
    Trainer.pipes s = [p] /\ Pipe.x p = 700 /\ Pipe.passed p = false /\
    50 <= Pipe.height p < 450 /\ Pipe.bottom p = Pipe.height p + 200.
Proof.
  unfold Trainer.init_state.
  destruct (Trainer.init_population env game genomes fit)
    as [[[b n] gl] f] eqn:E.
  destruct (init_population_spec _ _ _ _ _ _ _ _ E)
    as (-> & -> & -> & Hin & Hout).
  cbn. repeat split; auto.
  eexists. split; [reflexivity|]. cbn.
  pose proof (randrange_bounds Pipe.MIN_HEIGHT Pipe.MAX_HEIGHT
                (entropy env 0) eq_refl) as Hr.
  repeat split; apply Hr.
Qed.

(** X16.  A generation starts with one bird at (230, 350) and one network per
    genome, in the order of the batch; every genome of the batch has fitness
    0, whatever it had, and no other genome is touched; the score is 0 and
    the only pipe stands at x = 700, not passed, with its gap starting in
    [50, 450). *)
Theorem generation_starts_from_zero (env : Env) (game : GameEngine.t)
    (genomes : list (Z * genome)) (fit : fitness_store) :
  let s := Trainer.init_state env game genomes fit in
  Trainer.genome_list s = genomes.*2 /\
  Trainer.networks s = create_net env <$> genomes.*2 /\
  Trainer.birds s =
    replicate (length genomes)
              (Bird.init 230 350 (GameEngine.bird_images game)) /\
  (forall g, g ∈ genomes.*2 -> Trainer.fitness s !! g = Some 0%Q) /\
  (forall g, g ∉ genomes.*2 -> Trainer.fitness s !! g = fit !! g) /\
  Trainer.score s = 0 /\
  exists p,
    Trainer.pipes s = [p] /\ Pipe.x p = 700 /\ Pipe.passed p = false /\
    50 <= Pipe.height p < 450 /\ Pipe.bottom p = Pipe.height p + 200.
Proof. exact (init_state_spec env game genomes fit). Qed.

Lemma track_best_all_zero (genome_list : list genome) (fit : fitness_store)
    (self : Trainer.t) :
  Trainer.best_fitness self = Trainer.Fitness 0 ->
  (forall g, g ∈ genome_list -> fit !! g = Some 0%Q) ->
  Trainer.track_best genome_list fit self = Ok self.
Proof.
  induction genome_list as [|g rest IH]; intros Hb Hz;
    cbn [Trainer.track_best]; [reflexivity|].
  rewrite (Hz g) by constructor. rewrite Hb. cbn.
  rewrite <- Hb at 1. apply IH; [exact Hb|].
  intros g' Hg'. apply Hz. now constructor.
Qed.

(** X17.  When the first poll of the event queue already reports a quit, the
    generation ends before any bird has moved: every genome of the batch
    has fitness 0, and a trainer that tracked nothing so far now holds the
    first genome of the batch with best fitness 0.  With an empty batch the
    loop is not entered and the trainer only counts the generation. *)
Theorem quit_at_first_poll (fuel : nat) (env : Env) (game : GameEngine.t)
    (self : Trainer.t) (id : Z) (g : genome) (rest : list (Z * genome))
    (fit : fitness_store) :
  handle_events env 0 = false ->
  Trainer.best_fitness self = Trainer.NegInf ->
  exists s,
    Trainer._eval_genomes (S fuel) env game self ((id, g) :: rest) fit =
      Ok (Some ({| Trainer.generation := Trainer.generation self + 1;
                   Trainer.best_genome := Some g;
                   Trainer.best_fitness := Trainer.Fitness 0 |}, s)) /\
    Trainer.birds s =
      replicate (S (length rest)) (GameEngine.create_bird game) /\
    Trainer.polls s = 1%nat /\ Trainer.score s = 0 /\
    (forall g', g' ∈ g :: rest.*2 -> Trainer.fitness s !! g' = Some 0%Q) /\
    Trainer._eval_genomes (S fuel) env game self [] fit =
      Ok (Some ({| Trainer.generation := Trainer.generation self + 1;
                   Trainer.best_genome := Trainer.best_genome self;
                   Trainer.best_fitness := Trainer.NegInf |},
                Trainer.init_state env game [] fit)).
Proof.
  intros Hq Hb.
  pose proof (init_state_spec env game ((id, g) :: rest) fit)
    as Hinit. cbv zeta in Hinit.
  destruct Hinit as (Hgl & _ & Hbirds & Hzero & _ & Hscore & _).
  set (s0 := Trainer.init_state env game ((id, g) :: rest) fit) in *.
  eexists. split; [|split; [|split; [|split; [|split]]]].
  - unfold Trainer._eval_genomes. fold s0. cbn [Trainer.game_loop].
    rewrite Hbirds. cbn [replicate length].
    assert (Hp : Trainer.polls s0 = 0%nat).
    { unfold s0, Trainer.init_state.
      now destruct (Trainer.init_population env game ((id, g) :: rest) fit)
        as [[[? ?] ?] ?]. }
    rewrite Hp, Hq. cbn [mbind result_bind Trainer.genome_list
                         Trainer.fitness].
    rewrite Hgl. cbn [fmap list_fmap snd Trainer.track_best].
    rewrite (Hzero g) by (cbn; constructor).
    rewrite Hb. cbn [Trainer.exceeds Trainer.generation].
    rewrite track_best_all_zero; [reflexivity | reflexivity |].
    intros g' Hg'. apply Hzero. cbn. now constructor.
  - reflexivity.
  - reflexivity.
  - exact Hscore.
  - intros g' Hg'. cbn [Trainer.fitness]. apply Hzero. exact Hg'.
  - unfold Trainer._eval_genomes. cbn. rewrite Hb. reflexivity.
Qed.

Lemma quit_at_first_poll_witness :
  exists s,
    Trainer._eval_genomes 1
      {| create_net := fun _ _ => [0%Q]; handle_events := fun _ => false;
         entropy := fun _ => 250 |}
      tiny_game Trainer.init [(1, 7%nat); (2, 8%nat)] ∅ =
      Ok (Some ({| Trainer.generation := 1;
                   Trainer.best_genome := Some 7%nat;
                   Trainer.best_fitness := Trainer.Fitness 0 |}, s)).
Proof.
  destruct (quit_at_first_poll 0
              {| create_net := fun _ _ => [0%Q];
                 handle_events := fun _ => false;
                 entropy := fun _ => 250 |}
              tiny_game Trainer.init 1 7%nat [(2, 8%nat)] ∅
              eq_refl eq_refl) as (s & Hrun & _).
  exists s. exact Hrun.
Defined.

(** ** What a tick keeps *)

Ltac inv_bind_as H E :=
  match type of H with
  | (?m ≫= _) = Ok _ =>
      destruct m eqn:E; cbn [mbind result_bind] in H; [|discriminate H]
  end.

Lemma remove_bird_aligned {A B C : Type} (i : Z)
    (birds birds' : list A) (networks networks' : list B)
    (genomes genomes' : list C) :
  Trainer._remove_bird i birds networks genomes =
    Ok (birds', networks', genomes') ->
  length networks = length birds -> length genomes = length birds ->
  length networks' = length birds' /\ length genomes' = length birds' /\
  zip networks' genomes' `sublist_of` zip networks genomes /\
  birds' `sublist_of` birds.
Proof.
  intros H Hn Hg.
  destruct ((0 <=? i) && (i <? Z.of_nat (length birds))) eqn:E.
  - apply andb_true_iff in E as [E1 E2].
    apply Z.leb_le in E1. apply Z.ltb_lt in E2.
    rewrite <- (Z2Nat.id i) in H by lia.
    apply remove_bird_at in H as (-> & -> & -> & _ & _); [|lia].
    rewrite !length_delete by (apply lookup_lt_is_Some; lia).
    rewrite zip_delete. repeat split; try lia; apply sublist_delete.
  - unfold Trainer._remove_bird in H. rewrite E in H.
    injection H as <- <- <-. repeat split; auto.
Qed.

Lemma check_collisions_aligned (pipe : Pipe.t) (n : nat) :
  forall k birds networks genome_list fit birds' networks' genome_list' fit',
    Trainer.check_collisions n k pipe birds networks genome_list fit =
      Ok (birds', networks', genome_list', fit') ->
    length networks = length birds -> length genome_list = length birds ->
    length networks' = length birds' /\
    length genome_list' = length birds' /\
    zip networks' genome_list' `sublist_of` zip networks genome_list.
Proof.
  induction n as [|n IH]; intros k birds networks genome_list fit
    birds' networks' genome_list' fit' H Hn Hg;
    cbn [Trainer.check_collisions] in H.
  - injection H as <- <- <- <-. auto.
  - destruct (birds !! k) as [bird|]; [|injection H as <- <- <- <-; auto].
    destruct (Pipe.collide pipe bird); [|eapply IH; eauto].
    inv_bind H. inv_bind H. inv_bind H. destruct a1 as [[b1 n1] g1].
    apply remove_bird_aligned in E1 as (Hn1 & Hg1 & Hs & _); try assumption.
    destruct (IH _ _ _ _ _ _ _ _ _ H Hn1 Hg1) as (? & ? & Hs').
    repeat split; auto. etrans; eauto.
Qed.

Lemma process_pipes_aligned :
  forall todo i birds networks genome_list fit add_pipe
         pipes1 pipes_to_remove birds2 networks2 genome_list2 fit2 add_pipe',
    Trainer.process_pipes i todo birds networks genome_list fit add_pipe =
      Ok (pipes1, pipes_to_remove,
          (birds2, networks2, genome_list2, fit2), add_pipe') ->
    length networks = length birds -> length genome_list = length birds ->
    length networks2 = length birds2 /\
    length genome_list2 = length birds2 /\
    zip networks2 genome_list2 `sublist_of` zip networks genome_list.
Proof.
  induction todo as [|pipe rest IH]; intros i birds networks genome_list fit
    add_pipe pipes1 pipes_to_remove birds2 networks2 genome_list2 fit2
    add_pipe' H Hn Hg; cbn [Trainer.process_pipes] in H.
  - injection H as <- <- <- <- <- <- <-. auto.
  - inv_bind H. destruct a as [[[b1 n1] g1] f1].
    apply check_collisions_aligned in E as (Hn1 & Hg1 & Hs); try assumption.
    inv_bind H. destruct a as [[[rest' rm'] [[[b3 n3] g3] f3]] flag3].
    injection H as <- <- <- <- <- <- <-.
    destruct (IH _ _ _ _ _ _ _ _ _ _ _ _ _ E Hn1 Hg1) as (? & ? & Hs').
    repeat split; auto. etrans; eauto.
Qed.

Lemma check_bounds_aligned (n : nat) :
  forall (birds : list Bird.t) (networks : list Net)
         (genome_list : list genome) birds' networks' genome_list',
    Trainer.check_bounds n birds networks genome_list =
      Ok (birds', networks', genome_list') ->
    length networks = length birds -> length genome_list = length birds ->
    zip networks' genome_list' `sublist_of` zip networks genome_list.
Proof.
  induction n as [|n IH]; intros birds networks genome_list
    birds' networks' genome_list' H Hn Hg; cbn [Trainer.check_bounds] in H.
  - now injection H as <- <- <-.
  - inv_bind H. inv_bind H. destruct a0 as [[b1 n1] g1].
    destruct (Trainer.out_of_bounds a).
    + apply remove_bird_aligned in E0 as (Hn1 & Hg1 & Hs & _);
        try assumption.
      etrans; [eapply IH; eauto | exact Hs].
    + injection E0 as <- <- <-. eapply IH; eauto.
Qed.

(** X18.  A tick that starts with the three lists of equal length ends with
    them of equal length; the (network, genome) pairs it keeps are pairs it
    started with, in their order, so that no network is ever paired with
    another genome; it adds no bird; every bird it keeps has its y in
    [-50, 730); it counts one more poll, and the score grows by 0 or 1. *)
Theorem tick_keeps_alignment (env : Env) (game : GameEngine.t)
    (s s' : Trainer.state) :
  Trainer.tick env game s = Ok s' ->
  length (Trainer.networks s) = length (Trainer.birds s) ->
  length (Trainer.genome_list s) = length (Trainer.birds s) ->
  length (Trainer.networks s') = length (Trainer.birds s') /\
  length (Trainer.genome_list s') = length (Trainer.birds s') /\
  zip (Trainer.networks s') (Trainer.genome_list s') `sublist_of`
    zip (Trainer.networks s) (Trainer.genome_list s) /\
  (length (Trainer.birds s') <= length (Trainer.birds s))%nat /\
  (forall b, b ∈ Trainer.birds s' ->
     (-50 <= Bird.y b)%Q /\ (Bird.y b < 730)%Q) /\
  Trainer.polls s' = S (Trainer.polls s) /\
  Trainer.score s <= Trainer.score s' <= Trainer.score s + 1.
Proof.
  intros H Hn Hg. unfold Trainer.tick in H.
  inv_bind_as H Emove. destruct a as [birds1 fit1].
  apply move_birds_length in Emove.
  inv_bind_as H Epipes.
  destruct a
    as [[[pipes1 rm] [[[birds2 networks2] genome_list2] fit2]] add_pipe].
  pose proof (process_pipes_spec _ _ _ _ _ _ _ _ _ _ _ _ _ _ Epipes)
    as (Hb2 & _).
  apply process_pipes_aligned in Epipes as (Hn2 & Hg2 & Hs2); try lia.
  inv_bind_as H Eadd. destruct a as [[[score3 fit3] pipes3] draws3].
  inv_bind_as H Ebounds. destruct a as [[birds5 networks5] genome_list5].
  injection H as <-.
  cbn [Trainer.networks Trainer.genome_list Trainer.birds Trainer.polls
       Trainer.score].
  pose proof (check_bounds_aligned _ _ _ _ _ _ _ Ebounds Hn2 Hg2) as Hs5.
  apply check_bounds_exact in Ebounds as (_ & Hb5 & Hn5 & Hg5);
    try assumption.
  unfold GameEngine.draw_window. rewrite length_fmap.
  split; [exact Hn5|]. split; [exact Hg5|].
  split; [etrans; eauto|]. split; [|split; [|split; [reflexivity|]]].
  - rewrite Hb5. etrans; [apply length_filter|].
    apply sublist_length in Hb2. lia.
  - intros b Hb. apply list_elem_of_fmap in Hb as (b5 & -> & Hb).
    rewrite Hb5 in Hb. apply list_elem_of_filter in Hb as [Hin _].
    destruct (draw_frame b5) as (_ & -> & _).
    unfold Trainer.out_of_bounds in Hin.
    apply orb_false_iff in Hin as [H1 H2].
    apply Qle_bool_gt in H1. apply Qltb_ge in H2.
    change (inject_Z Config.FLOOR_Y) with 730%Q in H1.
    assert (0 <= inject_Z (get_height (Bird.img b5)))%Q.
    { change 0%Q with (inject_Z 0). rewrite <- Zle_Qle.
      unfold get_height. lia. }
    split; lra.
  - destruct add_pipe.
    + inv_bind Eadd. injection Eadd as <- _ _ _. lia.
    + injection Eadd as <- _ _ _. lia.
Qed.

Lemma tick_keeps_alignment_witness :
  exists s',
    Trainer.tick env0 tiny_game about_to_pass = Ok s' /\
    length (Trainer.genome_list s') = length (Trainer.birds s') /\
    Trainer.polls s' = 1%nat.
Proof.
  assert (Hrun : exists s', Trainer.tick env0 tiny_game about_to_pass = Ok s')
    by (vm_compute; eexists; reflexivity).
  destruct Hrun as [s' Hrun]. exists s'. split; [exact Hrun|].
  destruct (tick_keeps_alignment env0 tiny_game about_to_pass s' Hrun
              eq_refl eq_refl) as (_ & Hg & _ & _ & _ & Hp & _).
  split; [exact Hg | exact Hp].
Defined.

(** ** The other ways [train] ends *)

(** X19.  [_save_genome] is best effort: the only exception it lets through
    is one that is not an [Exception], and then it has logged and saved
    nothing; otherwise it logs exactly one record, and the genome is
    recorded as saved, under [checkpoints/<name>.pickle], exactly when the
    dump raised nothing. *)
Theorem save_genome_best_effort (dump : string -> genome -> option exn)
    (g : genome) (name : string) (w : World) :
  let file := ("checkpoints/" +:+ name +:+ ".pickle")%string in
  let r := _save_genome dump g name w in
  (forall e, r.1 = Some e ->
     is_Exception e = false /\ dump file g = Some e /\ r.2 = w) /\
  (r.1 = None ->
     (dump file g = None /\
      r.2 = {| log := log w ++ [Info_saved file];
               saved := saved w ++ [(file, g)] |}) \/
     (exists e, dump file g = Some e /\ is_Exception e = true /\
        r.2 = {| log := log w ++ [Error_save_failed e];
                 saved := saved w |})).
Proof.
  cbv zeta. unfold _save_genome, get_checkpoint_path.
  destruct (dump _ g) as [e|] eqn:Ed.
  - destruct (is_Exception e) eqn:Ee; cbn.
    + split; [discriminate|]. intros _. right. exists e. auto.
    + split; [|discriminate]. intros e' [= <-]. auto.
  - cbn. split; [discriminate|]. intros _. left. auto.
Qed.

(** X20.  When [population.run] returns a winner, [train] returns that winner
    with the trainer as the run left it: saved as [winner.pickle] when the
    dump goes through, and returned all the same, with the failure logged,
    when the dump fails with an [Exception]. *)
Theorem train_returns_winner {Population : Type}
    (neat_setup : string -> result Population)
    (population_run : Population -> Trainer.t -> Z -> result genome * Trainer.t)
    (dump : string -> genome -> option exn)
    (self self' : Trainer.t) (path : string) (n : Z)
    (w : World) (population : Population) (winner : genome) :
  neat_setup path = Ok population ->
  population_run population self n = (Ok winner, self') ->
  let file := "checkpoints/winner.pickle"%string in
  let run := train neat_setup population_run dump self path (Some n) w in
  (dump file winner = None ->
     run = (Ok winner, self',
            {| log := log w ++ [Info_starting n; Info_saved file;
                                Info_completed winner];
               saved := saved w ++ [(file, winner)] |})) /\
  (forall e, dump file winner = Some e -> is_Exception e = true ->
     run = (Ok winner, self',
            {| log := log w ++ [Info_starting n; Error_save_failed e;
                                Info_completed winner];
               saved := saved w |})).
Proof.
  intros Hsetup Hrun file run. subst run. unfold train.
  rewrite Hsetup, Hrun. unfold _save_genome.
  change (get_checkpoint_path ("winner" +:+ ".pickle")) with file.
  split.
  - intros ->. cbn. unfold logged. cbn. now rewrite <- !app_assoc.
  - intros e -> ->. cbn. unfold logged. cbn. now rewrite <- !app_assoc.
Qed.

Lemma train_returns_winner_witness :
  train (fun _ => Ok tt) (fun _ self _ => (Ok 9%nat, self))
        (fun _ _ => Some (OSError "Permission denied"))
        Trainer.init "config-feedforward.txt" (Some 50)
        {| log := []; saved := [] |} =
  (Ok 9%nat, Trainer.init,
   {| log := [Info_starting 50;
              Error_save_failed (OSError "Permission denied");
              Info_completed 9%nat];
      saved := [] |}).
Proof.
  apply (train_returns_winner (fun _ => Ok tt)
           (fun _ self _ => (Ok 9%nat, self))
           (fun _ _ => Some (OSError "Permission denied"))
           Trainer.init Trainer.init "config-feedforward.txt" 50
           {| log := []; saved := [] |} tt 9%nat eq_refl eq_refl);
    reflexivity.
Defined.

(** X21.  When [population.run] ends with an [Exception], [train] logs it and
    raises the same exception; nothing is saved, not even a best genome the
    trainer holds.  When building the population already fails, [train]
    raises that exception without logging anything. *)
Theorem train_failure_saves_nothing {Population : Type}
    (neat_setup : string -> result Population)
    (population_run : Population -> Trainer.t -> Z -> result genome * Trainer.t)
    (dump : string -> genome -> option exn)
    (self self' : Trainer.t) (path : string) (max_generations : option Z)
    (w : World) (e : exn) :
  is_Exception e = true ->
  let n := match max_generations with
           | None => 50
           | Some n => n
           end in
  let run := train neat_setup population_run dump self path max_generations w in
  (forall population,
     neat_setup path = Ok population ->
     population_run population self n = (Raise e, self') ->
     run = (Raise e, self',
            {| log := log w ++ [Info_starting n; Error_training_failed e];
               saved := saved w |})) /\
  (neat_setup path = Raise e -> run = (Raise e, self, w)).
Proof.
  intros He n run. subst run. unfold train. split.
  - intros population Hsetup Hrun. rewrite Hsetup.
    fold n. change Config.MAX_GENERATIONS with 50. fold n.
    rewrite Hrun. destruct e; try discriminate;
      cbn; unfold logged; cbn; now rewrite <- !app_assoc.
  - intros ->. reflexivity.
Qed.

Lemma train_failure_saves_nothing_witness :
  train (fun _ => Ok tt)
        (fun _ _ _ => (Raise IndexError, interrupted_trainer))
        (fun _ _ => None)
        Trainer.init "config-feedforward.txt" None
        {| log := []; saved := [] |} =
  (Raise IndexError, interrupted_trainer,
   {| log := [Info_starting 50; Error_training_failed IndexError];
      saved := [] |}).
Proof.
  apply (proj1 (train_failure_saves_nothing (fun _ => Ok tt)
           (fun _ _ _ => (Raise IndexError, interrupted_trainer))
           (fun _ _ => None)
           Trainer.init interrupted_trainer "config-feedforward.txt" None
           {| log := []; saved := [] |} IndexError eq_refl) tt);
    reflexivity.
Defined.

Lemma all_eliminated_keeps_best_witness :
  exists self' s,
    Trainer._eval_genomes 30 env0 game0 interrupted_trainer
      [(1, 7%nat)] ∅ = Ok (Some (self', s)) /\
    Trainer.best_genome self' = Some 4%nat /\
    Trainer.best_fitness self' = Trainer.Fitness 12.5.
Proof.
  destruct (faller_eval env0 game0 7%nat 48 interrupted_trainer 1 ∅ 30)
    as (s & Hrun & Hs).
  - repeat split; cbn; lia.
  - intros v. exists 0%Q, []. split; [reflexivity | lra].
  - reflexivity.
  - vm_compute. lia.
  - eexists _, s. split; [exact Hrun|].
    apply (all_eliminated_keeps_best _ _ _ _ _ _ _ _ Hrun
             (fn_birds _ _ _ Hs)).
Defined.

(** ** A generation raises nothing *)

Lemma check_collisions_total (pipe : Pipe.t) (n : nat) :
  forall k (birds : list Bird.t) (networks : list Net)
         (genome_list : list genome) (fit : fitness_store),
    length networks = length birds -> length genome_list = length birds ->
    (forall g, g ∈ genome_list -> is_Some (fit !! g)) ->
    exists birds' networks' genome_list' fit',
      Trainer.check_collisions n k pipe birds networks genome_list fit =
        Ok (birds', networks', genome_list', fit') /\
      forall g, is_Some (fit' !! g) <-> is_Some (fit !! g).
Proof.
  induction n as [|n IH]; intros k birds networks genome_list fit Hn Hg Hfit;
    cbn [Trainer.check_collisions].
  - exists birds, networks, genome_list, fit. split; [reflexivity|tauto].
  - destruct (birds !! k) as [bird|] eqn:Eb;
      [|exists birds, networks, genome_list, fit; split; [reflexivity|tauto]].
    destruct (Pipe.collide pipe bird); [|apply IH; auto].
    pose proof (lookup_lt_Some _ _ _ Eb) as Hk.
    destruct (lookup_lt_is_Some_2 genome_list k) as [g Hgk]; [lia|].
    destruct (Hfit g) as [f Hf]; [eapply list_elem_of_lookup_2; eauto|].
    rewrite (getitem_Some _ _ _ Hgk). cbn [mbind result_bind].
    rewrite (update_fitness_Some _ _ _ _ Hf). cbn [mbind result_bind].
    rewrite remove_bird_in_range by lia. cbn [mbind result_bind].
    destruct (IH (S k) (delete k birds) (delete k networks)
                 (delete k genome_list) (<[g := (float_sub f 1)]> fit))
      as (b' & n' & g' & fit' & Hrun & Hdom).
    + rewrite !length_delete by (apply lookup_lt_is_Some; lia). lia.
    + rewrite !length_delete by (apply lookup_lt_is_Some; lia). lia.
    + intros h Hh. apply is_Some_insert_store; [eauto|]. apply Hfit.
      eapply elem_of_sublist; [exact Hh | apply sublist_delete].
    + exists b', n', g', fit'. split; [exact Hrun|].
      intros h. rewrite Hdom. apply is_Some_insert_store. eauto.
Qed.

Lemma process_pipes_total :
  forall todo i (birds : list Bird.t) (networks : list Net)
         (genome_list : list genome) (fit : fitness_store) add_pipe,
    length networks = length birds -> length genome_list = length birds ->
    (forall g, g ∈ genome_list -> is_Some (fit !! g)) ->
    exists pipes1 rm birds2 networks2 genome_list2 fit2 add_pipe',
      Trainer.process_pipes i todo birds networks genome_list fit add_pipe =
        Ok (pipes1, rm, (birds2, networks2, genome_list2, fit2), add_pipe') /\
      forall g, is_Some (fit2 !! g) <-> is_Some (fit !! g).
Proof.
  induction todo as [|pipe rest IH];
    intros i birds networks genome_list fit add_pipe Hn Hg Hfit;
    cbn [Trainer.process_pipes].
  - exists [], [], birds, networks, genome_list, fit, add_pipe.
    split; [reflexivity|tauto].
  - destruct (check_collisions_total (Pipe.move pipe) (length birds) 0
                birds networks genome_list fit Hn Hg Hfit)
      as (b1 & n1 & g1 & f1 & Hrun & Hdom).
    rewrite Hrun. cbn [mbind result_bind].
    destruct (check_collisions_aligned _ _ _ _ _ _ _ _ _ _ _ Hrun Hn Hg)
      as (Hn1 & Hg1 & _).
    destruct (check_collisions_sublist _ _ _ _ _ _ _ _ _ _ _ Hrun)
      as [_ Hsub].
    assert (Hfit1 : forall g, g ∈ g1 -> is_Some (f1 !! g)).
    { intros g Hin. apply Hdom, Hfit. eapply elem_of_sublist; eauto. }
    match goal with
    | |- context [Trainer.process_pipes (S i) rest b1 n1 g1 f1 ?a] =>
        destruct (IH (S i) b1 n1 g1 f1 a Hn1 Hg1 Hfit1)
          as (pipes1 & rm & b2 & n2 & g2 & f2 & add' & Hrun' & Hdom');
        rewrite Hrun'
    end.
    cbn [mbind result_bind].
    eexists _, _, b2, n2, g2, f2, add'. split; [reflexivity|].
    intros g. rewrite Hdom'. apply Hdom.
Qed.

Lemma process_pipes_last :
  forall front i p birds networks genome_list fit add_pipe
         pipes1 rm birds2 networks2 genome_list2 fit2 add_pipe',
    Trainer.process_pipes i (front ++ [p]) birds networks genome_list fit
      add_pipe =
      Ok (pipes1, rm, (birds2, networks2, genome_list2, fit2), add_pipe') ->
    (forall b, b ∈ birds -> Bird.x b = 230) ->
    Pipe.passed p = false -> 230 <= Pipe.x p ->
    exists front1 p1,
      pipes1 = front1 ++ [p1] /\ length front1 = length front /\
      Forall (fun k => (i <= k < i + length front)%nat) rm /\
      StronglySorted lt rm /\
      (birds2 <> [] ->
       add_pipe' = true \/ (Pipe.passed p1 = false /\ 230 <= Pipe.x p1)).
Proof.
  induction front as [|q front IH];
    intros i p birds networks genome_list fit add_pipe pipes1 rm birds2
      networks2 genome_list2 fit2 add_pipe' H Hx Hp Hfar;
    cbn [app Trainer.process_pipes] in H.
  - inv_bind H. destruct a as [[[b1 n1] g1] f1].
    apply check_collisions_sublist in E as [Hb _].
    assert (Hoff : Pipe.is_off_screen (Pipe.move p) = false).
    { unfold Pipe.is_off_screen. apply Z.ltb_ge. cbn.
      unfold get_width, Pipe.VEL. lia. }
    rewrite Hoff in H.
    match type of H with
    | context [if ?c then Pipe.mark_passed _ else _] =>
        assert (Hpass : c = negb (Pipe.passed p) &&
                            match b1 with
                            | [] => false
                            | b0 :: _ => Pipe.x p - 5 <? Bird.x b0
                            end) by reflexivity;
        set (pass := c) in *
    end.
    clearbody pass. cbn [mbind result_bind app] in H.
    injection H as <- <- <- <- <- <- <-.
    eexists [], _. split; [reflexivity|]. split; [reflexivity|].
    split; [constructor|]. split; [constructor|].
    intros Hne. destruct b1 as [|b0 bs]; [congruence|].
    rewrite Hp, (Hx b0) in Hpass
      by (eapply elem_of_sublist; [|exact Hb]; constructor).
    cbn [negb andb] in Hpass. subst pass.
    destruct (Pipe.x p - 5 <? 230) eqn:E; [now left|right].
    apply Z.ltb_ge in E. split; [exact Hp|]. cbn. unfold Pipe.VEL. lia.
  - inv_bind H. destruct a as [[[b1 n1] g1] f1].
    apply check_collisions_sublist in E as [Hb _].
    match type of H with
    | context [if ?c then [i] else []] => set (off := c) in *
    end.
    match type of H with
    | context [if ?c then Pipe.mark_passed _ else _] => set (pass := c) in *
    end.
    clearbody pass off.
    inv_bind H. destruct a as [[[rest' rm'] [[[b3 n3] g3] f3]] flag3].
    injection H as <- <- <- <- <- <- <-.
    apply IH in E as (front1 & p1 & -> & Hlen & Hrm & Hsorted & Hlast);
      [|intros b Hin; apply Hx; eapply elem_of_sublist; eauto
       |assumption|assumption].
    eexists (_ :: front1), p1. split; [reflexivity|].
    split; [cbn [length]; now rewrite Hlen|].
    assert (Hrm' : Forall (fun k => (i <= k < i + length (q :: front))%nat)
                          rm').
    { eapply Forall_impl; [exact Hrm|]. cbn. intros k Hk. lia. }
    split; [|split; [|exact Hlast]].
    + destruct off; cbn [app]; [|exact Hrm'].
      constructor; [cbn; lia | exact Hrm'].
    + destruct off; cbn [app]; [|exact Hsorted].
      constructor; [exact Hsorted|].
      eapply Forall_impl; [exact Hrm|]. cbn. intros k Hk. lia.
Qed.

Lemma foldr_delete_below {A : Type} (rm : list nat) (l : list A) (j : nat) :
  Forall (lt j) rm -> foldr delete l rm !! j = l !! j.
Proof.
  induction rm as [|k rm IH]; intros H; [reflexivity|].
  apply Forall_cons in H as [Hk H]. cbn [foldr].
  rewrite list_lookup_delete_lt by exact Hk. apply IH, H.
Qed.

Lemma delete_app_l {A : Type} (k : nat) (l tail : list A) :
  (k < length l)%nat -> delete k (l ++ tail) = delete k l ++ tail.
Proof.
  revert k. induction l as [|a l IH]; intros [|k] H; cbn in *; try lia.
  - reflexivity.
  - f_equal. apply IH. lia.
Qed.

Lemma remove_pipes_keeps_tail (rm : list nat) (front tail : list Pipe.t) :
  StronglySorted lt rm -> Forall (fun k => (k < length front)%nat) rm ->
  Trainer.remove_pipes rm (front ++ tail) =
  Trainer.remove_pipes rm front ++ tail.
Proof.
  unfold Trainer.remove_pipes.
  induction rm as [|k rm IH]; intros Hs Hf; [reflexivity|].
  apply StronglySorted_inv in Hs as [Hs Hk].
  apply Forall_cons in Hf as [Hkf Hf].
  cbn [foldr]. rewrite IH by assumption. apply delete_app_l.
  apply lookup_lt_is_Some. rewrite foldr_delete_below by exact Hk.
  apply lookup_lt_is_Some. exact Hkf.
Qed.

Lemma reward_all_total (genome_list : list genome) :
  forall fit : fitness_store,
    (forall g, g ∈ genome_list -> is_Some (fit !! g)) ->
    exists fit',
      Trainer.reward_all genome_list fit = Ok fit' /\
      forall g, is_Some (fit' !! g) <-> is_Some (fit !! g).
Proof.
  induction genome_list as [|g0 rest IH]; intros fit Hfit;
    cbn [Trainer.reward_all].
  - exists fit. split; [reflexivity|tauto].
  - destruct (Hfit g0) as [f Hf]; [constructor|].
    rewrite (update_fitness_Some _ _ _ _ Hf). cbn [mbind result_bind].
    destruct (IH (<[g0 := (float_add f 5)]> fit)) as (fit' & Hrun & Hdom).
    + intros g Hg. apply is_Some_insert_store; [eauto|].
      apply Hfit. now constructor.
    + exists fit'. split; [exact Hrun|].
      intros g. rewrite Hdom. apply is_Some_insert_store. eauto.
Qed.

Lemma track_best_total (genome_list : list genome) (fit : fitness_store) :
  forall self : Trainer.t,
    (forall g, g ∈ genome_list -> is_Some (fit !! g)) ->
    exists self', Trainer.track_best genome_list fit self = Ok self'.
Proof.
  induction genome_list as [|g0 rest IH]; intros self Hfit;
    cbn [Trainer.track_best]; [eauto|].
  destruct (Hfit g0) as [f Hf]; [constructor|]. rewrite Hf.
  apply IH. intros g Hg. apply Hfit. now constructor.
Qed.

Lemma zip_sublist_parts {A B : Type} (a a' : list A) (b b' : list B) :
  length a' = length b' -> length a = length b ->
  zip a' b' `sublist_of` zip a b ->
  a' `sublist_of` a /\ b' `sublist_of` b.
Proof.
  intros H' H Hs. split.
  - rewrite <- (fst_zip a' b'), <- (fst_zip a b) by lia.
    now apply fmap_sublist.
  - rewrite <- (snd_zip a' b'), <- (snd_zip a b) by lia.
    now apply fmap_sublist.
Qed.

Lemma tick_well_formed (env : Env) (game : GameEngine.t)
    (s : Trainer.state) :
  well_formed s -> Trainer.birds s <> [] ->
  exists s', Trainer.tick env game s = Ok s' /\ well_formed s'.
Proof.
  intros [Hn Hg Hfit Hans Hx (front & p & Hpipes & Hlast)] Hne.
  destruct (Hlast Hne) as [Hp Hfar].
  destruct (select_pipe_in_range (Trainer.birds s) (Trainer.pipes s))
    as [pk Hpk]; [rewrite Hpipes; now destruct front|].
  destruct (move_birds_from _ _ _ (Trainer.networks s)
              (Trainer.genome_list s) Hpk
              (fun net v Hin => Hans net v Hin)
              (Trainer.birds s) 0%nat (Trainer.fitness s))
    as (birds1 & fit1 & Hmove & Hlen1 & Hdom1 & Hall); [lia|lia|exact Hfit|].
  assert (Hx1 : forall b, b ∈ birds1 -> Bird.x b = 230).
  { intros b Hb. apply list_elem_of_lookup in Hb as [j Hj].
    destruct (lookup_lt_is_Some_2 (Trainer.birds s) j) as [b0 Hb0].
    { apply lookup_lt_Some in Hj. lia. }
    destruct (Hall j b0 Hb0) as (net & o & _ & _ & Hj').
    rewrite Hj in Hj'. injection Hj' as ->.
    assert (Bird.x b0 = 230)
      by (apply Hx; eapply list_elem_of_lookup_2; eauto).
    destruct (Qltb 0.5 o); cbn; assumption. }
  assert (Hfit1 : forall g, g ∈ Trainer.genome_list s -> is_Some (fit1 !! g))
    by (intros g Hin; apply Hdom1, Hfit, Hin).
  destruct (process_pipes_total (Trainer.pipes s) 0 birds1
              (Trainer.networks s) (Trainer.genome_list s) fit1 false)
    as (pipes1 & rm & birds2 & networks2 & genome_list2 & fit2 & add_pipe
        & Hproc & Hdom2); [lia|lia|exact Hfit1|].
  destruct (process_pipes_aligned _ _ _ _ _ _ _ _ _ _ _ _ _ _ Hproc)
    as (Hn2 & Hg2 & Hzip2); [lia|lia|].
  destruct (process_pipes_spec _ _ _ _ _ _ _ _ _ _ _ _ _ _ Hproc)
    as (Hb2 & Hgl2 & _).
  destruct (zip_sublist_parts _ _ _ _ (eq_trans Hn2 (eq_sym Hg2))
              (eq_trans Hn (eq_sym Hg)) Hzip2) as [Hnet2 _].
  pose proof Hproc as Hproc'. rewrite Hpipes in Hproc'.
  destruct (process_pipes_last _ _ _ _ _ _ _ _ _ _ _ _ _ _ _ Hproc' Hx1
              Hp Hfar)
    as (front1 & p1 & -> & Hlenf & Hrm & Hsorted & Hlast1).
  assert (Hrm' : Forall (fun k => (k < length front1)%nat) rm).
  { eapply Forall_impl; [exact Hrm|]. cbn. intros k Hk. lia. }
  assert (Hfit2 : forall g, g ∈ genome_list2 -> is_Some (fit2 !! g)).
  { intros g Hin. apply Hdom2, Hfit1. eapply elem_of_sublist; eauto. }
  destruct (check_bounds_total (length birds2) birds2 networks2 genome_list2)
    as ([[birds5 networks5] genome_list5] & Hbound); [lia|lia|lia|].
  destruct (check_bounds_exact _ _ _ _ _ _ Hbound Hn2 Hg2)
    as (_ & Hb5 & Hn5 & Hg5).
  pose proof (check_bounds_aligned _ _ _ _ _ _ _ Hbound Hn2 Hg2) as Hzip5.
  destruct (zip_sublist_parts _ _ _ _ (eq_trans Hn5 (eq_sym Hg5))
              (eq_trans Hn2 (eq_sym Hg2)) Hzip5) as [Hnet5 Hgl5].
  assert (Hsub5 : forall b, b ∈ birds5 -> b ∈ birds2).
  { intros b Hin. rewrite Hb5 in Hin.
    now apply list_elem_of_filter in Hin as [_ Hin]. }
  unfold Trainer.tick. rewrite Hmove. cbn [mbind result_bind].
  rewrite Hproc. cbn [mbind result_bind].
  destruct add_pipe.
  - destruct (reward_all_total genome_list2 fit2 Hfit2)
      as (fit3 & Hrew & Hdom3).
    rewrite Hrew. cbn [mbind result_bind]. rewrite Hbound.
    cbn [mbind result_bind].
    eexists. split; [reflexivity|].
    constructor; cbn [Trainer.birds Trainer.networks Trainer.genome_list
                      Trainer.fitness Trainer.pipes].
    + unfold GameEngine.draw_window. now rewrite length_fmap.
    + unfold GameEngine.draw_window. now rewrite length_fmap.
    + intros g Hin. apply Hdom3, Hfit2. eapply elem_of_sublist; eauto.
    + intros net v Hin. apply Hans.
      eapply elem_of_sublist; [|exact Hnet2].
      eapply elem_of_sublist; eauto.
    + intros b Hin. apply list_elem_of_fmap in Hin as (b5 & -> & Hin).
      destruct (draw_frame b5) as (-> & _).
      apply Hx1. eapply elem_of_sublist; [|exact Hb2]. auto.
    + rewrite <- app_assoc, remove_pipes_keeps_tail by assumption.
      eexists (_ ++ [p1]), _. split; [now rewrite <- app_assoc|].
      intros _. split; [reflexivity|]. cbn. unfold Config.WIN_WIDTH. lia.
  - cbn [mbind result_bind]. rewrite Hbound. cbn [mbind result_bind].
    eexists. split; [reflexivity|].
    constructor; cbn [Trainer.birds Trainer.networks Trainer.genome_list
                      Trainer.fitness Trainer.pipes].
    + unfold GameEngine.draw_window. now rewrite length_fmap.
    + unfold GameEngine.draw_window. now rewrite length_fmap.
    + intros g Hin. apply Hfit2. eapply elem_of_sublist; eauto.
    + intros net v Hin. apply Hans.
      eapply elem_of_sublist; [|exact Hnet2].
      eapply elem_of_sublist; eauto.
    + intros b Hin. apply list_elem_of_fmap in Hin as (b5 & -> & Hin).
      destruct (draw_frame b5) as (-> & _).
      apply Hx1. eapply elem_of_sublist; [|exact Hb2]. auto.
    + rewrite remove_pipes_keeps_tail by assumption.
      eexists _, p1. split; [reflexivity|].
      intros Hne5. destruct Hlast1 as [Hadd|Hok]; [|discriminate|exact Hok].
      intros ->. apply Hne5. rewrite Hb5. reflexivity.
Qed.

Lemma game_loop_well_formed (env : Env) (game : GameEngine.t) (fuel : nat) :
  forall s,
    well_formed s ->
    exists r,
      Trainer.game_loop fuel env game s = Ok r /\
      forall s', r = Some s' -> well_formed s'.
Proof.
  induction fuel as [|fuel IH]; intros s Hwf; cbn [Trainer.game_loop].
  - exists None. split; [reflexivity|discriminate].
  - destruct (Trainer.birds s) as [|b bs] eqn:Eb.
    + exists (Some s). split; [reflexivity|]. now intros s' [= <-].
    + destruct (handle_events env (Trainer.polls s)).
      * destruct (tick_well_formed env game s Hwf) as (s1 & Hrun & Hwf1);
          [congruence|].
        rewrite Hrun. cbn [mbind result_bind]. apply IH, Hwf1.
      * eexists. split; [reflexivity|]. intros s' [= <-].
        destruct Hwf as [Hn Hg Hfit Hans Hx Hpipes].
        rewrite Eb in Hn, Hg, Hx, Hpipes.
        constructor; cbn; assumption.
Qed.

Lemma init_state_well_formed (env : Env) (game : GameEngine.t)
    (genomes : list (Z * genome)) (fit : fitness_store) :
  (forall g v, create_net env g v <> []) ->
  well_formed (Trainer.init_state env game genomes fit).
Proof.
  intros Hans.
  destruct (init_state_spec env game genomes fit)
    as (Hgl & Hnets & Hbirds & Hin & _ & _ & p & Hpipes & Hpx & Hpp & _).
  constructor.
  - rewrite Hnets, Hbirds, length_fmap, length_fmap, length_replicate.
    reflexivity.
  - rewrite Hgl, Hbirds, length_fmap, length_replicate. reflexivity.
  - intros g Hg. rewrite Hgl in Hg. rewrite (Hin g Hg). eauto.
  - intros net v Hnet. rewrite Hnets in Hnet.
    apply list_elem_of_fmap in Hnet as (g & -> & _). apply Hans.
  - intros b Hb. rewrite Hbirds in Hb.
    apply elem_of_replicate_inv in Hb as ->. reflexivity.
  - exists [], p. split; [exact Hpipes|]. intros _. split; [exact Hpp|lia].
Qed.

(** X23.  As long as every network answers with at least one output, a
    generation raises nothing, whatever the birds do and however long it
    runs: no index is out of range (the three lists stay parallel, and the
    list of pipes is never empty, since a pipe leaves the screen only after
    the pipe that follows it has been appended) and every genome whose
    fitness is read has one.  The state it ends in has a pipe left and
    its three lists of equal length. *)
Theorem generation_never_raises (fuel : nat) (env : Env)
    (game : GameEngine.t) (self : Trainer.t) (genomes : list (Z * genome))
    (fit : fitness_store) :
  (forall g v, create_net env g v <> []) ->
  exists r,
    Trainer._eval_genomes fuel env game self genomes fit = Ok r /\
    forall self' s, r = Some (self', s) ->
      Trainer.pipes s <> [] /\
      length (Trainer.networks s) = length (Trainer.birds s) /\
      length (Trainer.genome_list s) = length (Trainer.birds s).
Proof.
  intros Hans. unfold Trainer._eval_genomes.
  destruct (game_loop_well_formed env game fuel
              (Trainer.init_state env game genomes fit)
              (init_state_well_formed env game genomes fit Hans))
    as (r & Hrun & Hwf).
  rewrite Hrun. cbn [mbind result_bind].
  destruct r as [s|].
  - destruct (Hwf s eq_refl) as [Hn Hg Hfit _ _ (front & p & Hpipes & _)].
    destruct (track_best_total (Trainer.genome_list s) (Trainer.fitness s)
                {| Trainer.generation := Trainer.generation self + 1;
                   Trainer.best_genome := Trainer.best_genome self;
                   Trainer.best_fitness := Trainer.best_fitness self |}
                Hfit) as (self1 & Htrack).
    rewrite Htrack. cbn [mbind result_bind].
    eexists. split; [reflexivity|].
    intros self' s' [= <- <-]. split; [|auto].
    rewrite Hpipes. now destruct front.
  - exists None. split; [reflexivity|]. discriminate.
Qed.

Lemma generation_never_raises_witness :
  exists r, Trainer._eval_genomes 200 env0 game0 Trainer.init
              [(1, 1%nat); (2, 2%nat)] ∅ = Ok r.
Proof.
  destruct (generation_never_raises 200 env0 game0 Trainer.init
              [(1, 1%nat); (2, 2%nat)] ∅) as (r & Hr & _).
  - intros g v. discriminate.
  - exists r. exact Hr.
Defined.
